(** * Chat message renderer and tolerant JSON decoder

    A shallow embedding of
    - [web/src/core/utils/json.ts] ([parseJSON]), and
    - the message list renderer ([MessageListItem], [ResearchCard],
      [ThoughtBlock], [PlanCard], [PodcastCard], [EditorTeamMessage],
      [OutlineMessage], [EvaluatorMessage]).

    JavaScript values are an inductive type, a computation that may throw is a
    [result], React hooks ([useState], [useMemo], [useEffect]) are explicit
    cells threaded through a render/commit function, and the store is a
    record with named mutators. *)

From Stdlib Require Import List NArith ZArith Bool String Ascii Lia.
From Stdlib Require Import Permutation Sorted.
Import ListNotations.

Set Warnings "-register-all".

(* ================================================================== *)
(** * Part I: definitions *)
(* ================================================================== *)

(** ** JavaScript strings

    A JavaScript string is a sequence of UTF-16 code units.  [js] embeds an
    ASCII literal. *)

Definition jsstring := list N.

Definition js (s : string) : jsstring :=
  map N_of_ascii (list_ascii_of_string s).

Fixpoint str_eqb (a b : jsstring) : bool :=
  match a, b with
  | [], [] => true
  | x :: a', y :: b' => N.eqb x y && str_eqb a' b'
  | _, _ => false
  end.

(** The class [\s] of ECMAScript regular expressions, which is also the set
    removed by [String.prototype.trim]: WhiteSpace and LineTerminator. *)
Definition is_space (c : N) : bool :=
  ((9 <=? c) && (c <=? 13) || (c =? 32) || (c =? 160) || (c =? 5760)
   || (8192 <=? c) && (c <=? 8202) || (c =? 8232) || (c =? 8233)
   || (c =? 8239) || (c =? 8287) || (c =? 12288) || (c =? 65279))%N.

Fixpoint drop_while (p : N -> bool) (s : jsstring) : jsstring :=
  match s with
  | [] => []
  | c :: s' => if p c then drop_while p s' else s
  end.

(** [s.trim()] *)
Definition trim (s : jsstring) : jsstring :=
  rev (drop_while is_space (rev (drop_while is_space s))).

(** [strip_prefix p s] is [Some r] when [s = p ++ r]. *)
Fixpoint strip_prefix (p s : jsstring) : option jsstring :=
  match p, s with
  | [], _ => Some s
  | x :: p', y :: s' => if N.eqb x y then strip_prefix p' s' else None
  | _ :: _, [] => None
  end.

(** [s.replace(/^<pat>\s*/, "")]: the pattern is anchored at the start, the
    whitespace star is greedy, and without the [g] flag there is one
    replacement. *)
Definition replace_leading (pat s : jsstring) : jsstring :=
  match strip_prefix pat s with
  | Some r => drop_while is_space r
  | None => s
  end.

Definition fence : jsstring := js "```".

(** [s.replace(/\s*```$/, "")]: the match must end at the end of the input,
    and the leftmost match starts at the beginning of the whitespace run in
    front of the last three backticks. *)
Definition replace_trailing_fence (s : jsstring) : jsstring :=
  match strip_prefix (rev fence) (rev s) with
  | Some r => rev (drop_while is_space r)
  | None => s
  end.

(** The chain of [replace] calls of [parseJSON], in source order. *)
Definition strip_fences (json : jsstring) : jsstring :=
  replace_trailing_fence
    (replace_leading (js "```")
      (replace_leading (js "```plaintext")
        (replace_leading (js "```ts")
          (replace_leading (js "```js")
            (replace_leading (js "```json")
              (trim json)))))).

(** ** JavaScript numbers

    A number is a binary64 value.  JSON text denotes no NaN, so a number here
    is a signed zero, a signed infinity, or [NumFin neg m e], which is
    [m * 2^e] with the sign [neg], where [m < 2^53], [2^52 <= m] unless
    [e = -1074] (a subnormal), and [e <= 971].  Every value has one
    representation, so two numbers are the same value, as [Object.is] has
    it, exactly when they are equal. *)
Inductive number : Type :=
| NumZero (neg : bool)
| NumInf (neg : bool)
| NumFin (neg : bool) (m : positive) (e : Z).

(** [floor(n / (d * 2^k))] *)
Definition scaled_quotient (n d k : Z) : Z :=
  (if 0 <=? k then n / (d * 2 ^ k) else (n * 2 ^ (- k)) / d)%Z.

(** The binary64 value nearest to the fraction [n / d] (with [0 <= n] and
    [0 < d]), ties to the even significand: [k] is the exponent at which the
    quotient has 53 bits, or the least exponent [-1074]; the quotient at [k]
    is rounded by its remainder; a significand that reaches [2^53] moves to
    the next exponent, and an exponent above [971] is an infinity. *)
Definition round_binary64 (neg : bool) (n d : Z) : number :=
  (if n =? 0 then NumZero neg
   else
     let k1 := Z.log2 n - Z.log2 d - 53 in
     let k2 := if scaled_quotient n d k1 <? 2 ^ 53 then k1 else k1 + 1 in
     let k := Z.max k2 (-1074) in
     let num := if 0 <=? k then n else n * 2 ^ (- k) in
     let den := if 0 <=? k then d * 2 ^ k else d in
     let q := num / den in
     let r := num mod den in
     let up := (den <? 2 * r) || ((den =? 2 * r) && Z.odd q) in
     let m := if up then q + 1 else q in
     let '(m', k') := if m =? 2 ^ 53 then (2 ^ 52, k + 1) else (m, k) in
     if m' =? 0 then NumZero neg
     else if 971 <? k' then NumInf neg
     else NumFin neg (Z.to_pos m') k')%Z.

(** The Number value of the decimal [m * 10^e] with the sign [neg]. *)
Definition number_of_decimal (neg : bool) (m : N) (e : Z) : number :=
  (if 0 <=? e then round_binary64 neg (Z.of_N m * 10 ^ e) 1
   else round_binary64 neg (Z.of_N m) (10 ^ (- e)))%Z.

(** The number of a length or an index. *)
Definition number_of_nat (n : nat) : number :=
  number_of_decimal false (N.of_nat n) 0.

Definition number_eqb (a b : number) : bool :=
  match a, b with
  | NumZero x, NumZero y => Bool.eqb x y
  | NumInf x, NumInf y => Bool.eqb x y
  | NumFin x m e, NumFin y m' e' => Bool.eqb x y && Pos.eqb m m' && Z.eqb e e'
  | _, _ => false
  end.

(** ** JavaScript values *)

(** Objects keep their properties in insertion order. *)
Inductive value : Type :=
| VUndefined
| VNull
| VBool (b : bool)
| VNum (x : number)
| VStr (s : jsstring)
| VArr (l : list value)
| VObj (props : list (jsstring * value)).

Inductive error : Type := SyntaxError | TypeError.

(** A computation that returns or throws. *)
Inductive result (A : Type) : Type :=
| Return (a : A)
| Throw (e : error).
Arguments Return {A} a.
Arguments Throw {A} e.

Definition bind {A B} (r : result A) (k : A -> result B) : result B :=
  match r with
  | Return a => k a
  | Throw e => Throw e
  end.

Notation "x <- c ;; k" := (bind c (fun x => k))
  (at level 61, c at next level, right associativity).

(** [try { body } catch { handler }] *)
Definition try_catch {A} (body : result A) (handler : error -> result A)
  : result A :=
  match body with
  | Return a => Return a
  | Throw e => handler e
  end.

Fixpoint map_result {A B} (f : A -> result B) (l : list A) : result (list B) :=
  match l with
  | [] => Return []
  | a :: l' => b <- f a ;; bs <- map_result f l' ;; Return (b :: bs)
  end.

(** ** Property access and operators *)

Fixpoint lookup {A} (k : jsstring) (l : list (jsstring * A)) : option A :=
  match l with
  | [] => None
  | (k', v) :: l' => if str_eqb k k' then Some v else lookup k l'
  end.

(** [obj[k] = v] on a plain object: an existing property keeps its place. *)
Fixpoint set_prop (k : jsstring) (v : value) (props : list (jsstring * value))
  : list (jsstring * value) :=
  match props with
  | [] => [(k, v)]
  | (k', v') :: rest =>
      if str_eqb k k' then (k', v) :: rest else (k', v') :: set_prop k v rest
  end.

(** [v.name] for the property names this program reads ([title], [thought],
    [steps], [sections], [type], [description], [audioUrl], [error]): none of
    them is defined on a prototype, so only own properties of plain objects
    answer, and reading from [null] or [undefined] is a [TypeError]. *)
Definition get_prop (v : value) (name : jsstring) : result value :=
  match v with
  | VUndefined | VNull => Throw TypeError
  | VObj props =>
      Return (match lookup name props with Some x => x | None => VUndefined end)
  | _ => Return VUndefined
  end.

(** [v?.name] *)
Definition get_prop_opt (v : value) (name : jsstring) : value :=
  match get_prop v name with
  | Return x => x
  | Throw _ => VUndefined
  end.

(** ToBoolean: of the numbers, the two zeros are falsy. *)
Definition truthy (v : value) : bool :=
  match v with
  | VUndefined | VNull => false
  | VBool b => b
  | VNum (NumZero _) => false
  | VNum _ => true
  | VStr s => match s with [] => false | _ => true end
  | VArr _ | VObj _ => true
  end.

Definition is_undefined (v : value) : bool :=
  match v with VUndefined => true | _ => false end.

(** [a ?? b] *)
Definition nullish (a b : value) : value :=
  match a with
  | VUndefined | VNull => b
  | _ => a
  end.

(** [typeof v === 'object'] *)
Definition typeof_object (v : value) : bool :=
  match v with
  | VNull | VArr _ | VObj _ => true
  | _ => false
  end.

(** [v === VStr s] for a string literal [s] *)
Definition is_string (v : value) (s : jsstring) : bool :=
  match v with
  | VStr s' => str_eqb s' s
  | _ => false
  end.

(** ** JSON lexer

    One pass over the code units with a small automaton.  The strict end of
    input is the one of [JSON.parse]; the tolerant end of input is used by the
    best-effort parser. *)

Inductive token : Type :=
| TLBrace | TRBrace | TLBrack | TRBrack | TColon | TComma
| TStr (s : jsstring)
| TNum (x : number)
| TTrue | TFalse | TNull.

(** States of the number automaton of the JSON grammar: an optional minus
    sign, then a zero or a digit string without leading zero, then an optional
    fraction (a dot and digits), then an optional exponent (e or E, an
    optional sign, digits). *)
Inductive num_state : Type :=
| NMinus | NZero | NInt | NDot | NFrac | NExpE | NExpSign | NExp.

Record num_acc : Type := mkNum {
  n_neg : bool;     (* a leading minus sign *)
  n_mant : N;       (* the digits of the integer and fraction parts *)
  n_scale : N;      (* how many of them are fraction digits *)
  n_eneg : bool;    (* a minus sign in the exponent *)
  n_exp : N         (* the exponent digits *)
}.

Inductive esc_state : Type :=
| EscNone
| EscSlash
| EscU (digits : list N).

Inductive lex_mode : Type :=
| LDefault
| LString (acc : jsstring) (esc : esc_state)   (* [acc] is reversed *)
| LNumber (st : num_state) (a : num_acc)
| LLiteral (t : token) (rest : jsstring).

Definition is_digit (c : N) : bool := ((48 <=? c) && (c <=? 57))%N.

Definition digit_val (c : N) : N := (c - 48)%N.

Definition hex_val (c : N) : option N :=
  if ((48 <=? c) && (c <=? 57))%N then Some (c - 48)%N
  else if ((65 <=? c) && (c <=? 70))%N then Some (c - 55)%N
  else if ((97 <=? c) && (c <=? 102))%N then Some (c - 87)%N
  else None.

(** JSON whitespace: tab, line feed, carriage return, space. *)
Definition is_json_ws (c : N) : bool :=
  ((c =? 9) || (c =? 10) || (c =? 13) || (c =? 32))%N.

Definition push_digit (a : num_acc) (c : N) (frac : bool) : num_acc :=
  mkNum (n_neg a) (n_mant a * 10 + digit_val c)
        (if frac then n_scale a + 1 else n_scale a) (n_eneg a) (n_exp a).

Definition push_exp (a : num_acc) (c : N) : num_acc :=
  mkNum (n_neg a) (n_mant a) (n_scale a) (n_eneg a) (n_exp a * 10 + digit_val c).

Definition set_eneg (a : num_acc) (b : bool) : num_acc :=
  mkNum (n_neg a) (n_mant a) (n_scale a) b (n_exp a).

Definition is_e (c : N) : bool := ((c =? 101) || (c =? 69))%N.

Definition num_step (st : num_state) (a : num_acc) (c : N)
  : option (num_state * num_acc) :=
  match st with
  | NMinus =>
      if (c =? 48)%N then Some (NZero, a)
      else if is_digit c then Some (NInt, push_digit a c false) else None
  | NZero =>
      if (c =? 46)%N then Some (NDot, a)
      else if is_e c then Some (NExpE, a) else None
  | NInt =>
      if is_digit c then Some (NInt, push_digit a c false)
      else if (c =? 46)%N then Some (NDot, a)
      else if is_e c then Some (NExpE, a) else None
  | NDot => if is_digit c then Some (NFrac, push_digit a c true) else None
  | NFrac =>
      if is_digit c then Some (NFrac, push_digit a c true)
      else if is_e c then Some (NExpE, a) else None
  | NExpE =>
      if (c =? 43)%N then Some (NExpSign, a)
      else if (c =? 45)%N then Some (NExpSign, set_eneg a true)
      else if is_digit c then Some (NExp, push_exp a c) else None
  | NExpSign => if is_digit c then Some (NExp, push_exp a c) else None
  | NExp => if is_digit c then Some (NExp, push_exp a c) else None
  end.

Definition num_accepting (st : num_state) : bool :=
  match st with
  | NZero | NInt | NFrac | NExp => true
  | _ => false
  end.

(** The token of a number: the digits read are the decimal
    [n_mant * 10^(exponent - n_scale)], and the token carries its Number
    value. *)
Definition num_token (a : num_acc) : token :=
  let x := if n_eneg a then (- Z.of_N (n_exp a))%Z else Z.of_N (n_exp a) in
  TNum (number_of_decimal (n_neg a) (n_mant a) (x - Z.of_N (n_scale a))%Z).

Definition num0 (neg : bool) (mant : N) : num_acc := mkNum neg mant 0 false 0.

(** A code unit seen between tokens. *)
Definition lex_default (c : N) : option (lex_mode * list token) :=
  if is_json_ws c then Some (LDefault, [])
  else if (c =? 123)%N then Some (LDefault, [TLBrace])
  else if (c =? 125)%N then Some (LDefault, [TRBrace])
  else if (c =? 91)%N then Some (LDefault, [TLBrack])
  else if (c =? 93)%N then Some (LDefault, [TRBrack])
  else if (c =? 58)%N then Some (LDefault, [TColon])
  else if (c =? 44)%N then Some (LDefault, [TComma])
  else if (c =? 34)%N then Some (LString [] EscNone, [])
  else if (c =? 45)%N then Some (LNumber NMinus (num0 true 0), [])
  else if (c =? 48)%N then Some (LNumber NZero (num0 false 0), [])
  else if is_digit c then Some (LNumber NInt (num0 false (digit_val c)), [])
  else if (c =? 116)%N then Some (LLiteral TTrue (js "rue"), [])
  else if (c =? 102)%N then Some (LLiteral TFalse (js "alse"), [])
  else if (c =? 110)%N then Some (LLiteral TNull (js "ull"), [])
  else None.

Definition escape_char (c : N) : option N :=
  if (c =? 34)%N then Some 34%N
  else if (c =? 92)%N then Some 92%N
  else if (c =? 47)%N then Some 47%N
  else if (c =? 98)%N then Some 8%N
  else if (c =? 102)%N then Some 12%N
  else if (c =? 110)%N then Some 10%N
  else if (c =? 114)%N then Some 13%N
  else if (c =? 116)%N then Some 9%N
  else None.

Definition hex4 (ds : list N) : N :=
  fold_left (fun acc d => (acc * 16 + d)%N) ds 0%N.

(** One code unit; [None] is a lexical error. *)
Definition lex_step (m : lex_mode) (c : N) : option (lex_mode * list token) :=
  match m with
  | LDefault => lex_default c
  | LString acc EscNone =>
      if (c =? 34)%N then Some (LDefault, [TStr (rev acc)])
      else if (c =? 92)%N then Some (LString acc EscSlash, [])
      else if (c <? 32)%N then None
      else Some (LString (c :: acc) EscNone, [])
  | LString acc EscSlash =>
      if (c =? 117)%N then Some (LString acc (EscU []), [])
      else match escape_char c with
           | Some x => Some (LString (x :: acc) EscNone, [])
           | None => None
           end
  | LString acc (EscU ds) =>
      match hex_val c with
      | Some d =>
          if (List.length ds =? 3)%nat
          then Some (LString (hex4 (ds ++ [d]) :: acc) EscNone, [])
          else Some (LString acc (EscU (ds ++ [d])), [])
      | None => None
      end
  | LNumber st a =>
      match num_step st a c with
      | Some (st', a') => Some (LNumber st' a', [])
      | None =>
          if num_accepting st then
            match lex_default c with
            | Some (m', ts) => Some (m', num_token a :: ts)
            | None => None
            end
          else None
      end
  | LLiteral t rest =>
      match rest with
      | r :: rest' =>
          if (c =? r)%N then
            match rest' with
            | [] => Some (LDefault, [t])
            | _ => Some (LLiteral t rest', [])
            end
          else None
      | [] => None
      end
  end.

Fixpoint lex_run (m : lex_mode) (s : jsstring) : option (lex_mode * list token) :=
  match s with
  | [] => Some (m, [])
  | c :: s' =>
      match lex_step m c with
      | Some (m', ts) =>
          match lex_run m' s' with
          | Some (m'', ts') => Some (m'', ts ++ ts')
          | None => None
          end
      | None => None
      end
  end.

(** End of input for [JSON.parse]: no token may be open, except a number that
    is complete as it stands. *)
Definition lex_end_strict (m : lex_mode) : option (list token) :=
  match m with
  | LDefault => Some []
  | LNumber st a => if num_accepting st then Some [num_token a] else None
  | _ => None
  end.

(** ** JSON parser

    A stack automaton over the tokens: one frame per open array or object,
    each with what it expects next. *)

Inductive arr_expect : Type :=
| AFirst     (* after the bracket: a value or the closing bracket *)
| ANext      (* after a comma: a value *)
| ASep.      (* after a value: a comma or the closing bracket *)

Inductive obj_expect : Type :=
| OFirst                   (* after the brace: a key or the closing brace *)
| ONext                    (* after a comma: a key *)
| OColon (k : jsstring)    (* after a key: a colon *)
| OValue (k : jsstring)    (* after the colon: a value *)
| OSep.                    (* after a value: a comma or the closing brace *)

Inductive frame : Type :=
| FArr (acc : list value) (e : arr_expect)
| FObj (acc : list (jsstring * value)) (e : obj_expect).

Record pstate : Type := mkP {
  stack : list frame;        (* innermost frame first *)
  done : option value        (* the document, once it is complete *)
}.

Definition pstart : pstate := mkP [] None.

(** A complete value arrives where the automaton stands. *)
Definition deliver (v : value) (st : pstate) : option pstate :=
  match stack st with
  | [] =>
      match done st with
      | None => Some (mkP [] (Some v))
      | Some _ => None
      end
  | FArr acc (AFirst | ANext) :: r => Some (mkP (FArr (acc ++ [v]) ASep :: r) (done st))
  | FObj acc (OValue k) :: r => Some (mkP (FObj (set_prop k v acc) OSep :: r) (done st))
  | _ => None
  end.

Definition value_allowed (st : pstate) : bool :=
  match stack st with
  | [] => match done st with None => true | Some _ => false end
  | FArr _ (AFirst | ANext) :: _ => true
  | FObj _ (OValue _) :: _ => true
  | _ => false
  end.

Definition parse_step (st : pstate) (t : token) : option pstate :=
  match t with
  | TStr s =>
      match stack st with
      | FObj acc (OFirst | ONext) :: r => Some (mkP (FObj acc (OColon s) :: r) (done st))
      | _ => deliver (VStr s) st
      end
  | TNum x => deliver (VNum x) st
  | TTrue => deliver (VBool true) st
  | TFalse => deliver (VBool false) st
  | TNull => deliver VNull st
  | TLBrack =>
      if value_allowed st then Some (mkP (FArr [] AFirst :: stack st) (done st))
      else None
  | TLBrace =>
      if value_allowed st then Some (mkP (FObj [] OFirst :: stack st) (done st))
      else None
  | TRBrack =>
      match stack st with
      | FArr acc (AFirst | ASep) :: r => deliver (VArr acc) (mkP r (done st))
      | _ => None
      end
  | TRBrace =>
      match stack st with
      | FObj acc (OFirst | OSep) :: r => deliver (VObj acc) (mkP r (done st))
      | _ => None
      end
  | TComma =>
      match stack st with
      | FArr acc ASep :: r => Some (mkP (FArr acc ANext :: r) (done st))
      | FObj acc OSep :: r => Some (mkP (FObj acc ONext :: r) (done st))
      | _ => None
      end
  | TColon =>
      match stack st with
      | FObj acc (OColon k) :: r => Some (mkP (FObj acc (OValue k) :: r) (done st))
      | _ => None
      end
  end.

Fixpoint parse_run (st : pstate) (ts : list token) : option pstate :=
  match ts with
  | [] => Some st
  | t :: ts' =>
      match parse_step st t with
      | Some st' => parse_run st' ts'
      | None => None
      end
  end.

(** [JSON.parse(text)]: the whole text must be one document. *)
Definition JSON_parse (text : jsstring) : result value :=
  match lex_run LDefault text with
  | None => Throw SyntaxError
  | Some (m, ts) =>
      match lex_end_strict m with
      | None => Throw SyntaxError
      | Some tl =>
          match parse_run pstart (ts ++ tl) with
          | Some (mkP [] (Some v)) => Return v
          | _ => Throw SyntaxError
          end
      end
  end.

(** ** The best-effort parser *)

(** Modelled from the spec: the end of input of [parse] of the
    [best-effort-json-parser] package, which is not part of the sources.  An
    unterminated string is closed at the cut point; a token that is cut short
    (a literal, or a number that cannot stand as it is) is left out. *)
Definition lex_end_tolerant (m : lex_mode) : list token :=
  match m with
  | LDefault => []
  | LString acc _ => [TStr (rev acc)]
  | LNumber st a => if num_accepting st then [num_token a] else []
  | LLiteral _ _ => []
  end.

(** Modelled from the spec: closing what is still open at the end of input.
    An unterminated array or object is closed with its known elements, and a
    dangling key is dropped.  [carry] is the value of the frame just closed,
    which its parent was waiting for. *)
Fixpoint close_all (st : list frame) (carry : option value) : option value :=
  match st with
  | [] => carry
  | FArr acc _ :: r =>
      close_all r (Some (VArr (match carry with
                               | Some v => acc ++ [v]
                               | None => acc
                               end)))
  | FObj acc e :: r =>
      close_all r (Some (VObj (match carry, e with
                               | Some v, OValue k => set_prop k v acc
                               | _, _ => acc
                               end)))
  end.

(** Modelled from the spec: [parse] of the [best-effort-json-parser] package,
    which is not part of the sources.  It accepts a prefix of a JSON document
    and returns the structure read so far; a token that is not JSON, or no
    value at all, is an error. *)
Definition parse (text : jsstring) : result value :=
  match lex_run LDefault text with
  | None => Throw SyntaxError
  | Some (m, ts) =>
      match parse_run pstart (ts ++ lex_end_tolerant m) with
      | Some (mkP [] (Some v)) => Return v
      | Some (mkP [] None) => Throw SyntaxError
      | Some (mkP (f :: r) _) =>
          match close_all (f :: r) None with
          | Some v => Return v
          | None => Throw SyntaxError
          end
      | None => Throw SyntaxError
      end
  end.

(** ** [parseJSON] *)

(** The argument type [string | null | undefined]. *)
Inductive json_arg : Type :=
| JUndefined
| JNull
| JString (s : jsstring).

(** [!json] *)
Definition falsy_arg (json : json_arg) : bool :=
  match json with
  | JString (_ :: _) => false
  | _ => true
  end.

Definition arg_string (json : json_arg) : jsstring :=
  match json with
  | JString s => s
  | _ => []
  end.

Section ParseJSON.

(** The imported [parse]. *)
Variable best_effort_parse : jsstring -> result value.

Definition parseJSON (json : json_arg) (fallback : value) : result value :=
  if falsy_arg json then Return fallback
  else
    try_catch
      (let raw := strip_fences (arg_string json) in
       result_ <- best_effort_parse raw ;;
       Return result_)
      (fun _ => Return fallback).

End ParseJSON.

(** The decoder of the spec: [parseJSON] with the best-effort parser. *)
Definition decode (raw : json_arg) (fallback : value) : result value :=
  parseJSON parse raw fallback.

Definition nl : jsstring := [10%N].

(** A JSON text written with single quotes in place of double quotes. *)
Definition jq (s : string) : jsstring :=
  map (fun c => if (c =? 39)%N then 34%N else c) (js s).

(** What the spec describes: one leading marker, the first that matches among
    the tags [json], [js], [ts], [plaintext] and the bare fence, and one
    trailing fence.  Kept apart from [strip_fences], which follows the source,
    to compare the two. *)
Definition leading_once (s : jsstring) : jsstring :=
  match strip_prefix (js "```json") s with
  | Some r => drop_while is_space r
  | None =>
  match strip_prefix (js "```js") s with
  | Some r => drop_while is_space r
  | None =>
  match strip_prefix (js "```ts") s with
  | Some r => drop_while is_space r
  | None =>
  match strip_prefix (js "```plaintext") s with
  | Some r => drop_while is_space r
  | None => replace_leading (js "```") s
  end end end end.

Definition strip_one_fence (json : jsstring) : jsstring :=
  replace_trailing_fence (leading_once (trim json)).

(** ** Decimal strings and own-property order *)

Fixpoint uint_digits (u : Decimal.uint) : jsstring :=
  match u with
  | Decimal.Nil => []
  | Decimal.D0 u' => 48%N :: uint_digits u'
  | Decimal.D1 u' => 49%N :: uint_digits u'
  | Decimal.D2 u' => 50%N :: uint_digits u'
  | Decimal.D3 u' => 51%N :: uint_digits u'
  | Decimal.D4 u' => 52%N :: uint_digits u'
  | Decimal.D5 u' => 53%N :: uint_digits u'
  | Decimal.D6 u' => 54%N :: uint_digits u'
  | Decimal.D7 u' => 55%N :: uint_digits u'
  | Decimal.D8 u' => 56%N :: uint_digits u'
  | Decimal.D9 u' => 57%N :: uint_digits u'
  end.

(** [String(n)] for a natural number *)
Definition dec (n : nat) : jsstring := uint_digits (Nat.to_uint n).

(** An array index is the canonical decimal string of an integer below
    [2^32 - 1]; [array_index k] is that integer. *)
Definition array_index (k : jsstring) : option N :=
  match k with
  | [] => None
  | c :: rest =>
      if forallb is_digit k
         && (negb (c =? 48)%N || match rest with [] => true | _ => false end)
      then
        let n := fold_left (fun acc d => (acc * 10 + digit_val d)%N) k 0%N in
        if (n <? 4294967295)%N then Some n else None
      else None
  end.

Fixpoint insert_index (x : N * (jsstring * value))
  (l : list (N * (jsstring * value))) : list (N * (jsstring * value)) :=
  match l with
  | [] => [x]
  | y :: l' => if (fst x <=? fst y)%N then x :: l else y :: insert_index x l'
  end.

Fixpoint index_props (props : list (jsstring * value))
  : list (N * (jsstring * value)) :=
  match props with
  | [] => []
  | (k, v) :: rest =>
      match array_index k with
      | Some n => insert_index (n, (k, v)) (index_props rest)
      | None => index_props rest
      end
  end.

Definition named_props (props : list (jsstring * value))
  : list (jsstring * value) :=
  filter (fun kv => match array_index (fst kv) with
                    | Some _ => false
                    | None => true
                    end) props.

(** The own property keys of an ordinary object in the order of the language:
    array indices ascending, then the other keys in insertion order. *)
Definition own_props (props : list (jsstring * value))
  : list (jsstring * value) :=
  map snd (index_props props) ++ named_props props.

Fixpoint indexed {A} (i : nat) (l : list A) : list (jsstring * A) :=
  match l with
  | [] => []
  | a :: l' => (dec i, a) :: indexed (S i) l'
  end.

(** [Object.entries(v)] *)
Definition Object_entries (v : value) : result (list (jsstring * value)) :=
  match v with
  | VUndefined | VNull => Throw TypeError
  | VObj props => Return (own_props props)
  | VArr l => Return (indexed 0 l)
  | VStr s => Return (indexed 0 (map (fun c => VStr [c]) s))
  | VBool _ | VNum _ => Return []
  end.

(** [v.length] of a value that is not [null] or [undefined] *)
Definition length_of (v : value) : value :=
  match v with
  | VArr l => VNum (number_of_nat (List.length l))
  | VStr s => VNum (number_of_nat (List.length s))
  | VObj props =>
      match lookup (js "length") props with Some x => x | None => VUndefined end
  | _ => VUndefined
  end.

(** [v.map(f)] with the index: only an array has [map]; calling the missing
    method of another value is a [TypeError]. *)
Definition array_map {B} (f : value -> nat -> result B) (v : value)
  : result (list B) :=
  match v with
  | VArr l => map_result (fun ix => f (snd ix) (fst ix)) (combine (seq 0 (List.length l)) l)
  | _ => Throw TypeError
  end.

(** ** Messages and the store *)

Inductive Role : Type := user | assistant.

(** [Option]: a selectable choice of an interrupt message. *)
Record Opt : Type := mkOpt {
  opt_value : jsstring;
  opt_text : jsstring
}.

(** Modelled from the spec: the [Message] record of [~/core/messages], whose
    declaration is not part of the sources. *)
Record Message : Type := mkMessage {
  id : jsstring;
  role : Role;
  agent : option jsstring;
  content : jsstring;
  reasoningContent : option jsstring;
  isStreaming : bool;
  options : option (list Opt)
}.

(** Modelled from the spec: the state of [~/core/store], which is not part of
    the sources.  [editTeamCount_log] is a ghost field: the arguments of the
    calls of [setEditTeamCount], oldest first. *)
Record Store : Type := mkStore {
  messageIds : list jsstring;
  messages : list (jsstring * Message);
  researchIds : list jsstring;
  researchReportIds : list (jsstring * jsstring);
  openResearchId : option jsstring;
  editTeamCount : value;
  editTeamCount_log : list value
}.

(** Modelled from the spec: [openResearch(id)] of the store makes [id] the
    open session, which closes any other. *)
Definition openResearch (researchId : jsstring) (st : Store) : Store :=
  mkStore (messageIds st) (messages st) (researchIds st) (researchReportIds st)
          (Some researchId) (editTeamCount st) (editTeamCount_log st).

(** Modelled from the spec: [closeResearch()] of the store leaves no session
    open. *)
Definition closeResearch (st : Store) : Store :=
  mkStore (messageIds st) (messages st) (researchIds st) (researchReportIds st)
          None (editTeamCount st) (editTeamCount_log st).

(** Modelled from the spec: [setEditTeamCount(n)] of the store. *)
Definition setEditTeamCount (n : value) (st : Store) : Store :=
  mkStore (messageIds st) (messages st) (researchIds st) (researchReportIds st)
          (openResearchId st) n (editTeamCount_log st ++ [n]).

(** Modelled from the spec: [useMessage(id)] reads the message record. *)
Definition useMessage (st : Store) (messageId : jsstring) : option Message :=
  lookup messageId (messages st).

(** Modelled from the spec: [useResearchMessage(id)] reads the message the
    research card takes its title from, the start message of the session. *)
Definition useResearchMessage (st : Store) (researchId : jsstring)
  : option Message :=
  lookup researchId (messages st).

(** A session is open when the store names it. *)
Definition is_open (st : Store) (researchId : jsstring) : Prop :=
  openResearchId st = Some researchId.

Definition agent_is (m : Message) (name : string) : bool :=
  match agent m with
  | Some a => str_eqb a (js name)
  | None => false
  end.

Definition role_is_user (m : Message) : bool :=
  match role m with user => true | assistant => false end.

Definition nonempty (s : jsstring) : bool :=
  match s with [] => false | _ => true end.

(** ** [MessageListItem] *)

(** The React elements [MessageListItem] builds; the component of an element
    runs when the element is rendered. *)
Inductive element : Type :=
| PlanCardE (message : Message) (waitForFeedback : bool)
            (interruptMessage : option Message)
| PodcastCardE (message : Message)
| OutlineMessageE (message : Message)
| EditorTeamMessageE (message : Message)
| EvaluatorMessageE (message : Message)
| ResearchCardE (researchId : jsstring)
| MessageBubbleE (message : Message) (markdown : jsstring).

(** What a component returns: [null], nothing at all, or a node. *)
Inductive rendered (A : Type) : Type :=
| RNull
| RUndefined
| RNode (a : A).
Arguments RNull {A}.
Arguments RUndefined {A}.
Arguments RNode {A} a.

Definition listed (m : Message) (startOfResearch : bool) : bool :=
  role_is_user m
  || agent_is m "coordinator"
  || agent_is m "planner"
  || agent_is m "podcast"
  || agent_is m "feedback_handler"
  || agent_is m "generate_questions"
  || agent_is m "reporter"
  || agent_is m "outline"
  || agent_is m "editor_team"
  || agent_is m "evaluator"
  || startOfResearch.

Definition MessageListItem (st : Store) (messageId : jsstring)
  (waitForFeedback : bool) (interruptMessage : option Message)
  : rendered element :=
  let message := useMessage st messageId in
  let startOfResearch := existsb (str_eqb messageId) (researchIds st) in
  match message with
  | Some message =>
      if listed message startOfResearch then
        let content_ : option element :=
          if agent_is message "planner" then
            Some (PlanCardE message waitForFeedback interruptMessage)
          else if agent_is message "podcast" then
            Some (PodcastCardE message)
          else if agent_is message "outline" then
            if nonempty (content message)
            then Some (OutlineMessageE message) else None
          else if agent_is message "editor_team" then
            if nonempty (content message)
            then Some (EditorTeamMessageE message) else None
          else if agent_is message "evaluator" then
            if nonempty (content message)
            then Some (EvaluatorMessageE message) else None
          else if startOfResearch then
            Some (ResearchCardE (id message))
          else
            if nonempty (content message)
            then Some (MessageBubbleE message (content message)) else None
        in
        match content_ with
        | Some e => RNode e
        | None => RNull
        end
      else RNull
  | None => RUndefined
  end.

(** ** The cards

    A view keeps what a component decides: which parts are shown and with
    which data.  Class names and transitions are left out.  The children of
    [Markdown] are JavaScript values as the component passes them. *)

(** A template literal with one hole: [prefix] followed by the string of
    [arg]. *)
Record template : Type := mkTemplate {
  tpl_prefix : jsstring;
  tpl_arg : value
}.

(** Whether ToString, which a template literal applies to its hole, yields
    a string for [v].  Every primitive has one.  An object is converted by
    its [toString] and then its [valueOf]: a decoded object holds no
    function, so an own property [toString] hides the callable
    [Object.prototype.toString], and [valueOf], own or inherited, yields no
    primitive: the conversion throws a [TypeError].  Without that property
    the string is the one of [Object.prototype.toString].  The string of an
    array joins the strings of its entries, where [null] and [undefined]
    count as empty. *)
Fixpoint string_convertible (v : value) : bool :=
  match v with
  | VObj props =>
      match lookup (js "toString") props with
      | Some _ => false
      | None => true
      end
  | VArr l => forallb string_convertible l
  | _ => true
  end.

(** The template literal of a card title.  It is evaluated in the body of
    the component, so that a value without a string makes the render
    throw. *)
Definition heading (v : value) : result template :=
  if string_convertible v then Return (mkTemplate (js "### ") v)
  else Throw TypeError.

(** The props of a [ThoughtBlock] element. *)
Record ThoughtBlockProps : Type := mkThoughtProps {
  tb_content : jsstring;
  tb_isStreaming : bool;
  tb_hasMainContent : bool
}.

(** An entry of a list of steps or sections: title and description. *)
Record EntryView : Type := mkEntry {
  entry_title : value;
  entry_description : value
}.

(** The footer of the plan card: [a && b && c] is the first falsy operand
    ([false], [undefined] or the number 0) or the buttons. *)
Inductive PlanFooter : Type :=
| FooterFalse
| FooterUndefined
| FooterZero
| FooterButtons (disabled : bool) (opts : list Opt).

Record PlanView : Type := mkPlanView {
  plan_title : template;
  plan_thought : value;
  plan_steps : option (list EntryView);
  plan_footer : PlanFooter
}.

Record PlanCardView : Type := mkPlanCardView {
  pc_thought : option ThoughtBlockProps;
  pc_plan : option PlanView
}.

Record PodcastView : Type := mkPodcastView {
  pod_generating : bool;
  pod_label : option jsstring;                 (* [None]: the error text *)
  pod_download : option (value * jsstring);    (* [href] and [download] *)
  pod_title : value;
  pod_audio : option value                     (* [src] of the audio element *)
}.

Record EditorStepView : Type := mkEditorStep {
  es_badge : value;
  es_title : value;
  es_description : value
}.

Inductive EditorTeamView : Type :=
| EditorCard (title : template) (thought : option value)
             (steps : option (list EditorStepView))
| EditorPlain (markdown : jsstring).

Record OutlineView : Type := mkOutlineView {
  ol_title : template;
  ol_thought : option value;
  ol_sections : option (list EntryView)
}.

(** One titled block of the evaluator card. *)
Record EvaluationItem : Type := mkItem {
  criterion : jsstring;
  evaluation : value
}.

Record ResearchCardView : Type := mkResearchView {
  rc_animated : bool;
  rc_title : value;
  rc_state : jsstring;
  rc_button_default : bool;
  rc_button : jsstring
}.

Inductive view : Type :=
| PlanCardV (v : PlanCardView)
| PodcastCardV (v : PodcastView)
| OutlineMessageV (v : OutlineView)
| EditorTeamMessageV (v : EditorTeamView)
| EvaluatorMessageV (items : list EvaluationItem)
| ResearchCardV (v : ResearchCardView)
| MessageBubbleV (r : Role) (markdown : jsstring).

Definition info_collecting_label : jsstring := [20449; 24687; 25910; 38598]%N.
Definition step_label : jsstring := [27493; 39588]%N.
Definition no_description_label : jsstring := [26242; 26080; 25551; 36848]%N.

(** [Boolean(message.content && message.content.trim() !== "")] *)
Definition hasMainContent_of (m : Message) : bool :=
  nonempty (content m) && nonempty (trim (content m)).

(** [s.replaceAll(" ", "-")] *)
Definition replace_spaces (s : jsstring) : jsstring :=
  map (fun c => if (c =? 32)%N then 45%N else c) s.

Section Cards.

(** The translation function of [useTranslations]. *)
Variable t : string -> jsstring.

Definition entry_of (x : value) (i : nat) : result EntryView :=
  title <- get_prop x (js "title") ;;
  description <- get_prop x (js "description") ;;
  Return (mkEntry title description).

(** [v && v.map(...)] *)
Definition optional_map {B} (f : value -> nat -> result B) (v : value)
  : result (option (list B)) :=
  if truthy v then l <- array_map f v ;; Return (Some l) else Return None.

Definition plan_footer_of (message : Message) (waitForFeedback : bool)
  (interruptMessage : option Message) : PlanFooter :=
  if isStreaming message then FooterFalse
  else match interruptMessage with
       | None => FooterUndefined
       | Some im =>
           match options im with
           | None => FooterUndefined
           | Some [] => FooterZero
           | Some opts => FooterButtons (negb waitForFeedback) opts
           end
       end.

Definition PlanCard (message : Message) (waitForFeedback : bool)
  (interruptMessage : option Message) : result PlanCardView :=
  plan <- parseJSON parse (JString (content message)) (VObj []) ;;
  let reasoning := reasoningContent message in
  let hasMainContent := hasMainContent_of message in
  let isThinking :=
    match reasoning with
    | Some (_ :: _) => negb hasMainContent
    | _ => false
    end in
  let shouldShowPlan := hasMainContent in
  let thought :=
    match reasoning with
    | Some (c :: r) => Some (mkThoughtProps (c :: r) isThinking hasMainContent)
    | _ => None
    end in
  if shouldShowPlan then
    title <- get_prop plan (js "title") ;;
    let shown :=
      if negb (is_undefined title) && negb (is_string title [])
      then title else VStr (t "deepResearch") in
    heading_ <- heading shown ;;
    thought_ <- get_prop plan (js "thought") ;;
    steps <- get_prop plan (js "steps") ;;
    steps_ <- optional_map entry_of steps ;;
    Return (mkPlanCardView thought
              (Some (mkPlanView heading_ thought_ steps_
                       (plan_footer_of message waitForFeedback interruptMessage))))
  else Return (mkPlanCardView thought None).

(** [isPlaying] is the component's own state; it starts as [false]. *)
Definition PodcastCard (message : Message) (isPlaying : bool)
  : result PodcastView :=
  data <- JSON_parse (content message) ;;
  let title := get_prop_opt data (js "title") in
  let audioUrl := get_prop_opt data (js "audioUrl") in
  let isGenerating := isStreaming message in
  let hasError := negb (is_undefined (get_prop_opt data (js "error"))) in
  let label :=
    if hasError then None
    else Some (if isGenerating then js "Generating podcast..."
               else if isPlaying then js "Now playing podcast..."
               else js "Podcast") in
  download <-
    (if negb hasError && negb isGenerating then
       match nullish title (VStr (js "podcast")) with
       | VStr s => Return (Some (audioUrl, replace_spaces s ++ js ".mp3"))
       | _ => Throw TypeError
       end
     else Return None) ;;
  Return (mkPodcastView isGenerating label download title
            (if truthy audioUrl then Some audioUrl else None)).

Definition editor_step_of (step : value) (i : nat) : result EditorStepView :=
  type <- get_prop step (js "type") ;;
  title <- get_prop step (js "title") ;;
  description <- get_prop step (js "description") ;;
  Return (mkEditorStep
            (if is_string type (js "info_collecting")
             then VStr info_collecting_label
             else nullish type (VStr step_label))
            (nullish title (VStr (step_label ++ js " " ++ dec (i + 1))))
            (nullish description (VStr no_description_label))).

(** The [useMemo] of [EditorTeamMessage]: the decoded object, or [null]. *)
Definition editorData_of (message : Message) : result value :=
  try_catch
    (parsedData <- parseJSON parse (JString (content message)) VNull ;;
     if truthy parsedData && typeof_object parsedData then
       title <- get_prop parsedData (js "title") ;;
       if negb (is_undefined title) then Return parsedData
       else
         steps <- get_prop parsedData (js "steps") ;;
         if negb (is_undefined steps) then Return parsedData
         else Return VNull
     else Return VNull)
    (fun _ => Return VNull).

Definition EditorTeamMessage (message : Message) : result EditorTeamView :=
  editorData <- editorData_of message ;;
  if truthy editorData then
    title <- get_prop editorData (js "title") ;;
    heading_ <- heading (nullish title (VStr (js "Editor Team Progress"))) ;;
    thought <- get_prop editorData (js "thought") ;;
    steps <- get_prop editorData (js "steps") ;;
    steps_ <- optional_map editor_step_of steps ;;
    Return (EditorCard heading_
              (if truthy thought then Some thought else None)
              steps_)
  else Return (EditorPlain (content message)).

(** The part of [OutlineMessage] after its hooks: the card for a decoded
    outline. *)
Definition OutlineMessage_view (outline : value) : result OutlineView :=
  title <- get_prop outline (js "title") ;;
  heading_ <- heading (nullish title (VStr (js "Outline"))) ;;
  thought <- get_prop outline (js "thought") ;;
  sections <- get_prop outline (js "sections") ;;
  sections_ <- optional_map entry_of sections ;;
  Return (mkOutlineView heading_
            (if truthy thought then Some thought else None)
            sections_).

Definition evaluationData_of (message : Message) : result value :=
  try_catch
    (parseJSON parse (JString (content message)) (VObj []))
    (fun _ => Return (VObj [])).

Definition EvaluatorMessage (message : Message) : result (list EvaluationItem) :=
  evaluationData <- evaluationData_of message ;;
  entries <- Object_entries evaluationData ;;
  Return (map (fun kv => mkItem (fst kv) (snd kv)) entries).

Definition ResearchCard (st : Store) (researchId : jsstring)
  : result ResearchCardView :=
  let reportId := lookup researchId (researchReportIds st) in
  reportGenerating <-
    match reportId with
    | Some rid =>
        match lookup rid (messages st) with
        | Some report => Return (isStreaming report)
        | None => Throw TypeError
        end
    | None => Return false
    end ;;
  let state :=
    match reportId with
    | Some _ =>
        if reportGenerating then t "generatingReport" else t "reportGenerated"
    | None => t "researching"
    end in
  title <-
    match useResearchMessage st researchId with
    | Some msg =>
        parsed <- parseJSON parse (JString (content msg))
                    (VObj [(js "title", VStr [])]) ;;
        get_prop parsed (js "title")
    | None => Return VUndefined
    end ;;
  let own := match openResearchId st with
             | Some o => str_eqb researchId o
             | None => false
             end in
  Return (mkResearchView
            (negb (str_eqb state (t "reportGenerated")))
            (if negb (is_undefined title) && negb (is_string title [])
             then title else VStr (t "deepResearch"))
            state
            (match openResearchId st with
             | Some (_ :: _) => false
             | _ => true
             end)
            (if own then t "close" else t "open")).

(** [handleOpen] of the research card, with the store it acts on.  The call
    of [onToggleResearch] only schedules a scroll. *)
Definition handleOpen (researchId : jsstring) (st : Store) : Store :=
  match openResearchId st with
  | Some o => if str_eqb o researchId then closeResearch st
              else openResearch researchId st
  | None => openResearch researchId st
  end.

End Cards.

(** ** [ThoughtBlock]: the collapsible reasoning panel

    The two [useState] cells and the dependency array of the last effect that
    was committed.  [collapses] is a ghost counter of the runs of the effect
    that force the panel closed. *)

Record ThoughtBlockState : Type := mkTB {
  isOpen : bool;
  hasAutoCollapsed : bool;
  tb_deps : option (bool * bool);
  collapses : nat
}.

(** Before the first render: [useState(true)], [useState(false)]. *)
Definition ThoughtBlock_mount : ThoughtBlockState := mkTB true false None 0.

Definition same_deps2 (old : option (bool * bool)) (new : bool * bool) : bool :=
  match old with
  | Some (a, b) => Bool.eqb a (fst new) && Bool.eqb b (snd new)
  | None => false
  end.

(** One render followed by its commit: the effect runs on mount and whenever
    [[hasMainContent, hasAutoCollapsed]] differs from the last commit. *)
Definition ThoughtBlock_commit (hasMainContent : bool) (s : ThoughtBlockState)
  : ThoughtBlockState :=
  let deps := (hasMainContent, hasAutoCollapsed s) in
  if same_deps2 (tb_deps s) deps then s
  else if hasMainContent && negb (hasAutoCollapsed s)
       then mkTB false true (Some deps) (S (collapses s))
       else mkTB (isOpen s) (hasAutoCollapsed s) (Some deps) (collapses s).

(** A render with the given prop.  The state the effect sets schedules one
    more render with the same prop. *)
Definition ThoughtBlock_render (hasMainContent : bool) (s : ThoughtBlockState)
  : ThoughtBlockState :=
  ThoughtBlock_commit hasMainContent (ThoughtBlock_commit hasMainContent s).

(** [onOpenChange = setIsOpen]: the user opens or closes the panel, and the
    component renders again with the prop it had. *)
Definition ThoughtBlock_toggle (open : bool) (s : ThoughtBlockState)
  : ThoughtBlockState :=
  let s' := mkTB open (hasAutoCollapsed s) (tb_deps s) (collapses s) in
  match tb_deps s with
  | Some (hasMainContent, _) => ThoughtBlock_render hasMainContent s'
  | None => s'
  end.

Inductive ThoughtBlockEvent : Type :=
| Props (hasMainContent : bool)     (* the parent renders the panel *)
| Toggle (open : bool).             (* the user clicks the trigger *)

Definition ThoughtBlock_step (s : ThoughtBlockState) (e : ThoughtBlockEvent)
  : ThoughtBlockState :=
  match e with
  | Props h => ThoughtBlock_render h s
  | Toggle o => ThoughtBlock_toggle o s
  end.

Definition ThoughtBlock_run (es : list ThoughtBlockEvent)
  (s : ThoughtBlockState) : ThoughtBlockState :=
  fold_left ThoughtBlock_step es s.

(** What the panel shows: nothing for an empty or blank text. *)
Definition ThoughtBlock_view (p : ThoughtBlockProps) (s : ThoughtBlockState)
  : rendered (bool * bool * jsstring) :=
  if negb (nonempty (tb_content p)) || negb (nonempty (trim (tb_content p)))
  then RNull
  else RNode (isOpen s, tb_isStreaming p, tb_content p).

(** ** [OutlineMessage]: the memo, the effect and the store

    An object made by one evaluation of [parseJSON] has an identity of its
    own: a dependency that is an array or an object is compared by the
    evaluation it comes from, a primitive by its value. *)

Inductive dep : Type :=
| DRef (r : nat)
| DPrim (v : value).

Definition dep_of (r : nat) (v : value) : dep :=
  match v with
  | VArr _ | VObj _ => DRef r
  | _ => DPrim v
  end.

Definition value_eqb (a b : value) : bool :=
  match a, b with
  | VUndefined, VUndefined => true
  | VNull, VNull => true
  | VBool x, VBool y => Bool.eqb x y
  | VNum x, VNum y => number_eqb x y
  | VStr s, VStr s' => str_eqb s s'
  | _, _ => false
  end.

(** [Object.is] on dependencies *)
Definition dep_eqb (a b : dep) : bool :=
  match a, b with
  | DRef r, DRef r' => Nat.eqb r r'
  | DPrim v, DPrim v' => value_eqb v v'
  | _, _ => false
  end.

Record OutlineHooks : Type := mkOH {
  memo : option (jsstring * (nat * value));  (* [useMemo]: content, then the
                                                evaluation and its value *)
  effect_deps : option (bool * dep);         (* [useEffect]: the last deps *)
  next_ref : nat                             (* the next fresh identity *)
}.

Definition OutlineMessage_mount : OutlineHooks := mkOH None None 0.

(** [useMemo(() => parseJSON(message.content ?? "", {}), [message.content])] *)
Definition use_outline (message : Message) (h : OutlineHooks)
  : result (nat * value * OutlineHooks) :=
  let recompute :=
    v <- parseJSON parse (JString (content message)) (VObj []) ;;
    Return (next_ref h, v,
            mkOH (Some (content message, (next_ref h, v)))
                 (effect_deps h) (S (next_ref h))) in
  match memo h with
  | Some (c, (r, v)) =>
      if str_eqb c (content message) then Return (r, v, h) else recompute
  | None => recompute
  end.

Definition same_deps (old : option (bool * dep)) (new : bool * dep) : bool :=
  match old with
  | Some (a, d) => Bool.eqb a (fst new) && dep_eqb d (snd new)
  | None => false
  end.

(** One render of [OutlineMessage] and its commit.  The render reads
    [outline.sections] for the dependency array and builds the card; the
    effect then runs if the dependencies changed. *)
Definition OutlineMessage (message : Message) (hs : OutlineHooks * Store)
  : result (OutlineHooks * Store * OutlineView) :=
  let '(h, st) := hs in
  o <- use_outline message h ;;
  let '(r, outline, h1) := o in
  sections <- get_prop outline (js "sections") ;;
  let deps := (isStreaming message, dep_of r sections) in
  v <- OutlineMessage_view outline ;;
  if same_deps (effect_deps h1) deps then Return (h1, st, v)
  else
    let h2 := mkOH (memo h1) (Some deps) (next_ref h1) in
    if negb (isStreaming message) && truthy sections
    then Return (h2, setEditTeamCount (length_of sections) st, v)
    else Return (h2, st, v).

(** A sequence of renders of one mounted [OutlineMessage]. *)
Fixpoint OutlineMessage_run (ms : list Message) (hs : OutlineHooks * Store)
  : result (OutlineHooks * Store) :=
  match ms with
  | [] => Return hs
  | m :: ms' =>
      x <- OutlineMessage m hs ;;
      OutlineMessage_run ms' (fst x)
  end.

(** ** Rendering a list item *)

Section Render.

Variable t : string -> jsstring.

(** The component of an element, on its first render. *)
Definition render_element (st : Store) (e : element) : result view :=
  match e with
  | PlanCardE m w i => v <- PlanCard t m w i ;; Return (PlanCardV v)
  | PodcastCardE m => v <- PodcastCard m false ;; Return (PodcastCardV v)
  | OutlineMessageE m =>
      x <- OutlineMessage m (OutlineMessage_mount, st) ;;
      Return (OutlineMessageV (snd x))
  | EditorTeamMessageE m =>
      v <- EditorTeamMessage m ;; Return (EditorTeamMessageV v)
  | EvaluatorMessageE m =>
      v <- EvaluatorMessage m ;; Return (EvaluatorMessageV v)
  | ResearchCardE researchId =>
      v <- ResearchCard t st researchId ;; Return (ResearchCardV v)
  | MessageBubbleE m markdown => Return (MessageBubbleV (role m) markdown)
  end.

(** [MessageListItem] and the card it holds. *)
Definition render_item (st : Store) (messageId : jsstring)
  (waitForFeedback : bool) (interruptMessage : option Message)
  : result (rendered view) :=
  match MessageListItem st messageId waitForFeedback interruptMessage with
  | RNode e => v <- render_element st e ;; Return (RNode v)
  | RNull => Return RNull
  | RUndefined => Return RUndefined
  end.

End Render.

(** ** Predicates of the statements *)

(** A run of whitespace. *)
Definition all_space (w : jsstring) : Prop :=
  Forall (fun c => is_space c = true) w.

(** The text does not begin with whitespace. *)
Definition no_leading_space (s : jsstring) : Prop :=
  match s with
  | [] => True
  | c :: _ => is_space c = false
  end.

(** What one leading pattern removes in front of [rest]: nothing, when
    [rest] does not begin with the marker [pat]; or else the marker and all
    the whitespace behind it. *)
Definition removed_leading (pat p rest : jsstring) : Prop :=
  (p = [] /\ strip_prefix pat rest = None)
  \/ (exists w, p = pat ++ w /\ all_space w /\ no_leading_space rest).

(** What the trailing pattern removes behind [body]: nothing, when [body]
    does not end in a fence; or else the fence at the end and all the
    whitespace in front of it. *)
Definition removed_trailing (body q : jsstring) : Prop :=
  (q = [] /\ strip_prefix (rev fence) (rev body) = None)
  \/ (exists w, q = w ++ fence /\ all_space w
                /\ no_leading_space (rev body)).

(** The agent names [MessageListItem] lists. *)
Definition listed_agents : list jsstring :=
  map js ["coordinator"; "planner"; "podcast"; "feedback_handler";
          "generate_questions"; "reporter"; "outline"; "editor_team";
          "evaluator"]%string.

(** What holds of the hook cells after every event: the dependency array is
    the one of the present state, the latch is set once main content has been
    seen, and the effect has forced the panel closed once exactly when the
    latch is set. *)
Definition ThoughtBlock_inv (s : ThoughtBlockState) : Prop :=
  collapses s = (if hasAutoCollapsed s then 1 else 0)
  /\ match tb_deps s with
     | None => hasAutoCollapsed s = false
     | Some (h, l) => l = hasAutoCollapsed s /\ (h = true -> l = true)
     end.

(** [v == null]: the value is [null] or [undefined]. *)
Definition is_nullish (v : value) : bool :=
  match v with
  | VUndefined | VNull => true
  | _ => false
  end.

(** The memo cell holds the decoding of the content it is keyed by. *)
Definition memo_ok (h : OutlineHooks) : Prop :=
  match memo h with
  | Some (c, (_, v)) => parseJSON parse (JString c) (VObj []) = Return v
  | None => True
  end.

(** The properties of an object made by the parser: the keys are pairwise
    distinct and no value is [undefined]. *)
Definition props_ok (props : list (jsstring * value)) : Prop :=
  NoDup (map fst props)
  /\ Forall (fun kv => is_undefined (snd kv) = false) props.

(** A value made by the parser is not [undefined], and an object is made of
    such properties. *)
Definition val_ok (v : value) : Prop :=
  is_undefined v = false
  /\ match v with
     | VObj props => props_ok props
     | _ => True
     end.

(** The same of the object a frame has built so far, and of the automaton. *)
Definition frame_ok (f : frame) : Prop :=
  match f with
  | FObj acc _ => props_ok acc
  | FArr _ _ => True
  end.

Definition pstate_ok (st : pstate) : Prop :=
  Forall frame_ok (stack st)
  /\ match done st with Some v => val_ok v | None => True end.

(** Whether a key is an array index, and which. *)
Definition is_index (k : jsstring) : bool :=
  match array_index k with Some _ => true | None => false end.

Definition index_value (k : jsstring) : N :=
  match array_index k with Some n => n | None => 0%N end.

(** An entry of [index_props] carries the index of its key. *)
Definition indexed_entry (x : N * (jsstring * value)) : Prop :=
  array_index (fst (snd x)) = Some (fst x).

(** The order [insert_index] keeps. *)
Definition le_index (a b : N * (jsstring * value)) : Prop :=
  (fst a <= fst b)%N.

(** The object has an own property of that name. *)
Definition has_field (props : list (jsstring * value)) (name : jsstring)
  : bool :=
  match lookup name props with Some _ => true | None => false end.

(** The badge of a step: the label for the type ["info_collecting"], any
    other type as it is, and the default label when the step has no type. *)
Definition badge_ok (step : value) (sv : EditorStepView) : Prop :=
  let type := get_prop_opt step (js "type") in
  (type = VStr (js "info_collecting") ->
     es_badge sv = VStr info_collecting_label)
  /\ (type <> VStr (js "info_collecting") -> is_nullish type = false ->
      es_badge sv = type)
  /\ (is_nullish type = true -> es_badge sv = VStr step_label).

(** ** Predicates of the further statements *)

(** The five opening markers of [parseJSON], in the order it tries them. *)
Definition opening_markers : list jsstring :=
  [js "```json"; js "```js"; js "```ts"; js "```plaintext"; js "```"].

(** What may follow a fenced body: nothing yet, when the body does not itself
    end in a fence, or the closing fence behind some whitespace. *)
Definition closing (body q : jsstring) : Prop :=
  (q = [] /\ strip_prefix (rev fence) (rev body) = None)
  \/ (exists w, all_space w /\ q = w ++ fence).

(** The agents that have a card of their own. *)
Definition card_agent (m : Message) : bool :=
  agent_is m "planner" || agent_is m "podcast" || agent_is m "outline"
  || agent_is m "editor_team" || agent_is m "evaluator".

(** When a stored message gets a list item. *)
Definition shows_item (m : Message) (startOfResearch : bool) : bool :=
  agent_is m "planner" || agent_is m "podcast"
  || (startOfResearch && negb (agent_is m "outline")
      && negb (agent_is m "editor_team") && negb (agent_is m "evaluator"))
  || (listed m startOfResearch && nonempty (content m)).

(** What [v && v.map(f)] needs of [v] when [f] reads a property of each
    entry: [v] is falsy, or an array without [null] or [undefined] entry. *)
Definition entries_ok (v : value) : bool :=
  negb (truthy v)
  || match v with
     | VArr l => forallb (fun x => negb (is_nullish x)) l
     | _ => false
     end.

(** The test of [EditorTeamMessage] on the decoded value: an object with a
    [title] or a [steps] field. *)
Definition structured (v : value) : bool :=
  match v with
  | VObj props => has_field props (js "title") || has_field props (js "steps")
  | _ => false
  end.

(** What the podcast card needs of the parsed content: no download name is
    built while the podcast is generated or when it carries an error;
    otherwise the title has to be absent or a string. *)
Definition podcast_ok (message : Message) (data : value) : bool :=
  isStreaming message
  || negb (is_undefined (get_prop_opt data (js "error")))
  || match get_prop_opt data (js "title") with
     | VUndefined | VNull | VStr _ => true
     | _ => false
     end.

(** What the research card needs of the store: the report of the session, if
    any, is a stored message, and the start message, if stored, does not
    decode to [null]. *)
Definition report_ok (st : Store) (researchId : jsstring) : bool :=
  match lookup researchId (researchReportIds st) with
  | Some rid =>
      match lookup rid (messages st) with Some _ => true | None => false end
  | None => true
  end.

Definition title_ok (st : Store) (researchId : jsstring) : bool :=
  match useResearchMessage st researchId with
  | Some msg =>
      match decode (JString (content msg)) (VObj [(js "title", VStr [])]) with
      | Return v => negb (is_nullish v)
      | Throw _ => false
      end
  | None => true
  end.

(** The identities held by the hook cells of the outline card are older than
    the next fresh one. *)
Definition refs_ok (h : OutlineHooks) : Prop :=
  match memo h with
  | Some (_, (r, _)) => r < next_ref h
  | None => True
  end
  /\ match effect_deps h with
     | Some (_, DRef r) => r < next_ref h
     | _ => True
     end.

(** [n] is the length of the [sections] array, free of [null] entries, that
    a completed message among [ms] decodes to. *)
Definition section_count_of (ms : list Message) (n : value) : Prop :=
  exists m outline l,
    In m ms
    /\ isStreaming m = false
    /\ decode (JString (content m)) (VObj []) = Return outline
    /\ get_prop outline (js "sections") = Return (VArr l)
    /\ Forall (fun x => is_nullish x = false) l
    /\ n = VNum (number_of_nat (List.length l)).

(** The effect of the outline card has nothing to write for [m]: the message
    streams, or its decoded [sections] are falsy. *)
Definition nothing_to_count (m : Message) : Prop :=
  isStreaming m = true
  \/ exists outline,
       decode (JString (content m)) (VObj []) = Return outline
       /\ truthy (get_prop_opt outline (js "sections")) = false.

(** A render of the reasoning panel that saw main content. *)
Definition saw_content (e : ThoughtBlockEvent) : bool :=
  match e with
  | Props h => h
  | Toggle _ => false
  end.

(* ================================================================== *)
(** * Part II: properties *)
(* ================================================================== *)

(** ** Strings *)

Lemma str_eqb_eq (a b : jsstring) : str_eqb a b = true <-> a = b.
Proof.
  revert b; induction a as [|x a IH]; intros [|y b]; simpl;
    try (split; [discriminate | discriminate]); try tauto.
  rewrite andb_true_iff, N.eqb_eq, IH.
  split; [intros [-> ->]; reflexivity | intros H; inversion H; auto].
Qed.

Lemma str_eqb_refl (a : jsstring) : str_eqb a a = true.
Proof. apply str_eqb_eq; reflexivity. Qed.

Lemma str_eqb_neq (a b : jsstring) : str_eqb a b = false <-> a <> b.
Proof.
  rewrite <- str_eqb_eq. destruct (str_eqb a b); split; congruence.
Qed.

Lemma str_eqb_sym (a b : jsstring) : str_eqb a b = str_eqb b a.
Proof.
  destruct (str_eqb a b) eqn:E.
  - apply str_eqb_eq in E; subst; symmetry; apply str_eqb_refl.
  - symmetry; apply str_eqb_neq; apply str_eqb_neq in E; congruence.
Qed.

Lemma strip_prefix_Some (p s r : jsstring) :
  strip_prefix p s = Some r -> s = p ++ r.
Proof.
  revert s; induction p as [|x p IH]; intros [|y s]; simpl; try discriminate.
  - intros H; inversion H; reflexivity.
  - intros H; inversion H; reflexivity.
  - destruct (N.eqb x y) eqn:E; [|discriminate].
    apply N.eqb_eq in E; subst; intros H; f_equal; auto.
Qed.

Lemma strip_prefix_app (p p' s : jsstring) :
  strip_prefix p s = None -> strip_prefix (p ++ p') s = None.
Proof.
  revert s; induction p as [|x p IH]; intros [|y s]; simpl; try discriminate;
    auto.
  destruct (N.eqb x y); auto.
Qed.

Lemma drop_while_split (p : N -> bool) (s : jsstring) :
  exists w, s = w ++ drop_while p s /\ Forall (fun c => p c = true) w.
Proof.
  induction s as [|c s [w [E F]]]; simpl.
  - exists []; split; auto.
  - destruct (p c) eqn:P.
    + exists (c :: w); split; [simpl; congruence | constructor; auto].
    + exists []; split; auto.
Qed.

Lemma replace_leading_Some (pat s r : jsstring) :
  strip_prefix pat s = Some r -> replace_leading pat s = drop_while is_space r.
Proof. unfold replace_leading; intros ->; reflexivity. Qed.

Lemma replace_leading_None (pat s : jsstring) :
  strip_prefix pat s = None -> replace_leading pat s = s.
Proof. unfold replace_leading; intros ->; reflexivity. Qed.

Lemma replace_leading_no_fence (pat tag s : jsstring) :
  strip_prefix fence s = None -> strip_prefix fence pat = Some tag ->
  replace_leading pat s = s.
Proof.
  intros H P; apply strip_prefix_Some in P; subst pat.
  apply replace_leading_None, strip_prefix_app, H.
Qed.

Lemma leading_once_single (x : jsstring) :
  strip_prefix fence (leading_once x) = None ->
  replace_leading (js "```")
    (replace_leading (js "```plaintext")
      (replace_leading (js "```ts")
        (replace_leading (js "```js")
          (replace_leading (js "```json") x)))) = leading_once x.
Proof.
  unfold leading_once.
  destruct (strip_prefix (js "```json") x) as [r|] eqn:E1.
  { intros H. rewrite (@replace_leading_Some _ _ _ E1).
    rewrite (@replace_leading_no_fence (js "```js") (js "js") _ H eq_refl).
    rewrite (@replace_leading_no_fence (js "```ts") (js "ts") _ H eq_refl).
    rewrite (@replace_leading_no_fence (js "```plaintext") (js "plaintext") _ H eq_refl).
    apply (@replace_leading_no_fence (js "```") [] _ H eq_refl). }
  rewrite (@replace_leading_None _ _ E1).
  destruct (strip_prefix (js "```js") x) as [r|] eqn:E2.
  { intros H. rewrite (@replace_leading_Some _ _ _ E2).
    rewrite (@replace_leading_no_fence (js "```ts") (js "ts") _ H eq_refl).
    rewrite (@replace_leading_no_fence (js "```plaintext") (js "plaintext") _ H eq_refl).
    apply (@replace_leading_no_fence (js "```") [] _ H eq_refl). }
  rewrite (@replace_leading_None _ _ E2).
  destruct (strip_prefix (js "```ts") x) as [r|] eqn:E3.
  { intros H. rewrite (@replace_leading_Some _ _ _ E3).
    rewrite (@replace_leading_no_fence (js "```plaintext") (js "plaintext") _ H eq_refl).
    apply (@replace_leading_no_fence (js "```") [] _ H eq_refl). }
  rewrite (@replace_leading_None _ _ E3).
  destruct (strip_prefix (js "```plaintext") x) as [r|] eqn:E4.
  { intros H. rewrite (@replace_leading_Some _ _ _ E4).
    apply (@replace_leading_no_fence (js "```") [] _ H eq_refl). }
  rewrite (@replace_leading_None _ _ E4).
  reflexivity.
Qed.

Lemma drop_while_spaces (w s : jsstring) :
  all_space w -> drop_while is_space (w ++ s) = drop_while is_space s.
Proof.
  induction 1 as [|c w H _ IH]; simpl; [reflexivity|].
  rewrite H; exact IH.
Qed.

Lemma drop_while_head (p : N -> bool) (s : jsstring) (c : N) (r : jsstring) :
  drop_while p s = c :: r -> p c = false.
Proof.
  induction s as [|x s IH]; simpl; [discriminate|].
  destruct (p x) eqn:E; [exact IH|].
  intros H; inversion H; subst; exact E.
Qed.

Lemma drop_while_nil (p : N -> bool) (s : jsstring) :
  drop_while p s = [] <-> Forall (fun c => p c = true) s.
Proof.
  induction s as [|x s IH]; simpl; [split; auto|].
  destruct (p x) eqn:E.
  - rewrite IH; split; [intros F; constructor; auto|].
    intros F; inversion F; auto.
  - split; [discriminate|]. intros F; inversion F; congruence.
Qed.

Lemma drop_while_keep (p : N -> bool) (c : N) (s : jsstring) :
  p c = false -> drop_while p (c :: s) = c :: s.
Proof. intros H; simpl; rewrite H; reflexivity. Qed.

Lemma drop_while_app (p : N -> bool) (s w : jsstring) :
  drop_while p s <> [] -> drop_while p (s ++ w) = drop_while p s ++ w.
Proof.
  induction s as [|x s IH]; simpl; [intros H; contradiction H; reflexivity|].
  destruct (p x); [exact IH | reflexivity].
Qed.

Lemma drop_while_app_all (p : N -> bool) (s w : jsstring) :
  drop_while p s = [] -> drop_while p (s ++ w) = drop_while p w.
Proof.
  induction s as [|x s IH]; simpl; [reflexivity|].
  destruct (p x); [exact IH | discriminate].
Qed.

Lemma strip_prefix_same (p s : jsstring) : strip_prefix p (p ++ s) = Some s.
Proof.
  induction p as [|x p IH]; simpl; [destruct s; reflexivity|].
  rewrite N.eqb_refl; exact IH.
Qed.

Lemma replace_leading_removed (pat s : jsstring) :
  exists p, s = p ++ replace_leading pat s
            /\ removed_leading pat p (replace_leading pat s).
Proof.
  unfold replace_leading, removed_leading.
  destruct (strip_prefix pat s) as [r|] eqn:E.
  - apply strip_prefix_Some in E.
    destruct (drop_while_split is_space r) as [w [Er F]].
    exists (pat ++ w); split.
    + rewrite <- app_assoc, <- Er; exact E.
    + right; exists w; repeat split; auto.
      destruct (drop_while is_space r) as [|c d] eqn:D; simpl; [exact I|].
      exact (drop_while_head _ _ _ _ D).
  - exists []; split; auto.
Qed.

Lemma removed_leading_replace (pat p rest : jsstring) :
  removed_leading pat p rest -> replace_leading pat (p ++ rest) = rest.
Proof.
  unfold replace_leading. intros [[-> H]|[w [-> [A N]]]].
  - simpl; rewrite H; reflexivity.
  - rewrite <- app_assoc, strip_prefix_same, (drop_while_spaces _ _ A).
    destruct rest as [|c r]; [reflexivity|].
    apply drop_while_keep; exact N.
Qed.

Lemma replace_trailing_removed (s : jsstring) :
  exists q, s = replace_trailing_fence s ++ q
            /\ removed_trailing (replace_trailing_fence s) q.
Proof.
  unfold replace_trailing_fence, removed_trailing.
  destruct (strip_prefix (rev fence) (rev s)) as [r|] eqn:E.
  - apply strip_prefix_Some in E.
    destruct (drop_while_split is_space r) as [w [Er F]].
    remember (drop_while is_space r) as d eqn:Ed.
    exists (rev w ++ fence); split.
    + rewrite <- (rev_involutive s), E, Er.
      rewrite !rev_app_distr, rev_involutive, app_assoc; reflexivity.
    + right; exists (rev w); repeat split; auto.
      * apply Forall_rev; exact F.
      * rewrite rev_involutive. subst d.
        destruct (drop_while is_space r) as [|c d] eqn:D; simpl; [exact I|].
        exact (drop_while_head _ _ _ _ D).
  - exists []; split; [rewrite app_nil_r; reflexivity | auto].
Qed.

Lemma removed_trailing_replace (body q : jsstring) :
  removed_trailing body q -> replace_trailing_fence (body ++ q) = body.
Proof.
  unfold replace_trailing_fence. intros [[-> H]|[w [-> [A N]]]].
  - rewrite app_nil_r, H; reflexivity.
  - rewrite !rev_app_distr, <- app_assoc, strip_prefix_same.
    rewrite drop_while_spaces by (apply Forall_rev; exact A).
    destruct (rev body) as [|c r] eqn:R.
    + simpl. rewrite <- (rev_involutive body), R; reflexivity.
    + rewrite (drop_while_keep _ _ _ N), <- R. apply rev_involutive.
Qed.

(** ** The decoder *)

Lemma strict_end_tolerant (m : lex_mode) (tl : list token) :
  lex_end_strict m = Some tl -> lex_end_tolerant m = tl.
Proof.
  destruct m as [| | st a |]; simpl; try discriminate.
  - intros H; inversion H; reflexivity.
  - destruct (num_accepting st); [|discriminate].
    intros H; inversion H; reflexivity.
Qed.

(** On a complete document the best-effort parser agrees with [JSON.parse]. *)
Lemma parse_complete (text : jsstring) (v : value) :
  JSON_parse text = Return v -> parse text = Return v.
Proof.
  unfold JSON_parse, parse.
  destruct (lex_run LDefault text) as [[m ts]|]; [|discriminate].
  destruct (lex_end_strict m) as [tl|] eqn:E; [|discriminate].
  rewrite (strict_end_tolerant _ _ E).
  destruct (parse_run pstart (ts ++ tl)) as [[[|f r] [d|]]|]; try discriminate.
  auto.
Qed.

(** *** Prefixes of a document *)

Lemma lex_run_app (m : lex_mode) (p r : jsstring) (m2 : lex_mode)
  (ts : list token) :
  lex_run m (p ++ r) = Some (m2, ts) ->
  exists m1 ts1 ts2,
    lex_run m p = Some (m1, ts1)
    /\ lex_run m1 r = Some (m2, ts2)
    /\ ts = ts1 ++ ts2.
Proof.
  revert m ts; induction p as [|c p IH]; simpl; intros m ts H.
  - exists m, [], ts; auto.
  - destruct (lex_step m c) as [[m' t0]|]; [|discriminate].
    destruct (lex_run m' (p ++ r)) as [[m'' ts']|] eqn:E; [|discriminate].
    inversion H; subst; clear H.
    destruct (IH _ _ E) as [m1 [ts1 [ts2 [E1 [E2 ->]]]]].
    exists m1, (t0 ++ ts1), ts2. rewrite E1, app_assoc; auto.
Qed.

Lemma parse_run_app (st : pstate) (a b : list token) :
  parse_run st (a ++ b) =
  match parse_run st a with
  | Some st1 => parse_run st1 b
  | None => None
  end.
Proof.
  revert st; induction a as [|t a IH]; simpl; intros st; [reflexivity|].
  destruct (parse_step st t); [apply IH | reflexivity].
Qed.

Lemma num_token_is_num (a : num_acc) : exists x, num_token a = TNum x.
Proof. unfold num_token. eexists; reflexivity. Qed.

(** An open string ends, in a complete document, in a string token. *)
Lemma lex_string_first (r : jsstring) (acc : jsstring) (e : esc_state)
  (m2 : lex_mode) (ts2 tl : list token) :
  lex_run (LString acc e) r = Some (m2, ts2) ->
  lex_end_strict m2 = Some tl ->
  exists s rest, ts2 ++ tl = TStr s :: rest.
Proof.
  revert acc e ts2; induction r as [|c r IH]; cbn [lex_run]; intros acc e ts2.
  - intros H L; inversion H; subst; simpl in L; discriminate.
  - destruct (lex_step (LString acc e) c) as [[m' t0]|] eqn:S; [|discriminate].
    destruct (lex_run m' r) as [[m'' ts']|] eqn:E; [|discriminate].
    intros H L; inversion H; subst; clear H.
    assert (K : (exists acc' e', m' = LString acc' e' /\ t0 = [])
                \/ (exists s, t0 = [TStr s])).
    { simpl in S. destruct e as [| |ds].
      - destruct (c =? 34)%N; [inversion S; right; eexists; reflexivity|].
        destruct (c =? 92)%N;
          [inversion S; left; eexists; eexists; split; reflexivity|].
        destruct (c <? 32)%N; [discriminate|].
        inversion S; left; eexists; eexists; split; reflexivity.
      - destruct (c =? 117)%N;
          [inversion S; left; eexists; eexists; split; reflexivity|].
        destruct (escape_char c); [|discriminate].
        inversion S; left; eexists; eexists; split; reflexivity.
      - destruct (hex_val c); [|discriminate].
        destruct (List.length ds =? 3)%nat; inversion S; left; eexists;
          eexists; split; reflexivity. }
    destruct K as [[acc' [e' [-> ->]]]|[s ->]].
    + apply (IH _ _ _ E L).
    + simpl; eexists; eexists; reflexivity.
Qed.

(** An open number ends, in a complete document, in a number token. *)
Lemma lex_number_first (r : jsstring) (st : num_state) (a : num_acc)
  (m2 : lex_mode) (ts2 tl : list token) :
  lex_run (LNumber st a) r = Some (m2, ts2) ->
  lex_end_strict m2 = Some tl ->
  exists x rest, ts2 ++ tl = TNum x :: rest.
Proof.
  revert st a ts2; induction r as [|c r IH]; cbn [lex_run]; intros st a ts2.
  - intros H L; inversion H; subst; simpl in L.
    destruct (num_accepting st); [|discriminate].
    inversion L; subst. destruct (num_token_is_num a) as [x ->].
    simpl; eexists; eexists; reflexivity.
  - cbn [lex_step]. destruct (num_step st a c) as [[st' a']|].
    + destruct (lex_run (LNumber st' a') r) as [[m'' ts']|] eqn:E;
        [|discriminate].
      intros H L; inversion H; subst; clear H. simpl. apply (IH _ _ _ E L).
    + destruct (num_accepting st); [|discriminate].
      destruct (lex_default c) as [[m' t0]|]; [|discriminate].
      destruct (lex_run m' r) as [[m'' ts']|]; [|discriminate].
      intros H L; inversion H; subst; clear H.
      destruct (num_token_is_num a) as [x ->].
      simpl; eexists; eexists; reflexivity.
Qed.

(** Whether the automaton takes a string or a number does not depend on
    which one it is. *)
Lemma parse_step_any_string (st st1 : pstate) (s s' : jsstring) :
  parse_step st (TStr s) = Some st1 ->
  exists st2, parse_step st (TStr s') = Some st2.
Proof.
  destruct st as [[|[acc e|acc e] r] [d|]]; simpl; try discriminate;
    try destruct e; try discriminate; intros _; eexists; reflexivity.
Qed.

Lemma parse_step_any_number (st st1 : pstate) (x x' : number) :
  parse_step st (TNum x) = Some st1 ->
  exists st2, parse_step st (TNum x') = Some st2.
Proof.
  destruct st as [[|[acc ex|acc ex] r] [d|]]; simpl; try discriminate;
    try destruct ex; try discriminate; intros _; eexists; reflexivity.
Qed.

(** After a token the automaton holds an open frame or the document. *)
Lemma deliver_progress (v : value) (st st' : pstate) :
  deliver v st = Some st' -> stack st' <> [] \/ done st' <> None.
Proof.
  destruct st as [[|[acc e|acc e] r] d]; unfold deliver; simpl.
  - destruct d; [discriminate|]. intros H; inversion H; simpl.
    right; discriminate.
  - destruct e; try discriminate; intros H; inversion H; simpl; left;
      discriminate.
  - destruct e; try discriminate; intros H; inversion H; simpl; left;
      discriminate.
Qed.

Lemma parse_step_progress (st st' : pstate) (t : token) :
  parse_step st t = Some st' -> stack st' <> [] \/ done st' <> None.
Proof.
  destruct t; simpl; try apply deliver_progress.
  - destruct (value_allowed st); [|discriminate].
    intros H; inversion H; simpl; left; discriminate.
  - destruct (stack st) as [|[acc e|acc e] r]; try discriminate.
    destruct e; try discriminate; apply deliver_progress.
  - destruct (value_allowed st); [|discriminate].
    intros H; inversion H; simpl; left; discriminate.
  - destruct (stack st) as [|[acc e|acc e] r]; try discriminate.
    destruct e; try discriminate; apply deliver_progress.
  - destruct (stack st) as [|[acc e|acc e] r]; try discriminate.
    destruct e; try discriminate.
    intros H; inversion H; simpl; left; discriminate.
  - destruct (stack st) as [|[acc e|acc e] r]; try discriminate;
      destruct e; try discriminate;
      intros H; inversion H; simpl; left; discriminate.
  - destruct (stack st) as [|[acc e|acc e] r]; try apply deliver_progress.
    destruct e; try apply deliver_progress;
      intros H; inversion H; simpl; left; discriminate.
Qed.

Lemma parse_run_progress (ts : list token) (st st' : pstate) :
  ts <> [] -> parse_run st ts = Some st' ->
  stack st' <> [] \/ done st' <> None.
Proof.
  revert st; induction ts as [|t ts IH]; intros st N; [contradiction|].
  simpl. destruct (parse_step st t) as [st1|] eqn:E; [|discriminate].
  destruct ts as [|t' ts'].
  - simpl. intros H; inversion H; subst. eapply parse_step_progress; eauto.
  - apply IH; discriminate.
Qed.

Lemma close_all_some (stk : list frame) (carry : option value) :
  stk <> [] \/ carry <> None -> exists v, close_all stk carry = Some v.
Proof.
  revert carry; induction stk as [|[acc e|acc e] r IH]; simpl; intros carry H.
  - destruct carry as [v|]; [exists v; reflexivity|].
    destruct H as [H|H]; contradiction H; reflexivity.
  - apply IH; right; discriminate.
  - apply IH; right; discriminate.
Qed.

Lemma parse_of_tokens (text : jsstring) (m : lex_mode) (ts : list token)
  (st : pstate) :
  lex_run LDefault text = Some (m, ts) ->
  parse_run pstart (ts ++ lex_end_tolerant m) = Some st ->
  ts ++ lex_end_tolerant m <> [] ->
  exists v, parse text = Return v.
Proof.
  intros L P N. unfold parse. rewrite L, P.
  destruct (parse_run_progress _ _ _ N P) as [H|H];
    destruct st as [[|f r] [d|]]; simpl in *;
    try (contradiction H; reflexivity);
    try (eexists; reflexivity);
    destruct (close_all_some (f :: r) None) as [v E];
    try (left; discriminate);
    simpl in E; rewrite E; eexists; reflexivity.
Qed.

(** Every prefix of a document that [JSON.parse] accepts decodes, unless
    nothing of a value has been read yet. *)
Lemma parse_accepts_prefixes (p r : jsstring) (v : value) :
  JSON_parse (p ++ r) = Return v ->
  (exists v', parse p = Return v')
  \/ (exists m, lex_run LDefault p = Some (m, [])
                /\ lex_end_tolerant m = []).
Proof.
  unfold JSON_parse.
  destruct (lex_run LDefault (p ++ r)) as [[m2 ts]|] eqn:L; [|discriminate].
  destruct (lex_end_strict m2) as [tl|] eqn:E; [|discriminate].
  destruct (parse_run pstart (ts ++ tl)) as [st|] eqn:P; [|discriminate].
  intros _.
  destruct (lex_run_app _ _ _ _ _ L) as [m1 [ts1 [ts2 [L1 [L2 ->]]]]].
  rewrite <- app_assoc, parse_run_app in P.
  destruct (parse_run pstart ts1) as [st1|] eqn:P1; [|discriminate].
  assert (Plain : lex_end_tolerant m1 = [] ->
            (exists v', parse p = Return v')
            \/ (exists m, lex_run LDefault p = Some (m, [])
                          /\ lex_end_tolerant m = [])).
  { intros Z. destruct ts1 as [|t ts1].
    - right; exists m1; auto.
    - left. apply (parse_of_tokens p m1 (t :: ts1) st1 L1).
      + rewrite Z, app_nil_r; exact P1.
      + discriminate. }
  assert (One : forall t st2, lex_end_tolerant m1 = [t] ->
            parse_step st1 t = Some st2 ->
            exists v', parse p = Return v').
  { intros t st2 Z S.
    apply (parse_of_tokens p m1 ts1 st2 L1).
    - rewrite Z, parse_run_app, P1; cbn [parse_run]; rewrite S; reflexivity.
    - rewrite Z; destruct ts1; discriminate. }
  destruct m1 as [|acc e|ns a|t rest].
  - apply Plain; reflexivity.
  - left.
    destruct (lex_string_first _ _ _ _ _ _ L2 E) as [s [rest T]].
    rewrite T in P; cbn [parse_run] in P.
    destruct (parse_step st1 (TStr s)) as [st2|] eqn:S; [|discriminate P].
    destruct (parse_step_any_string st1 st2 s (rev acc) S) as [st3 S3].
    apply (One _ st3 eq_refl S3).
  - simpl in Plain, One. destruct (num_accepting ns).
    + left.
      destruct (lex_number_first _ _ _ _ _ _ L2 E) as [x [rest T]].
      rewrite T in P; cbn [parse_run] in P.
      destruct (parse_step st1 (TNum x)) as [st2|] eqn:S; [|discriminate P].
      destruct (num_token_is_num a) as [x' T'].
      destruct (parse_step_any_number st1 st2 x x' S) as [st3 S3].
      apply (One (num_token a) st3 eq_refl). rewrite T'; exact S3.
    + apply Plain; reflexivity.
  - apply Plain; reflexivity.
Qed.

Lemma parseJSON_returns (p : jsstring -> result value) (json : json_arg)
  (fallback : value) :
  exists v, parseJSON p json fallback = Return v.
Proof.
  unfold parseJSON.
  destruct (falsy_arg json); [eexists; reflexivity|].
  simpl. destruct (p (strip_fences (arg_string json))); simpl; eexists;
    reflexivity.
Qed.

Lemma parseJSON_string (p : jsstring -> result value) (c : N) (s : jsstring)
  (fallback : value) :
  parseJSON p (JString (c :: s)) fallback =
  Return (match p (strip_fences (c :: s)) with
          | Return v => v
          | Throw _ => fallback
          end).
Proof.
  unfold parseJSON; simpl.
  destruct (p (strip_fences (c :: s))); reflexivity.
Qed.


(** C2.  The truncated plan
    [{"title":"Plan","steps":[{"title":"Step 1"] decodes without throwing to
    an object whose [title] is ["Plan"] and whose [steps] is an array with one
    first element, the object read so far; the result is not the fallback,
    although [JSON.parse] rejects the same text. *)
Theorem decode_truncated_plan :
  let text := jq "{'title':'Plan','steps':[{'title':'Step 1'" in
  exists v first,
    decode (JString text) (VObj []) = Return v
    /\ get_prop v (js "title") = Return (VStr (js "Plan"))
    /\ get_prop v (js "steps") = Return (VArr [first])
    /\ first = VObj [(js "title", VStr (js "Step 1"))]
    /\ v <> VObj []
    /\ JSON_parse text = Throw SyntaxError.
Proof.
  eexists; eexists.
  split; [vm_compute; reflexivity|].
  repeat split; try (vm_compute; reflexivity).
  discriminate.
Qed.

(** C3 (amended).  [parseJSON] trims the text and applies the five leading
    patterns once each, in the order [```json], [```js], [```ts],
    [```plaintext], bare fence, and then the trailing pattern once.  Each
    leading pattern removes its marker and all the whitespace behind it
    exactly when the text, as the patterns before it left it, begins with
    that marker, and nothing otherwise; the trailing pattern removes the
    fence at the end and all the whitespace in front of it exactly when the
    text then ends in a fence.  This fixes what reaches the parser: (1) the
    trimmed text splits in this way, and (2) whatever splits in this way is
    what [parseJSON] keeps.  (3) When what is left behind the first marker
    removed does not begin with a fence, exactly one leading marker goes.
    (4) A marker of a later pattern behind the first one goes as well,
    (5) a second bare fence stays, the bare-fence pattern being the last.
    (6) The fenced document of the spec decodes to [{a:1}]. *)
Theorem strip_fences_each_pattern_once :
  (forall s, exists p1 p2 p3 p4 p5 q,
      trim s = p1 ++ p2 ++ p3 ++ p4 ++ p5 ++ strip_fences s ++ q
      /\ removed_leading (js "```json") p1
           (p2 ++ p3 ++ p4 ++ p5 ++ strip_fences s ++ q)
      /\ removed_leading (js "```js") p2 (p3 ++ p4 ++ p5 ++ strip_fences s ++ q)
      /\ removed_leading (js "```ts") p3 (p4 ++ p5 ++ strip_fences s ++ q)
      /\ removed_leading (js "```plaintext") p4 (p5 ++ strip_fences s ++ q)
      /\ removed_leading (js "```") p5 (strip_fences s ++ q)
      /\ removed_trailing (strip_fences s) q)
  /\ (forall s p1 p2 p3 p4 p5 body q,
        trim s = p1 ++ p2 ++ p3 ++ p4 ++ p5 ++ body ++ q ->
        removed_leading (js "```json") p1 (p2 ++ p3 ++ p4 ++ p5 ++ body ++ q) ->
        removed_leading (js "```js") p2 (p3 ++ p4 ++ p5 ++ body ++ q) ->
        removed_leading (js "```ts") p3 (p4 ++ p5 ++ body ++ q) ->
        removed_leading (js "```plaintext") p4 (p5 ++ body ++ q) ->
        removed_leading (js "```") p5 (body ++ q) ->
        removed_trailing body q ->
        strip_fences s = body)
  /\ (forall s, strip_prefix fence (leading_once (trim s)) = None ->
        strip_fences s = strip_one_fence s)
  /\ strip_fences (js "```json" ++ nl ++ js "```" ++ nl ++ jq "{'a':1}")
     = jq "{'a':1}"
  /\ strip_fences (js "``` ```x") = js "```x"
  /\ decode (JString (js "```json" ++ nl ++ jq "{'a':1}" ++ nl ++ js "```"))
            (VObj [])
     = Return (VObj [(js "a", VNum (number_of_nat 1))]).
Proof.
  split; [|split; [|split; [|split; [|split]]]].
  - intros s. unfold strip_fences.
    destruct (replace_leading_removed (js "```json") (trim s)) as [p1 [E1 M1]].
    remember (replace_leading (js "```json") (trim s)) as x1.
    destruct (replace_leading_removed (js "```js") x1) as [p2 [E2 M2]].
    remember (replace_leading (js "```js") x1) as x2.
    destruct (replace_leading_removed (js "```ts") x2) as [p3 [E3 M3]].
    remember (replace_leading (js "```ts") x2) as x3.
    destruct (replace_leading_removed (js "```plaintext") x3) as [p4 [E4 M4]].
    remember (replace_leading (js "```plaintext") x3) as x4.
    destruct (replace_leading_removed (js "```") x4) as [p5 [E5 M5]].
    remember (replace_leading (js "```") x4) as x5.
    destruct (replace_trailing_removed x5) as [q [E6 M6]].
    exists p1, p2, p3, p4, p5, q.
    rewrite <- E6, <- E5, <- E4, <- E3, <- E2. repeat split; assumption.
  - intros s p1 p2 p3 p4 p5 body q E M1 M2 M3 M4 M5 M6.
    unfold strip_fences. rewrite E.
    rewrite (removed_leading_replace _ _ _ M1).
    rewrite (removed_leading_replace _ _ _ M2).
    rewrite (removed_leading_replace _ _ _ M3).
    rewrite (removed_leading_replace _ _ _ M4).
    rewrite (removed_leading_replace _ _ _ M5).
    exact (removed_trailing_replace _ _ M6).
  - intros s H. unfold strip_fences, strip_one_fence.
    rewrite (leading_once_single _ H); reflexivity.
  - vm_compute; reflexivity.
  - vm_compute; reflexivity.
  - vm_compute; reflexivity.
Qed.

Lemma strip_fences_each_pattern_once_witness :
  let s := js "  ```json" ++ nl ++ jq "{'a':1}" ++ nl ++ js "```" ++ nl in
  strip_fences s = jq "{'a':1}" /\ strip_fences s = strip_one_fence s.
Proof.
  split.
  - apply (proj1 (proj2 strip_fences_each_pattern_once) _
             (js "```json" ++ nl) [] [] [] [] (jq "{'a':1}")
             (nl ++ js "```")).
    + vm_compute; reflexivity.
    + right. exists nl. split; [reflexivity|].
      split; [repeat constructor | reflexivity].
    + left. split; reflexivity.
    + left. split; reflexivity.
    + left. split; reflexivity.
    + left. split; reflexivity.
    + right. exists nl. split; [reflexivity|].
      split; [repeat constructor | reflexivity].
  - apply (proj1 (proj2 (proj2 strip_fences_each_pattern_once))).
    vm_compute; reflexivity.
Defined.

(** C3 as stated fails: behind a [```json] marker a second, bare fence is
    removed as well, so two leading markers go and the document decodes,
    where removing one marker only would leave the inner fence in place. *)
Lemma strip_fences_removes_two_markers :
  let s := js "```json" ++ nl ++ js "```" ++ nl ++ jq "{'a':1}" in
  strip_fences s = jq "{'a':1}"
  /\ strip_one_fence s = js "```" ++ nl ++ jq "{'a':1}"
  /\ strip_fences s <> strip_one_fence s
  /\ decode (JString s) (VObj [])
     = Return (VObj [(js "a", VNum (number_of_nat 1))])
  /\ parse (strip_one_fence s) = Throw SyntaxError.
Proof.
  repeat split; try (vm_compute; reflexivity).
  vm_compute; discriminate.
Qed.

(** C6.  [parseJSON] never throws, whatever the parser does, and returns
    the caller's fallback exactly in the failure cases: for [null],
    [undefined] and the empty string, and whenever the parser throws; for
    every other input it returns the value the parser returns.  With the
    best-effort parser, ["not json at all"] is an input on which the parser
    throws, and [{x:1}] comes back, while a document comes back decoded. *)
Theorem parseJSON_fallback :
  (forall (p : jsstring -> result value) (fallback : value),
      parseJSON p JNull fallback = Return fallback
      /\ parseJSON p JUndefined fallback = Return fallback
      /\ parseJSON p (JString []) fallback = Return fallback
      /\ (forall s e, p (strip_fences s) = Throw e ->
            parseJSON p (JString s) fallback = Return fallback)
      /\ (forall s v, s <> [] -> p (strip_fences s) = Return v ->
            parseJSON p (JString s) fallback = Return v)
      /\ (forall json, exists v, parseJSON p json fallback = Return v))
  /\ parse (strip_fences (js "not json at all")) = Throw SyntaxError
  /\ decode (JString (js "not json at all"))
            (VObj [(js "x", VNum (number_of_nat 1))])
     = Return (VObj [(js "x", VNum (number_of_nat 1))])
  /\ decode (JString (jq "{'a':2}")) (VObj [(js "x", VNum (number_of_nat 1))])
     = Return (VObj [(js "a", VNum (number_of_nat 2))]).
Proof.
  split; [|split; [|split]; vm_compute; reflexivity].
  intros p fallback. repeat split.
  - intros [|c s] e H; [reflexivity|].
    rewrite parseJSON_string, H; reflexivity.
  - intros [|c s] v N H; [contradiction N; reflexivity|].
    rewrite parseJSON_string, H; reflexivity.
  - intros json; apply parseJSON_returns.
Qed.

Lemma parseJSON_fallback_witness :
  parseJSON parse (JString (js "not json at all")) VNull = Return VNull
  /\ parseJSON parse (JString (jq "[true]")) VNull
     = Return (VArr [VBool true]).
Proof.
  split.
  - apply (proj1 (proj2 (proj2 (proj2
             (proj1 parseJSON_fallback parse VNull)))) _ SyntaxError).
    vm_compute; reflexivity.
  - apply (proj1 (proj2 (proj2 (proj2 (proj2
             (proj1 parseJSON_fallback parse VNull)))))).
    + discriminate.
    + vm_compute; reflexivity.
Defined.

(** ** The list item *)

Lemma existsb_str_eqb_false (x : jsstring) (l : list jsstring) :
  ~ In x l -> existsb (str_eqb x) l = false.
Proof.
  induction l as [|y l IH]; simpl; intros H; [reflexivity|].
  apply orb_false_iff; split.
  - apply str_eqb_neq; intros ->; apply H; left; reflexivity.
  - apply IH; intros I; apply H; right; exact I.
Qed.

Lemma agent_is_false (m : Message) (name : string) :
  (forall a, agent m = Some a -> a <> js name) -> agent_is m name = false.
Proof.
  unfold agent_is; intros H.
  destruct (agent m) as [a|]; [|reflexivity].
  apply str_eqb_neq; apply H; reflexivity.
Qed.

(** C10.  An assistant message whose agent is none of the listed ones and
    whose id does not start a research session renders nothing:
    [MessageListItem] returns [null], whatever the content. *)
Theorem unlisted_agent_renders_null (st : Store) (messageId : jsstring)
  (waitForFeedback : bool) (interruptMessage : option Message) (m : Message) :
  useMessage st messageId = Some m ->
  role m = assistant ->
  (forall a, agent m = Some a -> ~ In a listed_agents) ->
  ~ In messageId (researchIds st) ->
  MessageListItem st messageId waitForFeedback interruptMessage = RNull.
Proof.
  intros Hm Hr Ha Hs.
  unfold MessageListItem; rewrite Hm.
  rewrite (existsb_str_eqb_false _ _ Hs).
  assert (L : listed m false = false).
  { unfold listed, role_is_user; rewrite Hr; simpl.
    rewrite !agent_is_false; try reflexivity;
      intros a E Hin; apply (Ha a E); subst a; unfold listed_agents; simpl;
      tauto. }
  rewrite L; reflexivity.
Qed.

Lemma unlisted_agent_renders_null_witness :
  let m := mkMessage (js "m7") assistant (Some (js "researcher"))
             (js "a long answer with a lot of content") None false None in
  MessageListItem (mkStore [js "m7"] [(js "m7", m)] [js "m1"] [] None
                     VUndefined [])
                  (js "m7") false None = RNull.
Proof.
  intros m.
  apply (@unlisted_agent_renders_null _ (js "m7") false None m).
  - reflexivity.
  - reflexivity.
  - intros a E; inversion E; subst a; vm_compute.
    intros H; repeat (destruct H as [H|H]; [discriminate H|]); exact H.
  - vm_compute. intros [H|H]; [discriminate H | exact H].
Defined.

(** ** The research sessions *)

Lemma handleOpen_own (st : Store) (a : jsstring) :
  is_open st a -> handleOpen a st = closeResearch st.
Proof.
  unfold is_open, handleOpen; intros ->; rewrite str_eqb_refl; reflexivity.
Qed.

Lemma handleOpen_other (st : Store) (a : jsstring) :
  ~ is_open st a -> handleOpen a st = openResearch a st.
Proof.
  unfold is_open, handleOpen; intros H.
  destruct (openResearchId st) as [o|]; [|reflexivity].
  destruct (str_eqb o a) eqn:E; [|reflexivity].
  apply str_eqb_eq in E; subst; contradiction H; reflexivity.
Qed.

(** C7.  The store names at most one open session.  The toggle of a research
    card closes its session when that is the open one and opens it
    otherwise; opening [b] while [a] is open leaves [b] open and [a]
    closed. *)
Theorem single_open_research :
  (forall st a b, is_open st a -> is_open st b -> a = b)
  /\ (forall st a b, is_open st a -> a <> b ->
        handleOpen b st = openResearch b st
        /\ is_open (handleOpen b st) b
        /\ ~ is_open (handleOpen b st) a)
  /\ (forall st a, is_open st a ->
        handleOpen a st = closeResearch st
        /\ forall x, ~ is_open (handleOpen a st) x)
  /\ (forall st a, ~ is_open st a ->
        handleOpen a st = openResearch a st
        /\ is_open (handleOpen a st) a).
Proof.
  repeat split.
  - unfold is_open in *; congruence.
  - apply handleOpen_other; unfold is_open in *; congruence.
  - rewrite handleOpen_other; [reflexivity | unfold is_open in *; congruence].
  - rewrite handleOpen_other; unfold is_open in *; simpl; congruence.
  - apply handleOpen_own; assumption.
  - intros x. rewrite handleOpen_own by assumption.
    unfold is_open; simpl; discriminate.
  - apply handleOpen_other; assumption.
  - rewrite handleOpen_other by assumption. reflexivity.
Qed.

Lemma single_open_research_witness :
  let st := mkStore [] [] [js "A"; js "B"] [] (Some (js "A")) VUndefined [] in
  is_open st (js "A")
  /\ is_open (handleOpen (js "B") st) (js "B")
  /\ ~ is_open (handleOpen (js "B") st) (js "A").
Proof.
  intros st.
  assert (O : is_open st (js "A")) by reflexivity.
  assert (N : js "A" <> js "B") by (vm_compute; discriminate).
  split; [exact O|].
  exact (proj2 (proj1 (proj2 single_open_research) st (js "A") (js "B") O N)).
Defined.

(** ** The podcast card *)

Lemma podcast_item (st : Store) (messageId : jsstring) (w : bool)
  (im : option Message) (m : Message) :
  useMessage st messageId = Some m ->
  agent m = Some (js "podcast") ->
  MessageListItem st messageId w im = RNode (PodcastCardE m).
Proof.
  intros Hm Ha. unfold MessageListItem; rewrite Hm.
  assert (P : agent_is m "podcast" = true)
    by (unfold agent_is; rewrite Ha; reflexivity).
  assert (Q : agent_is m "planner" = false)
    by (unfold agent_is; rewrite Ha; reflexivity).
  unfold listed; rewrite P, Q.
  rewrite !orb_true_r; reflexivity.
Qed.

(** A podcast message is always handed to [PodcastCard], and the card throws
    whatever [JSON.parse] throws on the content. *)
Lemma podcast_render_throws (t : string -> jsstring) (st : Store)
  (messageId : jsstring) (w : bool) (im : option Message) (m : Message)
  (e : error) :
  useMessage st messageId = Some m ->
  agent m = Some (js "podcast") ->
  JSON_parse (content m) = Throw e ->
  render_item t st messageId w im = Throw e.
Proof.
  intros Hm Ha Hp. unfold render_item.
  rewrite (podcast_item _ _ w im _ Hm Ha); simpl.
  unfold PodcastCard; rewrite Hp; reflexivity.
Qed.

(** C1 fails on the code.  A podcast message whose content is still empty, or
    a prefix of its JSON, is rendered by [PodcastCard], which calls
    [JSON.parse] outside any [try]: the render throws.  The same content under
    the [outline] agent, decoded with [parseJSON], renders. *)
Theorem podcast_card_throws (t : string -> jsstring) :
  let podcast c := mkMessage (js "m1") assistant (Some (js "podcast")) c None
                     true None in
  let outline c := mkMessage (js "m1") assistant (Some (js "outline")) c None
                     true None in
  let store m := mkStore [js "m1"] [(js "m1", m)] [] [] None VUndefined [] in
  let partial := jq "{'title':'Episode" in
  MessageListItem (store (podcast [])) (js "m1") false None
    = RNode (PodcastCardE (podcast []))
  /\ render_item t (store (podcast [])) (js "m1") false None
     = Throw SyntaxError
  /\ render_item t (store (podcast partial)) (js "m1") false None
     = Throw SyntaxError
  /\ exists v, render_item t (store (outline partial)) (js "m1") false None
               = Return (RNode v).
Proof.
  repeat split; try (vm_compute; reflexivity).
  eexists; vm_compute; reflexivity.
Qed.

(** ** The reasoning panel *)

Ltac tb_cases s :=
  destruct s as [op l [[dh dl]|] n]; unfold ThoughtBlock_inv in *; simpl in *.

Lemma ThoughtBlock_inv_mount : ThoughtBlock_inv ThoughtBlock_mount.
Proof. split; reflexivity. Qed.

Lemma ThoughtBlock_render_inv (h : bool) (s : ThoughtBlockState) :
  ThoughtBlock_inv s -> ThoughtBlock_inv (ThoughtBlock_render h s).
Proof.
  tb_cases s; intros [C D]; subst n;
    destruct h, l; try destruct dh; try destruct dl;
    simpl in *; intuition congruence.
Qed.

Lemma ThoughtBlock_toggle_inv (o : bool) (s : ThoughtBlockState) :
  ThoughtBlock_inv s -> ThoughtBlock_inv (ThoughtBlock_toggle o s).
Proof.
  tb_cases s; intros [C D]; subst n;
    destruct l; try destruct dh; try destruct dl;
    simpl in *; intuition congruence.
Qed.

Lemma ThoughtBlock_step_inv (s : ThoughtBlockState) (e : ThoughtBlockEvent) :
  ThoughtBlock_inv s -> ThoughtBlock_inv (ThoughtBlock_step s e).
Proof.
  destruct e; simpl;
    [apply ThoughtBlock_render_inv | apply ThoughtBlock_toggle_inv].
Qed.

Lemma ThoughtBlock_run_inv (es : list ThoughtBlockEvent)
  (s : ThoughtBlockState) :
  ThoughtBlock_inv s -> ThoughtBlock_inv (ThoughtBlock_run es s).
Proof.
  revert s; induction es as [|e es IH]; intros s H; simpl; [exact H|].
  apply IH, ThoughtBlock_step_inv, H.
Qed.

(** The second pass of a render settles: one more commit changes nothing. *)
Lemma ThoughtBlock_render_settled (h : bool) (s : ThoughtBlockState) :
  ThoughtBlock_commit h (ThoughtBlock_render h s) = ThoughtBlock_render h s.
Proof.
  destruct s as [o l [[dh dl]|] n]; destruct h, l; try destruct dh;
    try destruct dl; reflexivity.
Qed.

Lemma ThoughtBlock_first_content (s : ThoughtBlockState) :
  ThoughtBlock_inv s -> hasAutoCollapsed s = false ->
  isOpen (ThoughtBlock_render true s) = false
  /\ hasAutoCollapsed (ThoughtBlock_render true s) = true
  /\ collapses (ThoughtBlock_render true s) = 1.
Proof.
  tb_cases s; intros [C D] L; subst n l;
    try destruct dh; try destruct dl; simpl in *;
    intuition congruence.
Qed.

Lemma ThoughtBlock_latched_render (h : bool) (s : ThoughtBlockState) :
  ThoughtBlock_inv s -> hasAutoCollapsed s = true ->
  isOpen (ThoughtBlock_render h s) = isOpen s
  /\ hasAutoCollapsed (ThoughtBlock_render h s) = true
  /\ collapses (ThoughtBlock_render h s) = collapses s.
Proof.
  tb_cases s; intros [C D] L; subst n l;
    destruct h; try destruct dh; try destruct dl; simpl in *;
    intuition congruence.
Qed.

Lemma ThoughtBlock_latched_props (hs : list bool) (s : ThoughtBlockState) :
  ThoughtBlock_inv s -> hasAutoCollapsed s = true ->
  isOpen (ThoughtBlock_run (map Props hs) s) = isOpen s
  /\ hasAutoCollapsed (ThoughtBlock_run (map Props hs) s) = true
  /\ collapses (ThoughtBlock_run (map Props hs) s) = collapses s.
Proof.
  revert s; induction hs as [|h hs IH]; intros s I L; simpl; [auto|].
  destruct (ThoughtBlock_latched_render h _ I L) as [O [L' C]].
  destruct (IH _ (ThoughtBlock_render_inv h _ I) L') as [O2 [L2 C2]].
  rewrite O2, L2, C2; auto.
Qed.

Lemma ThoughtBlock_latched_toggle (o : bool) (s : ThoughtBlockState) :
  ThoughtBlock_inv s -> hasAutoCollapsed s = true ->
  isOpen (ThoughtBlock_toggle o s) = o
  /\ hasAutoCollapsed (ThoughtBlock_toggle o s) = true.
Proof.
  tb_cases s; intros [C D] L; subst n l;
    try destruct dh; try destruct dl; simpl in *;
    intuition congruence.
Qed.

Lemma ThoughtBlock_run_app (es es' : list ThoughtBlockEvent)
  (s : ThoughtBlockState) :
  ThoughtBlock_run (es ++ es') s = ThoughtBlock_run es' (ThoughtBlock_run es s).
Proof. apply fold_left_app. Qed.

(** C5.  On every run of a mounted panel: (1) when the latch is unset, a
    render with main content present closes the panel and sets the latch, and
    that is the one forced close of the run; (2) the effect never forces the
    panel closed more than once; (3) once the latch is set, renders with any
    values of [hasMainContent] leave [open] as it is; (4) in particular a
    panel the user reopens stays open. *)
Theorem reasoning_panel_collapses_once (es : list ThoughtBlockEvent) :
  let s := ThoughtBlock_run es ThoughtBlock_mount in
  (hasAutoCollapsed s = false ->
     isOpen (ThoughtBlock_step s (Props true)) = false
     /\ hasAutoCollapsed (ThoughtBlock_step s (Props true)) = true
     /\ collapses s = 0
     /\ collapses (ThoughtBlock_step s (Props true)) = 1)
  /\ collapses s <= 1
  /\ (hasAutoCollapsed s = true ->
      forall hs : list bool,
        isOpen (ThoughtBlock_run (map Props hs) s) = isOpen s
        /\ hasAutoCollapsed (ThoughtBlock_run (map Props hs) s) = true
        /\ collapses (ThoughtBlock_run (map Props hs) s) = 1)
  /\ (hasAutoCollapsed s = true ->
      forall hs : list bool,
        isOpen (ThoughtBlock_run (Toggle true :: map Props hs) s) = true).
Proof.
  intros s.
  assert (I : ThoughtBlock_inv s)
    by (apply ThoughtBlock_run_inv, ThoughtBlock_inv_mount).
  split; [|split; [|split]].
  - intros L. destruct (ThoughtBlock_first_content _ I L) as [O [L' C]].
    destruct I as [C0 _]; rewrite L in C0. simpl; auto.
  - destruct I as [C0 _]; rewrite C0; destruct (hasAutoCollapsed s); lia.
  - intros L hs. destruct (ThoughtBlock_latched_props hs _ I L) as [O [L' C]].
    destruct I as [C0 _]; rewrite L in C0. rewrite O, L', C, C0; auto.
  - intros L hs. simpl.
    destruct (ThoughtBlock_latched_toggle true _ I L) as [O L'].
    destruct (ThoughtBlock_latched_props hs _
                (ThoughtBlock_toggle_inv true _ I) L') as [O2 _].
    rewrite O2; exact O.
Qed.

Lemma reasoning_panel_collapses_once_witness :
  let s := ThoughtBlock_run [Props false] ThoughtBlock_mount in
  let s' := ThoughtBlock_run [Props false; Props true] ThoughtBlock_mount in
  hasAutoCollapsed s = false
  /\ isOpen (ThoughtBlock_step s (Props true)) = false
  /\ hasAutoCollapsed s' = true
  /\ isOpen (ThoughtBlock_run
               (Toggle true :: map Props [false; true; false; true]) s')
     = true.
Proof.
  intros s s'.
  split; [reflexivity|].
  split.
  - apply (proj1 (reasoning_panel_collapses_once [Props false])).
    reflexivity.
  - split; [reflexivity|].
    apply (proj2 (proj2 (proj2
             (reasoning_panel_collapses_once [Props false; Props true])))).
    reflexivity.
Defined.

(** ** The outline card and the edit-team count *)

Lemma map_result_total {A B} (f : A -> result B) (l : list A) :
  Forall (fun a => exists b, f a = Return b) l ->
  exists bs, map_result f l = Return bs /\ List.length bs = List.length l.
Proof.
  induction 1 as [|a l [b E] _ [bs [Es L]]]; simpl.
  - exists []; auto.
  - rewrite E; simpl; rewrite Es; simpl.
    exists (b :: bs); simpl; auto.
Qed.

Lemma get_prop_not_nullish (x : value) (name : jsstring) :
  is_nullish x = false -> exists y, get_prop x name = Return y.
Proof.
  destruct x; simpl; try discriminate; intros _; eexists; reflexivity.
Qed.

Lemma entry_of_total (x : value) (i : nat) :
  is_nullish x = false -> exists e, entry_of x i = Return e.
Proof.
  intros H; unfold entry_of.
  destruct (get_prop_not_nullish x (js "title") H) as [a ->].
  destruct (get_prop_not_nullish x (js "description") H) as [b ->].
  simpl; eexists; reflexivity.
Qed.

Lemma map_result_indexed_total {B} (f : value -> nat -> result B)
  (xs : list nat) (l : list value) :
  Forall (fun x => forall i, exists b, f x i = Return b) l ->
  List.length xs = List.length l ->
  exists bs, map_result (fun ix => f (snd ix) (fst ix)) (combine xs l)
             = Return bs
             /\ List.length bs = List.length l.
Proof.
  intros F; revert xs; induction F as [|x l Hx _ IH]; intros [|i xs] L;
    simpl in *; try discriminate.
  - exists []; auto.
  - destruct (Hx i) as [b Eb]; rewrite Eb; simpl.
    destruct (IH xs) as [bs [Ebs Lbs]]; [lia|].
    rewrite Ebs; simpl. exists (b :: bs); simpl; auto.
Qed.

Lemma array_map_total {B} (f : value -> nat -> result B) (l : list value) :
  Forall (fun x => forall i, exists b, f x i = Return b) l ->
  exists bs, array_map f (VArr l) = Return bs
             /\ List.length bs = List.length l.
Proof.
  intros F; unfold array_map.
  apply map_result_indexed_total; [exact F | apply length_seq].
Qed.

Lemma get_prop_object (o : value) (name : jsstring) (x : value) :
  get_prop o name = Return x -> is_undefined x = false ->
  exists props, o = VObj props.
Proof.
  destruct o; simpl; try discriminate;
    try (intros H; inversion H; subst; discriminate).
  intros _ _; eexists; reflexivity.
Qed.

Lemma heading_returns (v : value) :
  string_convertible v = true -> heading v = Return (mkTemplate (js "### ") v).
Proof. unfold heading; intros ->; reflexivity. Qed.

Lemma nullish_convertible (v : value) (d : jsstring) :
  string_convertible (nullish v (VStr d)) = string_convertible v.
Proof. destruct v; reflexivity. Qed.

Lemma OutlineMessage_view_total (outline : value) (l : list value) :
  string_convertible (get_prop_opt outline (js "title")) = true ->
  get_prop outline (js "sections") = Return (VArr l) ->
  Forall (fun x => is_nullish x = false) l ->
  exists v, OutlineMessage_view outline = Return v
            /\ option_map (@List.length _) (ol_sections v)
               = Some (List.length l).
Proof.
  intros T S F.
  destruct (get_prop_object _ _ _ S eq_refl) as [props ->].
  unfold OutlineMessage_view. rewrite S.
  unfold get_prop_opt in T. simpl get_prop in *. simpl bind.
  rewrite heading_returns by (rewrite nullish_convertible; exact T).
  simpl bind.
  destruct (array_map_total entry_of l) as [es [E L]].
  { eapply Forall_impl; [|exact F]. intros x Hx i.
    apply entry_of_total; exact Hx. }
  unfold optional_map; simpl truthy; cbv iota. rewrite E. simpl.
  eexists; split; [reflexivity|]. simpl. rewrite L; reflexivity.
Qed.

Lemma dep_of_refl (r : nat) (v : value) : dep_eqb (dep_of r v) (dep_of r v) = true.
Proof.
  destruct v as [| |b|x|s|l|props]; simpl; try reflexivity.
  - apply eqb_reflx.
  - destruct x; simpl; rewrite ?eqb_reflx, ?Pos.eqb_refl, ?Z.eqb_refl;
      reflexivity.
  - apply str_eqb_refl.
  - apply Nat.eqb_refl.
  - apply Nat.eqb_refl.
Qed.

Lemma same_deps_fst (old : option (bool * dep)) (new : bool * dep) :
  same_deps old new = true -> exists d, old = Some (fst new, d).
Proof.
  destruct old as [[a d]|]; simpl; [|discriminate].
  intros H; apply andb_true_iff in H; destruct H as [H _].
  apply eqb_prop in H; subst; eexists; reflexivity.
Qed.

(** What [useMemo] yields: the decoding of the present content, from the cell
    or computed afresh. *)
Lemma use_outline_spec (m : Message) (h : OutlineHooks) (outline : value) :
  memo_ok h ->
  parseJSON parse (JString (content m)) (VObj []) = Return outline ->
  exists r h1,
    use_outline m h = Return (r, outline, h1)
    /\ memo h1 = Some (content m, (r, outline))
    /\ effect_deps h1 = effect_deps h.
Proof.
  intros M P. unfold use_outline, memo_ok in *.
  destruct (memo h) as [[c [r v]]|] eqn:E.
  - destruct (str_eqb c (content m)) eqn:C.
    + apply str_eqb_eq in C; subst c.
      assert (v = outline) by congruence; subst v.
      exists r, h; auto.
    + rewrite P; simpl. eexists; eexists; split; [reflexivity|]; auto.
  - rewrite P; simpl. eexists; eexists; split; [reflexivity|]; auto.
Qed.

(** A render that commits leaves the streaming flag it saw in the dependency
    array. *)
Lemma OutlineMessage_deps (m : Message) (hs : OutlineHooks * Store)
  (h1 : OutlineHooks) (st1 : Store) (v : OutlineView) :
  OutlineMessage m hs = Return (h1, st1, v) ->
  exists d, effect_deps h1 = Some (isStreaming m, d).
Proof.
  destruct hs as [h st]. unfold OutlineMessage.
  destruct (use_outline m h) as [[[r o] h']|]; simpl; [|discriminate].
  destruct (get_prop o (js "sections")) as [s|]; simpl; [|discriminate].
  destruct (OutlineMessage_view o) as [v'|]; simpl; [|discriminate].
  destruct (same_deps (effect_deps h') (isStreaming m, dep_of r s)) eqn:D.
  - intros H; inversion H; subst. apply same_deps_fst in D; exact D.
  - destruct (negb (isStreaming m) && truthy s); intros H; inversion H;
      subst; simpl; eexists; reflexivity.
Qed.

Lemma OutlineMessage_memo_ok (m : Message) (h : OutlineHooks) (st : Store)
  (h1 : OutlineHooks) (st1 : Store) (v : OutlineView) :
  memo_ok h -> OutlineMessage m (h, st) = Return (h1, st1, v) -> memo_ok h1.
Proof.
  intros M. unfold OutlineMessage.
  destruct (parseJSON_returns parse (JString (content m)) (VObj []))
    as [outline P].
  destruct (use_outline_spec m h outline M P) as [r [h' [U [Mh' _]]]].
  rewrite U; simpl.
  destruct (get_prop outline (js "sections")) as [s|]; simpl; [|discriminate].
  destruct (OutlineMessage_view outline) as [v'|]; simpl; [|discriminate].
  assert (K : memo_ok h') by (unfold memo_ok; rewrite Mh'; exact P).
  destruct (same_deps (effect_deps h') (isStreaming m, dep_of r s)).
  - intros H; inversion H; subst; exact K.
  - destruct (negb (isStreaming m) && truthy s); intros H; inversion H; subst;
      unfold memo_ok in *; simpl; exact K.
Qed.

Arguments OutlineMessage : simpl never.

Lemma OutlineMessage_run_app (ms ms' : list Message)
  (hs : OutlineHooks * Store) :
  OutlineMessage_run (ms ++ ms') hs =
  (x <- OutlineMessage_run ms hs ;; OutlineMessage_run ms' x).
Proof.
  revert hs; induction ms as [|m ms IH]; intros hs; simpl; [reflexivity|].
  destruct (OutlineMessage m hs) as [x|]; simpl; [apply IH | reflexivity].
Qed.

Lemma OutlineMessage_run_memo_ok (ms : list Message) (h : OutlineHooks)
  (st : Store) (h1 : OutlineHooks) (st1 : Store) :
  memo_ok h -> OutlineMessage_run ms (h, st) = Return (h1, st1) -> memo_ok h1.
Proof.
  revert h st; induction ms as [|m ms IH]; intros h st M; simpl.
  - intros H; inversion H; subst; exact M.
  - destruct (OutlineMessage m (h, st)) as [[[h' st'] v]|] eqn:E; simpl;
      [|discriminate].
    apply IH. eapply OutlineMessage_memo_ok; eauto.
Qed.

(** The render that sees the stream complete runs the effect, which records
    the number of sections. *)
Lemma OutlineMessage_completes (m : Message) (h : OutlineHooks) (st : Store)
  (d : dep) (outline : value) (l : list value) :
  memo_ok h ->
  effect_deps h = Some (true, d) ->
  isStreaming m = false ->
  parseJSON parse (JString (content m)) (VObj []) = Return outline ->
  string_convertible (get_prop_opt outline (js "title")) = true ->
  get_prop outline (js "sections") = Return (VArr l) ->
  Forall (fun x => is_nullish x = false) l ->
  exists r h1 v,
    OutlineMessage m (h, st)
    = Return (h1, setEditTeamCount (VNum (number_of_nat (List.length l))) st, v)
    /\ memo h1 = Some (content m, (r, outline))
    /\ effect_deps h1 = Some (false, DRef r)
    /\ OutlineMessage_view outline = Return v.
Proof.
  intros M D S P T G F.
  destruct (use_outline_spec m h outline M P) as [r [h' [U [Mh' Dh']]]].
  destruct (OutlineMessage_view_total outline l T G F) as [v [V _]].
  exists r. eexists. exists v.
  unfold OutlineMessage. rewrite U; simpl. rewrite G; simpl.
  rewrite V; simpl. rewrite Dh', D, S; simpl.
  split; [reflexivity|]. simpl. auto.
Qed.

(** A later render of the completed message with the same content finds the
    memo cell and the same dependencies: nothing is written. *)
Lemma OutlineMessage_rerender (m : Message) (h : OutlineHooks) (st : Store)
  (c : jsstring) (r : nat) (outline : value) (l : list value)
  (v : OutlineView) :
  memo h = Some (c, (r, outline)) ->
  effect_deps h = Some (false, DRef r) ->
  get_prop outline (js "sections") = Return (VArr l) ->
  OutlineMessage_view outline = Return v ->
  content m = c -> isStreaming m = false ->
  OutlineMessage m (h, st) = Return (h, st, v).
Proof.
  intros M D G V C S.
  unfold OutlineMessage, use_outline. rewrite M, C, str_eqb_refl; simpl.
  rewrite G; simpl. rewrite V; simpl. rewrite D, S; simpl.
  rewrite Nat.eqb_refl; reflexivity.
Qed.

Lemma OutlineMessage_rerenders (ms : list Message) (h : OutlineHooks)
  (st : Store) (c : jsstring) (r : nat) (outline : value) (l : list value)
  (v : OutlineView) :
  memo h = Some (c, (r, outline)) ->
  effect_deps h = Some (false, DRef r) ->
  get_prop outline (js "sections") = Return (VArr l) ->
  OutlineMessage_view outline = Return v ->
  Forall (fun m => content m = c /\ isStreaming m = false) ms ->
  OutlineMessage_run ms (h, st) = Return (h, st).
Proof.
  intros M D G V F; induction F as [|m ms [C S] _ IH]; simpl; [reflexivity|].
  rewrite (OutlineMessage_rerender m h st c r outline l v M D G V C S).
  simpl; exact IH.
Qed.

(** C4 (amended).  Take a mounted outline card whose last render saw the
    message streaming, and let the next render see it completed, its content
    decoding to an object whose [title] has a string for the heading (it is
    not an object with an own [toString] property, nor an array that holds
    one) and whose [sections] is an array of [n] entries, none of them
    [null].  That render sets the edit-team count to [n], with one call of
    [setEditTeamCount]; every later render of the completed message with the
    same content leaves the hooks and the store, and so the log of calls, as
    they are. *)
Theorem outline_records_section_count
  (ms : list Message) (streaming completed : Message) (st0 : Store)
  (h : OutlineHooks) (st : Store) (outline : value) (l : list value) :
  OutlineMessage_run (ms ++ [streaming]) (OutlineMessage_mount, st0)
    = Return (h, st) ->
  isStreaming streaming = true ->
  isStreaming completed = false ->
  decode (JString (content completed)) (VObj []) = Return outline ->
  string_convertible (get_prop_opt outline (js "title")) = true ->
  get_prop outline (js "sections") = Return (VArr l) ->
  Forall (fun x => is_nullish x = false) l ->
  exists h1 st1 v,
    OutlineMessage completed (h, st) = Return (h1, st1, v)
    /\ editTeamCount st1 = VNum (number_of_nat (List.length l))
    /\ editTeamCount_log st1
       = editTeamCount_log st ++ [VNum (number_of_nat (List.length l))]
    /\ forall later,
         Forall (fun m => content m = content completed
                          /\ isStreaming m = false) later ->
         OutlineMessage_run later (h1, st1) = Return (h1, st1).
Proof.
  intros R S C P T G F.
  rewrite OutlineMessage_run_app in R.
  destruct (OutlineMessage_run ms (OutlineMessage_mount, st0))
    as [[h' st']|] eqn:R0; simpl in R; [|discriminate].
  destruct (OutlineMessage streaming (h', st')) as [[[h2 st2] v2]|] eqn:R1;
    simpl in R; [|discriminate].
  inversion R; subst h2 st2; clear R.
  assert (M : memo_ok h).
  { eapply OutlineMessage_memo_ok; [|exact R1].
    eapply OutlineMessage_run_memo_ok; [|exact R0]. exact I. }
  destruct (OutlineMessage_deps _ _ _ _ _ R1) as [d D]. rewrite S in D.
  destruct (OutlineMessage_completes completed h st d outline l M D C P T G F)
    as [r [h1 [v [E [M1 [D1 V]]]]]].
  exists h1, (setEditTeamCount (VNum (number_of_nat (List.length l))) st), v.
  split; [exact E|]. split; [reflexivity|]. split; [reflexivity|].
  intros later L.
  eapply OutlineMessage_rerenders; eauto.
Qed.

Lemma outline_records_section_count_witness :
  let msg s c := mkMessage (js "m1") assistant (Some (js "outline")) c None s
                   None in
  let partial := jq "{'title':'Report','sections':[{'title':'A'},{'ti" in
  let full := jq "{'title':'Report','sections':[{'title':'A'},{'title':'B'},{'title':'C'}]}" in
  let st0 := mkStore [js "m1"] [] [] [] None VUndefined [] in
  exists h st h1 st1 v,
    OutlineMessage_run ([msg true partial] ++ [msg true full])
      (OutlineMessage_mount, st0) = Return (h, st)
    /\ OutlineMessage (msg false full) (h, st) = Return (h1, st1, v)
    /\ editTeamCount st1 = VNum (number_of_nat 3)
    /\ editTeamCount_log st1 = [VNum (number_of_nat 3)]
    /\ OutlineMessage_run [msg false full; msg false full] (h1, st1)
       = Return (h1, st1).
Proof.
  intros msg partial full st0.
  destruct (OutlineMessage_run ([msg true partial] ++ [msg true full])
              (OutlineMessage_mount, st0)) as [[h st]|] eqn:R;
    [|vm_compute in R; discriminate R].
  assert (L : editTeamCount_log st = []).
  { vm_compute in R. inversion R; reflexivity. }
  destruct (outline_records_section_count
              [msg true partial] (msg true full) (msg false full) st0 h st
              (VObj [(js "title", VStr (js "Report"));
                     (js "sections",
                      VArr [VObj [(js "title", VStr (js "A"))];
                            VObj [(js "title", VStr (js "B"))];
                            VObj [(js "title", VStr (js "C"))]])])
              [VObj [(js "title", VStr (js "A"))];
               VObj [(js "title", VStr (js "B"))];
               VObj [(js "title", VStr (js "C"))]]
              R eq_refl eq_refl)
    as [h1 [st1 [v [E [C [Lg K]]]]]].
  - vm_compute; reflexivity.
  - vm_compute; reflexivity.
  - vm_compute; reflexivity.
  - repeat constructor.
  - exists h, st, h1, st1, v.
    split; [reflexivity|]. split; [exact E|]. split; [exact C|].
    split; [rewrite Lg, L; reflexivity|].
    apply K. repeat constructor.
Defined.

(** C4 as stated fails: an entry of [sections] that is [null] makes the
    render of the completed message throw, so its effect never runs and the
    count is not set, although [sections] is an array of length 1.  A
    [title] without a string for the heading does the same. *)
Lemma outline_null_section_not_counted :
  let msg s c := mkMessage (js "m1") assistant (Some (js "outline")) c None s
                   None in
  let st0 := mkStore [js "m1"] [] [] [] None VUndefined [] in
  exists h st,
    OutlineMessage_run [msg true (jq "{'sections':[]}")]
      (OutlineMessage_mount, st0) = Return (h, st)
    /\ editTeamCount_log st = []
    /\ decode (JString (jq "{'sections':[null]}")) (VObj [])
       = Return (VObj [(js "sections", VArr [VNull])])
    /\ OutlineMessage (msg false (jq "{'sections':[null]}")) (h, st)
       = Throw TypeError
    /\ OutlineMessage
         (msg false (jq "{'title':{'toString':1},'sections':[{'title':'A'}]}"))
         (h, st)
       = Throw TypeError.
Proof.
  intros msg st0.
  eexists; eexists.
  split; [vm_compute; reflexivity|].
  repeat split; vm_compute; reflexivity.
Qed.

(** ** Objects made by the parser *)

Lemma set_prop_keys (k : jsstring) (v : value)
  (props : list (jsstring * value)) (k' : jsstring) :
  In k' (map fst (set_prop k v props)) <-> k' = k \/ In k' (map fst props).
Proof.
  induction props as [|[k1 v1] rest IH]; simpl.
  - intuition congruence.
  - destruct (str_eqb k k1) eqn:E; simpl.
    + apply str_eqb_eq in E; subst k1. intuition congruence.
    + rewrite IH. intuition congruence.
Qed.

Lemma set_prop_NoDup (k : jsstring) (v : value)
  (props : list (jsstring * value)) :
  NoDup (map fst props) -> NoDup (map fst (set_prop k v props)).
Proof.
  induction props as [|[k1 v1] rest IH]; simpl; intros H.
  - constructor; [intros [] | constructor].
  - inversion H as [|? ? Hn Hr]; subst.
    destruct (str_eqb k k1) eqn:E; simpl.
    + constructor; assumption.
    + constructor; [|apply IH; exact Hr].
      rewrite set_prop_keys. intros [->|I]; [|contradiction].
      rewrite str_eqb_refl in E; discriminate.
Qed.

Lemma set_prop_ok (k : jsstring) (v : value)
  (props : list (jsstring * value)) :
  is_undefined v = false -> props_ok props -> props_ok (set_prop k v props).
Proof.
  intros V [N F]; split; [apply set_prop_NoDup; exact N|].
  induction F as [|[k1 v1] rest H F' IH]; simpl.
  - constructor; [exact V | constructor].
  - inversion N; subst.
    destruct (str_eqb k k1); constructor; simpl; auto.
Qed.

Lemma props_ok_nil : props_ok [].
Proof. split; constructor. Qed.

Lemma deliver_ok (v : value) (st st' : pstate) :
  pstate_ok st -> val_ok v -> deliver v st = Some st' -> pstate_ok st'.
Proof.
  destruct st as [stk d]; unfold pstate_ok, deliver; simpl.
  intros [F D] V.
  destruct stk as [|[acc e|acc e] r].
  - destruct d; [discriminate|]. intros H; inversion H; subst; simpl. auto.
  - destruct e; try discriminate; intros H; inversion H; subst; simpl;
      (split; [|exact D]); inversion F; subst; constructor; simpl; auto.
  - destruct e; try discriminate; intros H; inversion H; subst; simpl.
    split; [|exact D]. inversion F; subst; constructor; auto.
    simpl in *. apply set_prop_ok; [apply V | assumption].
Qed.

Lemma parse_step_ok (st st' : pstate) (t : token) :
  pstate_ok st -> parse_step st t = Some st' -> pstate_ok st'.
Proof.
  intros O. pose proof O as [F D].
  destruct t; simpl.
  - (* { *)
    destruct (value_allowed st); [|discriminate].
    intros H; inversion H; subst; split; simpl; auto.
    constructor; auto. simpl; apply props_ok_nil.
  - (* } *)
    destruct (stack st) as [|[acc e|acc e] r] eqn:S; try discriminate.
    inversion F; subst.
    destruct e; try discriminate; apply deliver_ok; unfold val_ok; simpl; auto;
      split; auto.
  - (* [ *)
    destruct (value_allowed st); [|discriminate].
    intros H; inversion H; subst; split; simpl; auto.
    constructor; auto. simpl; exact I.
  - (* ] *)
    destruct (stack st) as [|[acc e|acc e] r] eqn:S; try discriminate.
    inversion F; subst.
    destruct e; try discriminate; apply deliver_ok; unfold val_ok; simpl; auto; split; auto.
  - (* : *)
    destruct (stack st) as [|[acc e|acc e] r] eqn:S; try discriminate.
    inversion F; subst.
    destruct e; try discriminate.
    intros H; inversion H; subst; split; simpl; auto.
  - (* , *)
    destruct (stack st) as [|[acc e|acc e] r] eqn:S; try discriminate;
      inversion F; subst; destruct e; try discriminate;
      intros H; inversion H; subst; split; simpl; auto.
  - (* string *)
    destruct (stack st) as [|[acc e|acc e] r] eqn:S.
    + apply deliver_ok; unfold val_ok; simpl; auto.
    + apply deliver_ok; unfold val_ok; simpl; auto.
    + inversion F; subst.
      destruct e; try (apply deliver_ok; unfold val_ok; simpl; auto; fail);
        intros H; inversion H; subst; split; simpl; auto.
  - apply deliver_ok; unfold val_ok; simpl; auto.
  - apply deliver_ok; unfold val_ok; simpl; auto.
  - apply deliver_ok; unfold val_ok; simpl; auto.
  - apply deliver_ok; unfold val_ok; simpl; auto.
Qed.

Lemma parse_run_ok (ts : list token) (st st' : pstate) :
  pstate_ok st -> parse_run st ts = Some st' -> pstate_ok st'.
Proof.
  revert st; induction ts as [|t ts IH]; simpl; intros st O.
  - intros H; inversion H; subst; exact O.
  - destruct (parse_step st t) as [st1|] eqn:E; [|discriminate].
    apply IH. eapply parse_step_ok; eauto.
Qed.

Lemma close_all_ok (stk : list frame) (carry : option value) (v : value) :
  Forall frame_ok stk ->
  match carry with Some c => val_ok c | None => True end ->
  close_all stk carry = Some v -> val_ok v.
Proof.
  revert carry; induction stk as [|[acc e|acc e] r IH]; simpl;
    intros carry F C.
  - intros H; subst; exact C.
  - inversion F; subst. apply IH; [assumption|]. split; [reflexivity | exact I].
  - inversion F; subst. apply IH; [assumption|].
    split; [reflexivity|].
    destruct carry; [destruct e|]; simpl in *; auto.
    apply set_prop_ok; [apply C | assumption].
Qed.

Lemma parse_ok (text : jsstring) (v : value) :
  parse text = Return v -> val_ok v.
Proof.
  unfold parse.
  destruct (lex_run LDefault text) as [[m ts]|]; [|discriminate].
  destruct (parse_run pstart (ts ++ lex_end_tolerant m)) as [[stk d]|] eqn:E;
    [|discriminate].
  assert (O : pstate_ok (mkP stk d)).
  { eapply parse_run_ok; [|exact E]. split; simpl; auto. }
  destruct O as [F D]; simpl in F, D.
  destruct stk as [|f r].
  - destruct d; simpl; [|discriminate]. intros H; inversion H; subst; exact D.
  - destruct (close_all (f :: r) None) eqn:C; [|discriminate].
    intros H; inversion H; subst.
    eapply close_all_ok; [exact F | | exact C]. exact I.
Qed.

Lemma decode_ok (json : json_arg) (fallback v : value) :
  val_ok fallback -> decode json fallback = Return v -> val_ok v.
Proof.
  intros Fb. unfold decode, parseJSON.
  destruct (falsy_arg json).
  - intros H; inversion H; subst; exact Fb.
  - simpl. destruct (parse (strip_fences (arg_string json))) eqn:P; simpl;
      intros H; inversion H; subst; [eapply parse_ok; eauto | exact Fb].
Qed.

(** ** Own-property order *)

Lemma insert_index_perm (x : N * (jsstring * value))
  (l : list (N * (jsstring * value))) :
  Permutation (insert_index x l) (x :: l).
Proof.
  induction l as [|y l IH]; simpl; [reflexivity|].
  destruct (fst x <=? fst y)%N; [reflexivity|].
  rewrite IH. apply perm_swap.
Qed.

Lemma insert_index_Forall (P : N * (jsstring * value) -> Prop)
  (x : N * (jsstring * value)) (l : list (N * (jsstring * value))) :
  P x -> Forall P l -> Forall P (insert_index x l).
Proof.
  intros Px F. eapply Permutation_Forall.
  - symmetry; apply insert_index_perm.
  - constructor; assumption.
Qed.

Lemma insert_index_HdRel (y x : N * (jsstring * value))
  (l : list (N * (jsstring * value))) :
  HdRel le_index y l -> le_index y x -> HdRel le_index y (insert_index x l).
Proof.
  destruct l as [|z l]; simpl; intros H L.
  - constructor; exact L.
  - destruct (fst x <=? fst z)%N; constructor; [exact L|].
    inversion H; assumption.
Qed.

Lemma insert_index_sorted (x : N * (jsstring * value))
  (l : list (N * (jsstring * value))) :
  Sorted le_index l -> Sorted le_index (insert_index x l).
Proof.
  induction 1 as [|y l S IH H]; simpl.
  - repeat constructor.
  - destruct (fst x <=? fst y)%N eqn:E.
    + constructor; [constructor; assumption|].
      constructor. apply N.leb_le; exact E.
    + constructor; [exact IH|].
      apply insert_index_HdRel; [exact H|].
      apply N.leb_gt in E. unfold le_index. lia.
Qed.

Lemma index_props_sorted (props : list (jsstring * value)) :
  Sorted le_index (index_props props).
Proof.
  induction props as [|[k v] rest IH]; simpl; [constructor|].
  destruct (array_index k); [apply insert_index_sorted|]; exact IH.
Qed.

Lemma index_props_entries (props : list (jsstring * value)) :
  Forall indexed_entry (index_props props).
Proof.
  induction props as [|[k v] rest IH]; simpl; [constructor|].
  destruct (array_index k) eqn:E; [|exact IH].
  apply insert_index_Forall; [exact E | exact IH].
Qed.

Lemma own_props_perm (props : list (jsstring * value)) :
  Permutation (own_props props) props.
Proof.
  unfold own_props.
  induction props as [|[k v] rest IH]; simpl; [reflexivity|].
  unfold named_props in *; simpl.
  destruct (array_index k) eqn:E; simpl.
  - rewrite (Permutation_map snd (insert_index_perm _ _)); simpl.
    constructor; exact IH.
  - rewrite <- Permutation_middle. constructor; exact IH.
Qed.

Lemma own_props_named (props : list (jsstring * value)) :
  Forall (fun kv => is_index (fst kv) = false) props ->
  own_props props = props.
Proof.
  intros F.
  assert (E : index_props props = [] /\ named_props props = props).
  { unfold named_props, is_index in *.
    induction F as [|[k v] rest H _ [IH1 IH2]]; simpl in *; [auto|].
    destruct (array_index k); [discriminate|].
    split; [exact IH1 | f_equal; exact IH2]. }
  unfold own_props; destruct E as [-> ->]; reflexivity.
Qed.

Lemma named_props_keys (props : list (jsstring * value)) :
  map fst (named_props props)
  = filter (fun k => negb (is_index k)) (map fst props).
Proof.
  unfold named_props, is_index.
  induction props as [|[k v] rest IH]; simpl; [reflexivity|].
  destruct (array_index k); simpl; [exact IH | f_equal; exact IH].
Qed.

Lemma index_keys_sorted (l : list (N * (jsstring * value))) :
  Forall indexed_entry l -> Sorted le_index l ->
  Sorted (fun a b => (index_value a <= index_value b)%N)
         (map (fun x => fst (snd x)) l).
Proof.
  intros F S; induction S as [|x l S IH H]; simpl; [constructor|].
  inversion F as [|? ? Fx Fl]; subst.
  constructor; [apply IH; exact Fl|].
  destruct H as [|y l' L]; simpl; constructor.
  inversion Fl as [|? ? Fy _]; subst.
  unfold index_value, indexed_entry, le_index in *.
  rewrite Fx, Fy; exact L.
Qed.

Lemma index_keys_are_indices (l : list (N * (jsstring * value))) :
  Forall indexed_entry l ->
  Forall (fun k => is_index k = true) (map (fun x => fst (snd x)) l).
Proof.
  induction 1 as [|x l H _ IH]; simpl; constructor; [|exact IH].
  unfold is_index, indexed_entry in *; rewrite H; reflexivity.
Qed.

(** ** The evaluator card *)

Lemma evaluationData_decode (m : Message) :
  evaluationData_of m = decode (JString (content m)) (VObj []).
Proof.
  unfold evaluationData_of, decode.
  destruct (parseJSON_returns parse (JString (content m)) (VObj [])) as [v ->].
  reflexivity.
Qed.

Lemma items_of_entries (l : list (jsstring * value)) :
  map (fun i => (criterion i, evaluation i))
      (map (fun kv => mkItem (fst kv) (snd kv)) l) = l.
Proof.
  induction l as [|[k v] l IH]; simpl; [reflexivity | f_equal; exact IH].
Qed.

Lemma criteria_of_entries (l : list (jsstring * value)) :
  map criterion (map (fun kv => mkItem (fst kv) (snd kv)) l) = map fst l.
Proof.
  induction l as [|[k v] l IH]; simpl; [reflexivity | f_equal; exact IH].
Qed.

(** C8 (amended).  The evaluator card shows one titled block per key of the
    decoded object and no other block, in the object's own-property order:
    first the keys that are array indices, by ascending index, then the
    remaining keys in insertion order; so the order is the insertion order
    whenever no key is an array index.  A payload that cannot be decoded
    yields no block. *)
Theorem evaluator_blocks (m : Message) :
  (forall e, parse (strip_fences (content m)) = Throw e ->
     EvaluatorMessage m = Return [])
  /\ (forall props,
        decode (JString (content m)) (VObj []) = Return (VObj props) ->
        exists items idx,
          EvaluatorMessage m = Return items
          /\ NoDup (map criterion items)
          /\ (forall k, In k (map criterion items) <-> In k (map fst props))
          /\ Permutation (map (fun i => (criterion i, evaluation i)) items)
                         props
          /\ map criterion items
             = idx ++ filter (fun k => negb (is_index k)) (map fst props)
          /\ Forall (fun k => is_index k = true) idx
          /\ Sorted (fun a b => (index_value a <= index_value b)%N) idx
          /\ (Forall (fun k => is_index k = false) (map fst props) ->
              map criterion items = map fst props)).
Proof.
  split.
  - intros e P. unfold EvaluatorMessage. rewrite evaluationData_decode.
    unfold decode.
    destruct (content m) as [|c s]; [reflexivity|].
    rewrite parseJSON_string, P; reflexivity.
  - intros props D.
    assert (Fb : val_ok (VObj [])) by (split; [reflexivity | apply props_ok_nil]).
    pose proof (decode_ok _ _ _ Fb D) as [_ [N _]].
    pose proof (own_props_perm props) as Pm.
    exists (map (fun kv => mkItem (fst kv) (snd kv)) (own_props props)).
    exists (map (fun x => fst (snd x)) (index_props props)).
    unfold EvaluatorMessage. rewrite evaluationData_decode, D. simpl bind.
    rewrite criteria_of_entries, items_of_entries.
    split; [reflexivity|].
    split; [eapply Permutation_NoDup;
            [symmetry; apply Permutation_map; exact Pm | exact N]|].
    split; [intros k; split; apply Permutation_in; apply Permutation_map;
            [exact Pm | symmetry; exact Pm]|].
    split; [exact Pm|].
    split; [unfold own_props; rewrite map_app, map_map, named_props_keys;
            reflexivity|].
    split; [apply index_keys_are_indices, index_props_entries|].
    split; [apply index_keys_sorted;
            [apply index_props_entries | apply index_props_sorted]|].
    intros F. rewrite own_props_named; [reflexivity|].
    rewrite Forall_map in F; exact F.
Qed.

Lemma evaluator_blocks_witness :
  let m := mkMessage (js "m1") assistant (Some (js "evaluator"))
             (jq "{'Relevance':'high','Readability':'good'}") None false None in
  exists items,
    EvaluatorMessage m = Return items
    /\ map criterion items = [js "Relevance"; js "Readability"].
Proof.
  intros m.
  destruct (proj2 (evaluator_blocks m)
              [(js "Relevance", VStr (js "high"));
               (js "Readability", VStr (js "good"))])
    as [items [idx [E [_ [_ [_ [_ [_ [_ K]]]]]]]]].
  - vm_compute; reflexivity.
  - exists items; split; [exact E|].
    apply K. repeat constructor.
Defined.

(** C8 as stated fails: a key that is an array index is shown before the
    keys inserted ahead of it. *)
Lemma evaluator_index_key_first :
  let m := mkMessage (js "m1") assistant (Some (js "evaluator"))
             (jq "{'b':'x','1':'y'}") None false None in
  decode (JString (content m)) (VObj [])
    = Return (VObj [(js "b", VStr (js "x")); (js "1", VStr (js "y"))])
  /\ EvaluatorMessage m
     = Return [mkItem (js "1") (VStr (js "y")); mkItem (js "b") (VStr (js "x"))]
  /\ (forall items, EvaluatorMessage m = Return items ->
        map criterion items <> [js "b"; js "1"]).
Proof.
  intros m. split; [vm_compute; reflexivity|].
  split; [vm_compute; reflexivity|].
  intros items E.
  assert (E' : EvaluatorMessage m
               = Return [mkItem (js "1") (VStr (js "y"));
                         mkItem (js "b") (VStr (js "x"))])
    by (vm_compute; reflexivity).
  rewrite E' in E; inversion E; subst. vm_compute; discriminate.
Qed.

(** ** The editor-team card *)


Lemma is_string_spec (v : value) (s : jsstring) :
  is_string v s = true <-> v = VStr s.
Proof.
  destruct v; simpl; try (split; [discriminate | discriminate]).
  rewrite str_eqb_eq. split; [intros ->; reflexivity | intros H; inversion H; auto].
Qed.

Lemma editor_step_of_spec (x : value) (i : nat) :
  is_nullish x = false ->
  exists sv, editor_step_of x i = Return sv /\ badge_ok x sv.
Proof.
  intros H. unfold editor_step_of, badge_ok, get_prop_opt.
  destruct (get_prop_not_nullish x (js "type") H) as [ty ->].
  destruct (get_prop_not_nullish x (js "title") H) as [ti ->].
  destruct (get_prop_not_nullish x (js "description") H) as [de ->].
  simpl. eexists; split; [reflexivity|]. simpl.
  destruct (is_string ty (js "info_collecting")) eqn:E.
  - apply is_string_spec in E; subst ty.
    repeat split; auto; try discriminate. intros N; contradiction N; reflexivity.
  - assert (N : ty <> VStr (js "info_collecting")).
    { intros ->. rewrite (proj2 (is_string_spec _ _) eq_refl) in E.
      discriminate. }
    repeat split.
    + intros ->; contradiction N; reflexivity.
    + intros _ Hn. destruct ty; simpl in *; try reflexivity; discriminate.
    + intros Hn. destruct ty; simpl in *; try reflexivity; discriminate.
Qed.

Lemma lookup_In {A} (k : jsstring) (l : list (jsstring * A)) (x : A) :
  lookup k l = Some x -> In (k, x) l.
Proof.
  induction l as [|[k' v] l IH]; simpl; [discriminate|].
  destruct (str_eqb k k') eqn:E.
  - apply str_eqb_eq in E; subst. intros H; inversion H; auto.
  - auto.
Qed.

Lemma lookup_defined (props : list (jsstring * value)) (k : jsstring)
  (x : value) :
  props_ok props -> lookup k props = Some x -> is_undefined x = false.
Proof.
  intros [_ F] E. apply lookup_In in E.
  rewrite Forall_forall in F. apply (F _ E).
Qed.

(** The memo of the card keeps a decoded object with a [title] or a [steps]
    field, and is [null] for every other decoded value. *)
Lemma editorData_structured (m : Message) (props : list (jsstring * value)) :
  decode (JString (content m)) VNull = Return (VObj props) ->
  has_field props (js "title") || has_field props (js "steps") = true ->
  editorData_of m = Return (VObj props).
Proof.
  intros D H.
  assert (Fb : val_ok VNull) by (split; [reflexivity | exact I]).
  pose proof (decode_ok _ _ _ Fb D) as [_ O].
  unfold editorData_of. unfold decode in D. rewrite D. simpl bind.
  unfold has_field in H.
  destruct (lookup (js "title") props) as [x|] eqn:T.
  - rewrite (lookup_defined props _ x O T); reflexivity.
  - destruct (lookup (js "steps") props) as [y|] eqn:S; [|discriminate].
    simpl. rewrite (lookup_defined props _ y O S); reflexivity.
Qed.

Lemma editorData_plain (m : Message) (v : value) :
  decode (JString (content m)) VNull = Return v ->
  (forall props, v = VObj props ->
     has_field props (js "title") = false
     /\ has_field props (js "steps") = false) ->
  editorData_of m = Return VNull.
Proof.
  intros D H. unfold editorData_of. unfold decode in D. rewrite D.
  destruct v as [| | | | | |props]; try reflexivity;
    try (simpl bind; simpl typeof_object; rewrite andb_false_r; reflexivity).
  destruct (H props eq_refl) as [T S]. unfold has_field in T, S.
  simpl bind.
  destruct (lookup (js "title") props); [discriminate|].
  destruct (lookup (js "steps") props); [discriminate|].
  reflexivity.
Qed.




(* ================================================================== *)
(** * Part III: further properties of the code *)
(* ================================================================== *)

(** ** Further properties of [parseJSON] *)

Lemma trim_spaces (w1 s w2 : jsstring) :
  all_space w1 -> all_space w2 -> trim (w1 ++ s ++ w2) = trim s.
Proof.
  intros A1 A2. unfold trim. rewrite (drop_while_spaces _ _ A1).
  destruct (drop_while is_space s) as [|c r] eqn:E.
  - rewrite (drop_while_app_all _ _ _ E).
    rewrite (proj2 (drop_while_nil is_space w2) A2). reflexivity.
  - rewrite drop_while_app by (rewrite E; discriminate).
    rewrite E, rev_app_distr.
    rewrite drop_while_spaces by (apply Forall_rev; exact A2). reflexivity.
Qed.

Lemma trim_nil_iff (s : jsstring) : trim s = [] <-> all_space s.
Proof.
  unfold trim, all_space. split.
  - intros H. apply drop_while_nil.
    destruct (drop_while is_space s) as [|c r] eqn:E; [reflexivity|].
    assert (H' : drop_while is_space (rev (c :: r)) = []).
    { destruct (drop_while is_space (rev (c :: r))) as [|a l]; [reflexivity|].
      simpl in H. apply app_eq_nil in H. destruct H; discriminate. }
    clear H; rename H' into H.
    apply drop_while_nil in H. apply Forall_rev in H.
    rewrite rev_involutive in H. inversion H; subst.
    rewrite (drop_while_head _ _ _ _ E) in *. discriminate.
  - intros F. rewrite (proj2 (drop_while_nil _ _) F). reflexivity.
Qed.

(** A text that neither begins nor ends with whitespace is its own trim. *)
Lemma trim_fixed (c : N) (s : jsstring) :
  is_space c = false -> is_space (last (c :: s) c) = false ->
  trim (c :: s) = c :: s.
Proof.
  intros H L. unfold trim. rewrite (drop_while_keep _ _ _ H).
  destruct (exists_last (l := c :: s)) as [y [d E]]; [discriminate|].
  rewrite E in *. rewrite last_last in L.
  rewrite rev_unit, (drop_while_keep _ _ _ L).
  simpl. rewrite rev_involutive. reflexivity.
Qed.

(** X1.  White space around the text does not matter to [parseJSON]: for every
    parser, a non-empty text decodes the same with any run of white space in
    front of it and behind it. *)
Theorem parseJSON_outer_whitespace (p : jsstring -> result value)
  (w1 s w2 : jsstring) (fallback : value) :
  all_space w1 -> all_space w2 -> s <> [] ->
  strip_fences (w1 ++ s ++ w2) = strip_fences s
  /\ parseJSON p (JString (w1 ++ s ++ w2)) fallback
     = parseJSON p (JString s) fallback.
Proof.
  intros A1 A2 N.
  assert (E : strip_fences (w1 ++ s ++ w2) = strip_fences s)
    by (unfold strip_fences; rewrite (trim_spaces _ _ _ A1 A2); reflexivity).
  split; [exact E|].
  destruct s as [|c s]; [contradiction N; reflexivity|].
  destruct (w1 ++ (c :: s) ++ w2) as [|c' s'] eqn:W.
  - destruct w1; discriminate.
  - rewrite !parseJSON_string, E. reflexivity.
Qed.

Lemma parseJSON_outer_whitespace_witness :
  parseJSON parse (JString (js "  " ++ nl ++ jq "{'a':1}" ++ nl)) VNull
  = parseJSON parse (JString (jq "{'a':1}")) VNull.
Proof.
  apply (proj2 (parseJSON_outer_whitespace parse (js "  " ++ nl)
                  (jq "{'a':1}") nl VNull
                  ltac:(repeat constructor) ltac:(repeat constructor)
                  ltac:(discriminate))).
Defined.

Lemma replace_trailing_none (s : jsstring) :
  strip_prefix (rev fence) (rev s) = None -> replace_trailing_fence s = s.
Proof. unfold replace_trailing_fence; intros ->; reflexivity. Qed.

(** X2.  A text that, once trimmed, neither begins nor ends with a fence
    reaches the parser trimmed and otherwise unchanged. *)
Theorem parseJSON_without_fences (p : jsstring -> result value)
  (s : jsstring) (fallback : value) :
  s <> [] ->
  strip_prefix fence (trim s) = None ->
  strip_prefix (rev fence) (rev (trim s)) = None ->
  strip_fences s = trim s
  /\ parseJSON p (JString s) fallback
     = Return (match p (trim s) with
               | Return v => v
               | Throw _ => fallback
               end).
Proof.
  intros N H T.
  assert (E : strip_fences s = trim s).
  { unfold strip_fences.
    rewrite (@replace_leading_no_fence (js "```json") (js "json") _ H eq_refl).
    rewrite (@replace_leading_no_fence (js "```js") (js "js") _ H eq_refl).
    rewrite (@replace_leading_no_fence (js "```ts") (js "ts") _ H eq_refl).
    rewrite (@replace_leading_no_fence (js "```plaintext") (js "plaintext")
               _ H eq_refl).
    rewrite (@replace_leading_no_fence (js "```") [] _ H eq_refl).
    apply replace_trailing_none; exact T. }
  split; [exact E|].
  destruct s as [|c s]; [contradiction N; reflexivity|].
  rewrite parseJSON_string, E; reflexivity.
Qed.

Lemma parseJSON_without_fences_witness :
  parseJSON parse (JString (js " [1] ")) VNull
  = Return (match parse (trim (js " [1] ")) with
            | Return v => v
            | Throw _ => VNull
            end).
Proof.
  apply (proj2 (parseJSON_without_fences parse (js " [1] ") VNull
                  ltac:(discriminate) ltac:(vm_compute; reflexivity)
                  ltac:(vm_compute; reflexivity))).
Defined.

Lemma trim_fixed_rev (c : N) (s : jsstring) (d : N) (r : jsstring) :
  is_space c = false -> rev (c :: s) = d :: r -> is_space d = false ->
  trim (c :: s) = c :: s.
Proof.
  intros H E L. unfold trim.
  rewrite (drop_while_keep _ _ _ H), E, (drop_while_keep _ _ _ L), <- E.
  apply rev_involutive.
Qed.

Lemma strip_prefix_mismatch (pre : jsstring) (k : N) (pt : jsstring) (h : N)
  (x : jsstring) :
  k <> h -> strip_prefix (pre ++ k :: pt) (pre ++ h :: x) = None.
Proof.
  intros D; induction pre as [|a pre IH]; simpl.
  - destruct (N.eqb_spec k h); [contradiction | reflexivity].
  - rewrite N.eqb_refl; exact IH.
Qed.

Lemma replace_leading_mismatch (pat text pre : jsstring) (k : N)
  (pt : jsstring) (h : N) (x : jsstring) :
  pat = pre ++ k :: pt -> text = pre ++ h :: x -> k <> h ->
  replace_leading pat text = text.
Proof.
  intros -> -> D. apply replace_leading_None, strip_prefix_mismatch, D.
Qed.

Lemma replace_leading_match (pat w : jsstring) (c : N) (y : jsstring) :
  all_space w -> is_space c = false ->
  replace_leading pat (pat ++ w ++ c :: y) = c :: y.
Proof.
  intros A H. unfold replace_leading.
  rewrite strip_prefix_same, (drop_while_spaces _ _ A).
  apply drop_while_keep; exact H.
Qed.

Lemma rev_head_app (a b : jsstring) (d : N) (tl : jsstring) :
  rev b = d :: tl -> rev (a ++ b) = d :: (tl ++ rev a).
Proof. intros H; rewrite rev_app_distr, H; reflexivity. Qed.

Lemma space_head (w : jsstring) (c : N) (y : jsstring) :
  all_space w ->
  exists h x, w ++ c :: y = h :: x /\ (is_space h = true \/ h = c).
Proof.
  intros A; destruct A as [|a w Ha _]; simpl; eexists; eexists; split;
    try reflexivity; auto.
Qed.

Lemma brace_not_letter (h c : N) :
  (c = 123 \/ c = 91)%N -> is_space h = true \/ h = c ->
  (111 <> h /\ 106 <> h /\ 116 <> h /\ 112 <> h /\ 96 <> h)%N.
Proof.
  intros C [S | ->].
  - repeat split; intros <-; vm_compute in S; discriminate.
  - destruct C as [ -> | -> ]; repeat split; discriminate.
Qed.

(** The five leading replacements of [parseJSON] on a text that opens with a
    marker, white space and a brace or a bracket. *)
Lemma leading_chain_marker (marker w : jsstring) (c : N) (y : jsstring) :
  In marker opening_markers -> all_space w -> (c = 123 \/ c = 91)%N ->
  replace_leading (js "```")
    (replace_leading (js "```plaintext")
      (replace_leading (js "```ts")
        (replace_leading (js "```js")
          (replace_leading (js "```json") (marker ++ w ++ c :: y)))))
  = c :: y.
Proof.
  intros M A C.
  assert (Sc : is_space c = false) by (destruct C as [ -> | -> ]; reflexivity).
  assert (Nf : strip_prefix fence (c :: y) = None)
    by (destruct C as [ -> | -> ]; reflexivity).
  destruct (space_head w c y A) as [h [x [E H]]].
  destruct (brace_not_letter h c C H) as [No [Nj [Nt [Np Nb]]]].
  pose proof (@replace_leading_no_fence (js "```js") (js "js") _ Nf eq_refl)
    as Kjs.
  pose proof (@replace_leading_no_fence (js "```ts") (js "ts") _ Nf eq_refl)
    as Kts.
  pose proof (@replace_leading_no_fence (js "```plaintext") (js "plaintext")
                _ Nf eq_refl) as Kpl.
  pose proof (@replace_leading_no_fence (js "```") [] _ Nf eq_refl) as Kb.
  unfold opening_markers in M. simpl in M.
  destruct M as [ <- | [ <- | [ <- | [ <- | [ <- | [] ]]]]].
  - rewrite (replace_leading_match (js "```json") w c y A Sc).
    rewrite Kjs, Kts, Kpl, Kb; reflexivity.
  - rewrite E.
    rewrite (replace_leading_mismatch (js "```json") (js "```js" ++ h :: x)
               (js "```js") 111 (js "n") h x eq_refl eq_refl No).
    rewrite <- E.
    rewrite (replace_leading_match (js "```js") w c y A Sc).
    rewrite Kts, Kpl, Kb; reflexivity.
  - rewrite (replace_leading_mismatch (js "```json")
               (js "```ts" ++ w ++ c :: y) (js "```") 106 (js "son") 116
               (js "s" ++ w ++ c :: y) eq_refl eq_refl) by discriminate.
    rewrite (replace_leading_mismatch (js "```js")
               (js "```ts" ++ w ++ c :: y) (js "```") 106 (js "s") 116
               (js "s" ++ w ++ c :: y) eq_refl eq_refl) by discriminate.
    rewrite (replace_leading_match (js "```ts") w c y A Sc).
    rewrite Kpl, Kb; reflexivity.
  - rewrite (replace_leading_mismatch (js "```json")
               (js "```plaintext" ++ w ++ c :: y) (js "```") 106 (js "son")
               112 (js "laintext" ++ w ++ c :: y) eq_refl eq_refl)
      by discriminate.
    rewrite (replace_leading_mismatch (js "```js")
               (js "```plaintext" ++ w ++ c :: y) (js "```") 106 (js "s")
               112 (js "laintext" ++ w ++ c :: y) eq_refl eq_refl)
      by discriminate.
    rewrite (replace_leading_mismatch (js "```ts")
               (js "```plaintext" ++ w ++ c :: y) (js "```") 116 (js "s")
               112 (js "laintext" ++ w ++ c :: y) eq_refl eq_refl)
      by discriminate.
    rewrite (replace_leading_match (js "```plaintext") w c y A Sc).
    rewrite Kb; reflexivity.
  - rewrite E.
    rewrite (replace_leading_mismatch (js "```json") (js "```" ++ h :: x)
               (js "```") 106 (js "son") h x eq_refl eq_refl Nj).
    rewrite (replace_leading_mismatch (js "```js") (js "```" ++ h :: x)
               (js "```") 106 (js "s") h x eq_refl eq_refl Nj).
    rewrite (replace_leading_mismatch (js "```ts") (js "```" ++ h :: x)
               (js "```") 116 (js "s") h x eq_refl eq_refl Nt).
    rewrite (replace_leading_mismatch (js "```plaintext") (js "```" ++ h :: x)
               (js "```") 112 (js "laintext") h x eq_refl eq_refl Np).
    rewrite <- E.
    apply (replace_leading_match (js "```") w c y A Sc).
Qed.

Lemma trailing_closing (body q : jsstring) (d : N) (tl : jsstring) :
  rev body = d :: tl -> is_space d = false -> closing body q ->
  replace_trailing_fence (body ++ q) = body.
Proof.
  intros R D [[-> T]|[w [A ->]]].
  - rewrite app_nil_r. apply replace_trailing_none; exact T.
  - unfold replace_trailing_fence.
    rewrite !rev_app_distr, <- app_assoc, strip_prefix_same.
    rewrite drop_while_spaces by (apply Forall_rev; exact A).
    rewrite R, (drop_while_keep _ _ _ D), <- R. apply rev_involutive.
Qed.

(** X3.  A document that starts with a brace or a bracket and does not end in
    white space, wrapped in any of the five opening markers with any white
    space behind the marker, and closed by a fence behind any white space or
    not closed yet, reaches the parser as the document itself. *)
Theorem parseJSON_unwraps_fence (p : jsstring -> result value)
  (marker w q : jsstring) (c : N) (rest : jsstring) (d : N) (tl : jsstring)
  (fallback : value) :
  In marker opening_markers -> all_space w ->
  (c = 123 \/ c = 91)%N ->
  rev (c :: rest) = d :: tl -> is_space d = false ->
  closing (c :: rest) q ->
  strip_fences (marker ++ w ++ (c :: rest) ++ q) = c :: rest
  /\ parseJSON p (JString (marker ++ w ++ (c :: rest) ++ q)) fallback
     = Return (match p (c :: rest) with
               | Return v => v
               | Throw _ => fallback
               end).
Proof.
  intros M A C R D Q.
  assert (E : strip_fences (marker ++ w ++ (c :: rest) ++ q) = c :: rest).
  { assert (T : trim (marker ++ w ++ (c :: rest) ++ q)
                = marker ++ w ++ (c :: rest) ++ q).
    { assert (exists d' r', rev (marker ++ w ++ (c :: rest) ++ q) = d' :: r'
                            /\ is_space d' = false) as [d' [r' [Er Dr]]].
      { destruct Q as [[-> _]|[w' [_ ->]]].
        - rewrite app_nil_r, app_assoc, (rev_head_app _ _ _ _ R).
          eexists; eexists; split; [reflexivity | exact D].
        - rewrite !app_assoc.
          rewrite (rev_head_app _ fence 96%N [96%N; 96%N] eq_refl).
          eexists; eexists; split; reflexivity. }
      assert (exists m', marker = 96%N :: m') as [m' ->].
      { unfold opening_markers in M; simpl in M.
        destruct M as [ <- | [ <- | [ <- | [ <- | [ <- | [] ]]]]];
          eexists; reflexivity. }
      apply (trim_fixed_rev 96%N _ d' r' eq_refl Er Dr). }
    unfold strip_fences. rewrite T.
    change ((c :: rest) ++ q) with (c :: (rest ++ q)).
    rewrite (leading_chain_marker marker w c (rest ++ q) M A C).
    change (c :: rest ++ q) with ((c :: rest) ++ q).
    apply (trailing_closing _ _ d tl R D Q). }
  split; [exact E|].
  destruct (marker ++ w ++ (c :: rest) ++ q) as [|a s] eqn:X.
  - destruct marker; [|discriminate].
    unfold opening_markers in M; simpl in M.
    destruct M as [H|[H|[H|[H|[H|[]]]]]]; discriminate H.
  - rewrite parseJSON_string, E; reflexivity.
Qed.

Lemma parseJSON_unwraps_fence_witness :
  strip_fences (js "```ts" ++ nl ++ jq "[{'a':1}" ++ []) = jq "[{'a':1}"
  /\ strip_fences (js "```" ++ nl ++ jq "{'a':1}" ++ (nl ++ fence))
     = jq "{'a':1}".
Proof.
  split.
  - refine (proj1 (parseJSON_unwraps_fence parse (js "```ts") nl [] 91
                     (jq "{'a':1}") 125 (rev (jq "[{'a':1")) VNull
                     _ _ _ _ _ _)).
    + vm_compute; tauto.
    + repeat constructor.
    + right; reflexivity.
    + reflexivity.
    + reflexivity.
    + left; split; reflexivity.
  - refine (proj1 (parseJSON_unwraps_fence parse (js "```") nl (nl ++ fence)
                     123 (jq "'a':1}") 125 (rev (jq "{'a':1")) VNull
                     _ _ _ _ _ _)).
    + vm_compute; tauto.
    + repeat constructor.
    + left; reflexivity.
    + reflexivity.
    + reflexivity.
    + right; exists nl; split; [repeat constructor | reflexivity].
Defined.

(** ** Further properties of [MessageListItem] *)

Lemma listed_false (m : Message) (s : bool) :
  listed m s = false ->
  agent_is m "planner" = false /\ agent_is m "podcast" = false
  /\ agent_is m "outline" = false /\ agent_is m "editor_team" = false
  /\ agent_is m "evaluator" = false /\ s = false.
Proof.
  unfold listed. intros H.
  repeat (apply orb_false_iff in H; destruct H as [H ?]).
  repeat split; assumption.
Qed.

Ltac item_cases m s :=
  destruct (agent_is m "planner"), (agent_is m "podcast"),
    (agent_is m "outline"), (agent_is m "editor_team"),
    (agent_is m "evaluator"), s, (nonempty (content m)); simpl.

(** X4.  A message id that the store does not know renders nothing at all.  A
    stored message gets a list item exactly when it is a planner or podcast
    message, or it starts a research session and is not an outline,
    editor_team or evaluator message, or it is a listed message with
    non-empty content; otherwise the item is [null]. *)
Theorem MessageListItem_shows (st : Store) (messageId : jsstring)
  (waitForFeedback : bool) (interruptMessage : option Message) :
  let item := MessageListItem st messageId waitForFeedback interruptMessage in
  let start := existsb (str_eqb messageId) (researchIds st) in
  match useMessage st messageId with
  | None => item = RUndefined
  | Some m =>
      if shows_item m start then exists e, item = RNode e else item = RNull
  end.
Proof.
  intros item start. unfold item, MessageListItem. fold start.
  destruct (useMessage st messageId) as [m|]; [|reflexivity].
  unfold shows_item.
  destruct (listed m start) eqn:L.
  - clear L. item_cases m start; try reflexivity; eexists; reflexivity.
  - destruct (listed_false m start L) as [-> [-> [-> [-> [-> ->]]]]].
    reflexivity.
Qed.

(** X5.  The research card is chosen after the agent: a stored message is
    rendered as the research card of its own id exactly when its id starts a
    research session and its agent has no card of its own; a planner,
    podcast, outline, editor_team or evaluator message that starts a session
    keeps its own card or, with empty content, renders nothing. *)
Theorem MessageListItem_research_card (st : Store) (messageId : jsstring)
  (waitForFeedback : bool) (interruptMessage : option Message) (m : Message) :
  useMessage st messageId = Some m ->
  let item := MessageListItem st messageId waitForFeedback interruptMessage in
  let start := existsb (str_eqb messageId) (researchIds st) in
  (start && negb (card_agent m) = true -> item = RNode (ResearchCardE (id m)))
  /\ (forall r, item = RNode (ResearchCardE r) ->
        start = true /\ card_agent m = false /\ r = id m).
Proof.
  intros Hm item start. unfold item, MessageListItem, card_agent. fold start.
  rewrite Hm.
  destruct (listed m start) eqn:L.
  - clear L. split.
    + item_cases m start; intros H; try discriminate H; reflexivity.
    + intros r. item_cases m start; intros H; inversion H; auto.
  - destruct (listed_false m start L) as [-> [-> [-> [-> [-> ->]]]]].
    split; [discriminate|]. intros r H; discriminate H.
Qed.

Lemma MessageListItem_research_card_witness :
  let plain := mkMessage (js "m1") assistant None [] None false None in
  let plan := mkMessage (js "m1") assistant (Some (js "planner")) [] None
                false None in
  let store m := mkStore [js "m1"] [(js "m1", m)] [js "m1"] [] None
                   VUndefined [] in
  MessageListItem (store plain) (js "m1") false None
    = RNode (ResearchCardE (js "m1"))
  /\ MessageListItem (store plan) (js "m1") false None
     = RNode (PlanCardE plan false None).
Proof.
  intros plain plan store. split.
  - apply (proj1 (MessageListItem_research_card (store plain) (js "m1") false
                    None plain eq_refl)).
    reflexivity.
  - reflexivity.
Defined.

(** X6.  A stored message whose agent has no card of its own and whose id
    does not start a research session never makes the render throw: it is
    shown as a bubble of its content, as it is, when it is listed and its
    content is not empty, and as nothing otherwise. *)
Theorem bubble_render (t : string -> jsstring) (st : Store)
  (messageId : jsstring) (waitForFeedback : bool)
  (interruptMessage : option Message) (m : Message) :
  useMessage st messageId = Some m ->
  card_agent m = false ->
  existsb (str_eqb messageId) (researchIds st) = false ->
  render_item t st messageId waitForFeedback interruptMessage
  = Return (if listed m false && nonempty (content m)
            then RNode (MessageBubbleV (role m) (content m))
            else RNull).
Proof.
  intros Hm C S. unfold render_item, MessageListItem. rewrite Hm, S.
  unfold card_agent in C.
  repeat (apply orb_false_iff in C; destruct C as [C ?]).
  rewrite C. repeat match goal with H : agent_is _ _ = false |- _ =>
                      rewrite H; clear H end.
  destruct (listed m false); [|reflexivity].
  destruct (nonempty (content m)); reflexivity.
Qed.

Lemma bubble_render_witness :
  let m := mkMessage (js "m2") user None (js "hello **world**") None false
             None in
  render_item js (mkStore [js "m2"] [(js "m2", m)] [] [] None VUndefined [])
    (js "m2") false None
  = Return (RNode (MessageBubbleV user (js "hello **world**"))).
Proof.
  intros m.
  apply (bubble_render js
           (mkStore [js "m2"] [(js "m2", m)] [] [] None VUndefined [])
           (js "m2") false None m eq_refl eq_refl eq_refl).
Defined.

(** ** When the cards render *)

Lemma map_result_indexed_iff {B} (f : value -> nat -> result B)
  (P : value -> bool) (xs : list nat) (l : list value) :
  (forall x i, (exists b, f x i = Return b) <-> P x = true) ->
  List.length xs = List.length l ->
  (exists bs, map_result (fun ix => f (snd ix) (fst ix)) (combine xs l)
              = Return bs)
  <-> forallb P l = true.
Proof.
  intros Hf. revert xs; induction l as [|x l IH]; intros [|i xs] L;
    simpl in *; try discriminate.
  - split; [reflexivity | eexists; reflexivity].
  - rewrite andb_true_iff, <- (Hf x i), <- (IH xs) by lia. split.
    + destruct (f x i) as [b|]; simpl; [|intros [bs H]; discriminate H].
      destruct (map_result _ (combine xs l)) as [bs'|]; simpl;
        [|intros [bs H]; discriminate H].
      intros _; split; eexists; reflexivity.
    + intros [[b ->] [bs ->]]. simpl. eexists; reflexivity.
Qed.

Lemma optional_map_iff {B} (f : value -> nat -> result B) (v : value) :
  (forall x i, (exists b, f x i = Return b) <-> negb (is_nullish x) = true) ->
  (exists r, optional_map f v = Return r) <-> entries_ok v = true.
Proof.
  intros Hf. unfold optional_map, entries_ok.
  destruct (truthy v) eqn:T; simpl.
  - destruct v; simpl in *;
      try (split; [intros [r H]; discriminate H | discriminate]).
    rewrite <- (map_result_indexed_iff f _ (seq 0 (List.length l)) l Hf)
      by apply length_seq.
    split.
    + destruct (map_result _ _) as [bs|]; simpl;
        [intros _; eexists; reflexivity | intros [r H]; discriminate H].
    + intros [bs ->]; simpl; eexists; reflexivity.
  - split; [reflexivity | intros _; eexists; reflexivity].
Qed.

Lemma get_prop_returns (x : value) (name : jsstring) :
  (exists y, get_prop x name = Return y) <-> is_nullish x = false.
Proof.
  destruct x; simpl; split; try discriminate; try reflexivity;
    try (intros [y H]; discriminate H); intros _; eexists; reflexivity.
Qed.

Lemma get_prop_opt_eq (x : value) (name : jsstring) :
  is_nullish x = false -> get_prop x name = Return (get_prop_opt x name).
Proof.
  intros H. unfold get_prop_opt.
  destruct (proj2 (get_prop_returns x name) H) as [y ->]; reflexivity.
Qed.

Lemma get_prop_throws (x : value) (name : jsstring) :
  is_nullish x = true -> get_prop x name = Throw TypeError.
Proof. destruct x; simpl; try discriminate; reflexivity. Qed.

Lemma entry_of_returns (x : value) (i : nat) :
  (exists e, entry_of x i = Return e) <-> negb (is_nullish x) = true.
Proof.
  rewrite negb_true_iff. split.
  - destruct (is_nullish x) eqn:E; [|reflexivity].
    unfold entry_of. rewrite (get_prop_throws x _ E).
    intros [e H]; discriminate H.
  - apply entry_of_total.
Qed.

Lemma editor_step_of_returns (x : value) (i : nat) :
  (exists e, editor_step_of x i = Return e) <-> negb (is_nullish x) = true.
Proof.
  rewrite negb_true_iff. split.
  - destruct (is_nullish x) eqn:E; [|reflexivity].
    unfold editor_step_of. rewrite (get_prop_throws x _ E).
    intros [e H]; discriminate H.
  - intros H. destruct (editor_step_of_spec x i H) as [sv [E _]].
    exists sv; exact E.
Qed.

Lemma shown_convertible (d : jsstring) (title : value) :
  string_convertible
    (if negb (is_undefined title) && negb (is_string title [])
     then title else VStr d)
  = string_convertible title.
Proof.
  destruct title as [| |b|x|s|l|props]; try reflexivity.
  destruct s; reflexivity.
Qed.

Lemma heading_bind {B} (v : value) (k : template -> result B) :
  (exists b, (h <- heading v ;; k h) = Return b)
  <-> string_convertible v = true
      /\ exists b, k (mkTemplate (js "### ") v) = Return b.
Proof.
  unfold heading. destruct (string_convertible v); simpl.
  - split; [intros H; split; [reflexivity | exact H] | intros [_ H]; exact H].
  - split; [intros [b H]; discriminate H | intros [H _]; discriminate H].
Qed.

(** X7.  The plan card renders exactly when the content is blank, so that no
    plan is shown, or the decoded plan is not [null], its [title] has a
    string for the heading, and its [steps] are falsy or an array without
    [null] entry; in every other case the render throws. *)
Theorem PlanCard_renders (t : string -> jsstring) (m : Message)
  (waitForFeedback : bool) (interruptMessage : option Message) (v : value) :
  decode (JString (content m)) (VObj []) = Return v ->
  (exists view, PlanCard t m waitForFeedback interruptMessage = Return view)
  <-> hasMainContent_of m = false
      \/ (is_nullish v = false
          /\ string_convertible (get_prop_opt v (js "title")) = true
          /\ entries_ok (get_prop_opt v (js "steps")) = true).
Proof.
  intros D. unfold PlanCard. unfold decode in D. rewrite D. simpl bind.
  destruct (hasMainContent_of m).
  - destruct (is_nullish v) eqn:Nv.
    + rewrite (get_prop_throws v _ Nv). simpl. split.
      * intros [view H]; discriminate H.
      * intros [H|[H _]]; discriminate H.
    + rewrite (get_prop_opt_eq v (js "title") Nv). simpl bind.
      rewrite heading_bind, shown_convertible.
      rewrite !(get_prop_opt_eq v _ Nv). simpl bind.
      rewrite <- (optional_map_iff entry_of _ entry_of_returns). split.
      * intros [T H]; right; split; [reflexivity|]. split; [exact T|].
        destruct (optional_map entry_of _) as [r|]; simpl in *;
          [eexists; reflexivity | destruct H as [view H]; discriminate H].
      * intros [H|[_ [T [r E]]]]; [discriminate H|].
        split; [exact T|]. rewrite E. simpl; eexists; reflexivity.
  - split; [intros _; left; reflexivity | intros _; eexists; reflexivity].
Qed.

Lemma PlanCard_renders_witness :
  let m := mkMessage (js "m1") assistant (Some (js "planner"))
             (jq "{'title':'T','steps':[{'title':'a'},{") None true None in
  exists view, PlanCard js m false None = Return view.
Proof.
  intros m.
  apply (proj2 (PlanCard_renders js m false None
                  (VObj [(js "title", VStr (js "T"));
                         (js "steps",
                          VArr [VObj [(js "title", VStr (js "a"))]; VObj []])])
                  ltac:(vm_compute; reflexivity))).
  right; repeat split; reflexivity.
Defined.

Lemma OutlineMessage_view_returns (v : value) :
  (exists view, OutlineMessage_view v = Return view)
  <-> is_nullish v = false
      /\ string_convertible (get_prop_opt v (js "title")) = true
      /\ entries_ok (get_prop_opt v (js "sections")) = true.
Proof.
  unfold OutlineMessage_view.
  destruct (is_nullish v) eqn:Nv.
  - rewrite (get_prop_throws v _ Nv). simpl. split.
    + intros [view H]; discriminate H.
    + intros [H _]; discriminate H.
  - rewrite (get_prop_opt_eq v (js "title") Nv). simpl bind.
    rewrite heading_bind, nullish_convertible.
    rewrite !(get_prop_opt_eq v _ Nv). simpl bind.
    rewrite <- (optional_map_iff entry_of _ entry_of_returns). split.
    + intros [T H]; split; [reflexivity|]. split; [exact T|].
      destruct (optional_map entry_of _) as [r|]; simpl in *;
        [eexists; reflexivity | destruct H as [view H]; discriminate H].
    + intros [_ [T [r E]]]. split; [exact T|].
      rewrite E. simpl; eexists; reflexivity.
Qed.

(** X8.  A render of the outline card commits exactly when the decoded
    outline is not [null], its [title] has a string for the heading, and its
    [sections] are falsy or an array without [null] entry; in every other
    case the render throws, and its effect does not run. *)
Theorem OutlineMessage_renders (m : Message) (h : OutlineHooks) (st : Store)
  (v : value) :
  memo_ok h ->
  decode (JString (content m)) (VObj []) = Return v ->
  (exists x, OutlineMessage m (h, st) = Return x)
  <-> is_nullish v = false
      /\ string_convertible (get_prop_opt v (js "title")) = true
      /\ entries_ok (get_prop_opt v (js "sections")) = true.
Proof.
  intros M D.
  destruct (use_outline_spec m h v M D) as [r [h1 [U _]]].
  rewrite <- OutlineMessage_view_returns.
  unfold OutlineMessage. rewrite U. simpl bind.
  destruct (is_nullish v) eqn:Nv.
  - rewrite (get_prop_throws v _ Nv). simpl. split.
    + intros [x H]; discriminate H.
    + intros H. apply OutlineMessage_view_returns in H.
      destruct H as [H _]; congruence.
  - rewrite (get_prop_opt_eq v (js "sections") Nv). simpl bind.
    destruct (OutlineMessage_view v) as [view|]; simpl.
    + split; intros _; [eexists; reflexivity|].
      destruct (same_deps _ _); [eexists; reflexivity|].
      destruct (negb (isStreaming m) && truthy _); eexists; reflexivity.
    + split; intros [x H]; discriminate H.
Qed.

Lemma OutlineMessage_renders_witness :
  let m := mkMessage (js "m1") assistant (Some (js "outline"))
             (jq "{'title':'O'") None true None in
  exists x, OutlineMessage m (OutlineMessage_mount,
                              mkStore [] [] [] [] None VUndefined [])
            = Return x.
Proof.
  intros m.
  apply (proj2 (OutlineMessage_renders m OutlineMessage_mount _
                  (VObj [(js "title", VStr (js "O"))]) I
                  ltac:(vm_compute; reflexivity))).
  repeat split; reflexivity.
Defined.

Lemma structured_false (v : value) :
  structured v = false ->
  forall props, v = VObj props ->
    has_field props (js "title") = false
    /\ has_field props (js "steps") = false.
Proof.
  intros S props ->. simpl in S. apply orb_false_iff in S; exact S.
Qed.

(** X9.  The editor-team message renders exactly when the decoded value is
    not taken for a structured one (then it is a bubble), or its [title] has
    a string for the heading and its [steps] are falsy or an array without
    [null] entry; in every other case the render throws. *)
Theorem EditorTeamMessage_renders (m : Message) (v : value) :
  decode (JString (content m)) VNull = Return v ->
  (exists view, EditorTeamMessage m = Return view)
  <-> structured v = false
      \/ (string_convertible (get_prop_opt v (js "title")) = true
          /\ entries_ok (get_prop_opt v (js "steps")) = true).
Proof.
  intros D. destruct (structured v) eqn:S.
  - destruct v as [| | | | | |props]; try discriminate S. simpl in S.
    unfold EditorTeamMessage.
    rewrite (editorData_structured m props D S). simpl bind.
    simpl truthy. cbv iota. unfold get_prop_opt. simpl get_prop. simpl bind.
    rewrite heading_bind, nullish_convertible. simpl bind.
    rewrite <- (optional_map_iff editor_step_of _ editor_step_of_returns).
    split.
    + intros [T H]; right; split; [exact T|].
      destruct (optional_map editor_step_of _) as [r|]; simpl in *;
        [eexists; reflexivity | destruct H as [view H]; discriminate H].
    + intros [H|[T [r E]]]; [discriminate H|].
      split; [exact T|]. rewrite E. simpl; eexists; reflexivity.
  - unfold EditorTeamMessage.
    rewrite (editorData_plain m v D (structured_false v S)). simpl.
    split; [intros _; left; reflexivity | intros _; eexists; reflexivity].
Qed.

Lemma EditorTeamMessage_renders_witness :
  let m := mkMessage (js "m1") assistant (Some (js "editor_team"))
             (js "plain words") None false None in
  exists view, EditorTeamMessage m = Return view.
Proof.
  intros m.
  apply (proj2 (EditorTeamMessage_renders m VNull
                  ltac:(vm_compute; reflexivity))).
  left; reflexivity.
Defined.

(** X10.  The evaluator card renders exactly when the decoded value is not
    [null]: [Object.entries] takes every other value, and throws on
    [null]. *)
Theorem EvaluatorMessage_renders (m : Message) (v : value) :
  decode (JString (content m)) (VObj []) = Return v ->
  (exists items, EvaluatorMessage m = Return items) <-> is_nullish v = false.
Proof.
  intros D. unfold EvaluatorMessage. rewrite evaluationData_decode, D.
  simpl bind.
  destruct v; simpl; split; try discriminate; try reflexivity;
    try (intros [items H]; discriminate H); intros _; eexists; reflexivity.
Qed.

Lemma EvaluatorMessage_renders_witness :
  let m := mkMessage (js "m1") assistant (Some (js "evaluator"))
             (jq "['x','y']") None false None in
  exists items, EvaluatorMessage m = Return items.
Proof.
  intros m.
  apply (proj2 (EvaluatorMessage_renders m
                  (VArr [VStr (js "x"); VStr (js "y")])
                  ltac:(vm_compute; reflexivity))).
  reflexivity.
Defined.

(** X11.  The podcast card renders exactly when [JSON.parse] accepts the
    content and the podcast is still generated, or carries an error, or has a
    title that is absent or a string; a content that is not JSON and a title
    of another type make the render throw. *)
Theorem PodcastCard_renders (m : Message) (isPlaying : bool) :
  (exists view, PodcastCard m isPlaying = Return view)
  <-> exists data, JSON_parse (content m) = Return data
                   /\ podcast_ok m data = true.
Proof.
  destruct (JSON_parse (content m)) as [data|e] eqn:J.
  - assert (K : (exists view, PodcastCard m isPlaying = Return view)
                <-> podcast_ok m data = true).
    { unfold PodcastCard, podcast_ok. rewrite J. simpl bind.
      generalize (get_prop_opt data (js "title")) as title.
      generalize (is_undefined (get_prop_opt data (js "error"))) as err.
      generalize (get_prop_opt data (js "audioUrl")) as url.
      intros url err title.
      destruct err, (isStreaming m); simpl;
        try (split; [reflexivity | intros _; eexists; reflexivity]).
      destruct title; simpl;
        try (split; [reflexivity | intros _; eexists; reflexivity]);
        split; try discriminate; intros [view H]; discriminate H. }
    rewrite K. split.
    + intros H; exists data; auto.
    + intros [d [E H]]; inversion E; subst; exact H.
  - unfold PodcastCard. rewrite J. simpl.
    split; [intros [view H]; discriminate H | intros [d [H _]]; discriminate H].
Qed.

Lemma report_title_returns (st : Store) (researchId : jsstring) :
  (exists title,
     match useResearchMessage st researchId with
     | Some msg =>
         parsed <- parseJSON parse (JString (content msg))
                     (VObj [(js "title", VStr [])]) ;;
         get_prop parsed (js "title")
     | None => Return VUndefined
     end = Return title)
  <-> title_ok st researchId = true.
Proof.
  unfold title_ok, decode.
  destruct (useResearchMessage st researchId) as [msg|].
  - destruct (parseJSON_returns parse (JString (content msg))
                (VObj [(js "title", VStr [])])) as [v ->].
    simpl bind. rewrite negb_true_iff. apply get_prop_returns.
  - split; [reflexivity | intros _; eexists; reflexivity].
Qed.

(** X12.  The research card renders exactly when the report of the session,
    if the store names one, is a stored message, and the start message, if
    stored, does not decode to [null]; a report id without its message makes
    the render throw. *)
Theorem ResearchCard_renders (t : string -> jsstring) (st : Store)
  (researchId : jsstring) :
  (exists view, ResearchCard t st researchId = Return view)
  <-> report_ok st researchId = true /\ title_ok st researchId = true.
Proof.
  rewrite <- report_title_returns.
  unfold ResearchCard, report_ok.
  destruct (lookup researchId (researchReportIds st)) as [rid|].
  - destruct (lookup rid (messages st)) as [report|]; simpl bind.
    + destruct (match useResearchMessage st researchId with
                | Some _ => _ | None => _ end) as [title|]; simpl.
      * split; [intros _; split; [reflexivity | eexists; reflexivity]
               | intros _; eexists; reflexivity].
      * split; [intros [view H]; discriminate H
               | intros [_ [title H]]; discriminate H].
    + split; [intros [view H]; discriminate H | intros [H _]; discriminate H].
  - simpl bind.
    destruct (match useResearchMessage st researchId with
              | Some _ => _ | None => _ end) as [title|]; simpl.
    + split; [intros _; split; [reflexivity | eexists; reflexivity]
             | intros _; eexists; reflexivity].
    + split; [intros [view H]; discriminate H
             | intros [_ [title H]]; discriminate H].
Qed.

Lemma PodcastCard_renders_witness :
  let m := mkMessage (js "m1") assistant (Some (js "podcast"))
             (jq "{'title':7}") None true None in
  exists view, PodcastCard m false = Return view.
Proof.
  intros m. apply (proj2 (PodcastCard_renders m false)).
  exists (VObj [(js "title", VNum (number_of_nat 7))]). split; reflexivity.
Defined.

Lemma ResearchCard_renders_witness :
  let start := mkMessage (js "r1") assistant None (jq "{'title':'Tides'}")
                 None false None in
  let report := mkMessage (js "r2") assistant (Some (js "reporter"))
                  (js "# Tides") None true None in
  exists view,
    ResearchCard js
      (mkStore [js "r1"; js "r2"] [(js "r1", start); (js "r2", report)]
         [js "r1"] [(js "r1", js "r2")] None VUndefined [])
      (js "r1") = Return view.
Proof.
  intros start report.
  apply (proj2 (ResearchCard_renders js _ (js "r1"))).
  split; vm_compute; reflexivity.
Defined.

(** ** What the plan and podcast cards show *)

Lemma hasMainContent_blank (m : Message) :
  hasMainContent_of m = false <-> all_space (content m).
Proof.
  unfold hasMainContent_of. rewrite <- trim_nil_iff.
  destruct (content m) as [|c s] eqn:E; simpl.
  - split; reflexivity.
  - destruct (trim (c :: s)); simpl; split; try reflexivity; discriminate.
Qed.

(** X13.  The plan card shows the plan exactly when the content has a
    character that is not white space, and the reasoning panel exactly when
    there is reasoning text; the panel is marked as streaming exactly when
    the plan is not shown, and it is told of main content exactly when the
    plan is shown. *)
Theorem PlanCard_thinking_or_plan (t : string -> jsstring) (m : Message)
  (waitForFeedback : bool) (interruptMessage : option Message)
  (view : PlanCardView) :
  PlanCard t m waitForFeedback interruptMessage = Return view ->
  (pc_plan view = None <-> all_space (content m))
  /\ (pc_thought view = None
      <-> reasoningContent m = None \/ reasoningContent m = Some [])
  /\ (forall p, pc_thought view = Some p ->
        reasoningContent m = Some (tb_content p)
        /\ (tb_isStreaming p = true <-> pc_plan view = None)
        /\ tb_hasMainContent p = negb (tb_isStreaming p)).
Proof.
  rewrite <- hasMainContent_blank. unfold PlanCard.
  destruct (parseJSON_returns parse (JString (content m)) (VObj []))
    as [plan ->]. simpl bind.
  destruct (hasMainContent_of m) eqn:Hm.
  - destruct (get_prop plan (js "title")) as [ti|]; simpl; [|discriminate].
    destruct (heading _) as [hd|]; simpl; [|discriminate].
    destruct (get_prop plan (js "thought")) as [th|]; simpl; [|discriminate].
    destruct (get_prop plan (js "steps")) as [sp|]; simpl; [|discriminate].
    destruct (optional_map entry_of sp) as [sv|]; simpl; [|discriminate].
    intros H; inversion H; subst; clear H; simpl.
    destruct (reasoningContent m) as [[|c r]|]; simpl;
      (split; [split; discriminate|]);
      (split; [split; [try discriminate; auto
                      | intros [K|K]; try discriminate K; reflexivity]|]);
      intros p K; inversion K; subst; simpl.
    repeat split; discriminate.
  - intros H; inversion H; subst; clear H; simpl.
    destruct (reasoningContent m) as [[|c r]|]; simpl;
      (split; [split; reflexivity|]);
      (split; [split; [try discriminate; auto
                      | intros [K|K]; try discriminate K; reflexivity]|]);
      intros p K; inversion K; subst; simpl.
    repeat split; reflexivity.
Qed.

Lemma PlanCard_thinking_or_plan_witness :
  let m := mkMessage (js "m1") assistant (Some (js "planner")) (js "  ")
             (Some (js "Let me think")) true None in
  exists view,
    PlanCard js m false None = Return view
    /\ pc_plan view = None
    /\ exists p, pc_thought view = Some p /\ tb_isStreaming p = true.
Proof.
  intros m.
  destruct (PlanCard js m false None) as [view|] eqn:E;
    [|vm_compute in E; discriminate E].
  destruct (PlanCard_thinking_or_plan js m false None view E) as [P [T K]].
  exists view. split; [reflexivity|].
  assert (Pn : pc_plan view = None)
    by (apply P; repeat constructor).
  split; [exact Pn|].
  destruct (pc_thought view) as [p|] eqn:Th.
  - exists p; split; [reflexivity|]. apply (K p eq_refl); exact Pn.
  - destruct (proj1 T eq_refl) as [H|H]; discriminate H.
Defined.

Lemma replace_spaces_no_space (s : jsstring) : ~ In 32%N (replace_spaces s).
Proof.
  induction s as [|c s IH]; simpl; [tauto|].
  intros [H|H]; [|exact (IH H)].
  destruct (N.eqb_spec c 32); [discriminate H | congruence].
Qed.

(** X14.  The podcast card offers the download exactly when the podcast is
    no longer generated and carries no error.  The file name then has no
    space and ends in [.mp3]: it is the title with every space replaced by a
    hyphen, or [podcast] when there is no title. *)
Theorem PodcastCard_download (m : Message) (isPlaying : bool)
  (view : PodcastView) :
  PodcastCard m isPlaying = Return view ->
  (pod_download view = None
   <-> isStreaming m = true \/ pod_label view = None)
  /\ (forall href name, pod_download view = Some (href, name) ->
        ~ In 32%N name
        /\ exists stem,
             name = stem ++ js ".mp3"
             /\ stem = match pod_title view with
                       | VStr s => replace_spaces s
                       | _ => js "podcast"
                       end).
Proof.
  unfold PodcastCard.
  destruct (JSON_parse (content m)) as [data|]; simpl bind; [|discriminate].
  generalize (get_prop_opt data (js "title")) as title.
  generalize (is_undefined (get_prop_opt data (js "error"))) as err.
  generalize (get_prop_opt data (js "audioUrl")) as url.
  intros url err title.
  destruct err, (isStreaming m); simpl;
    try (intros H; inversion H; subst; clear H; simpl;
         split; [split; auto; intros [K|K]; try discriminate K; reflexivity
                | intros href name K; discriminate K]).
  destruct title; simpl; try discriminate;
    intros H; inversion H; subst; clear H; simpl;
    (split; [split; [discriminate | intros [K|K]; discriminate K]|]);
    intros href name K; inversion K; subst; clear K.
  - split; [vm_compute; intuition discriminate|].
    exists (js "podcast"). split; reflexivity.
  - split; [vm_compute; intuition discriminate|].
    exists (js "podcast"). split; reflexivity.
  - split; [|exists (replace_spaces s); split; reflexivity].
    intros I. apply in_app_or in I. destruct I as [I|I].
    + exact (replace_spaces_no_space _ I).
    + vm_compute in I. intuition discriminate.
Qed.

Lemma PodcastCard_download_witness :
  let m := mkMessage (js "m1") assistant (Some (js "podcast"))
             (jq "{'title':'Deep sea life','audioUrl':'a.mp3'}") None false
             None in
  exists view href,
    PodcastCard m false = Return view
    /\ pod_download view = Some (href, js "Deep-sea-life.mp3").
Proof.
  intros m.
  destruct (PodcastCard m false) as [view|] eqn:E;
    [|vm_compute in E; discriminate E].
  destruct (PodcastCard_download m false view E) as [_ K].
  assert (T : pod_title view = VStr (js "Deep sea life"))
    by (vm_compute in E; inversion E; reflexivity).
  destruct (pod_download view) as [[href name]|] eqn:Dl;
    [|vm_compute in E; inversion E; subst; discriminate Dl].
  destruct (K href name eq_refl) as [_ [stem [N S]]].
  rewrite T in S. subst stem name.
  exists view, href. split; [reflexivity | exact Dl].
Defined.

(** ** The steps of the editor-team card *)

Lemma map_result_length {A B} (f : A -> result B) (l : list A) (bs : list B) :
  map_result f l = Return bs -> List.length bs = List.length l.
Proof.
  revert bs; induction l as [|a l IH]; simpl; intros bs.
  - intros H; inversion H; reflexivity.
  - destruct (f a) as [b|]; simpl; [|discriminate].
    destruct (map_result f l) as [bs'|]; simpl; [|discriminate].
    intros H; inversion H; subst; simpl. f_equal. apply IH; reflexivity.
Qed.

Lemma map_result_indexed_nth {B} (f : value -> nat -> result B)
  (l : list value) (k : nat) (bs : list B) :
  map_result (fun ix => f (snd ix) (fst ix))
    (combine (seq k (List.length l)) l) = Return bs ->
  forall i x, nth_error l i = Some x ->
    exists b, nth_error bs i = Some b /\ f x (k + i) = Return b.
Proof.
  revert k bs; induction l as [|y l IH]; simpl; intros k bs H i x N.
  - destruct i; discriminate N.
  - destruct (f y k) as [b|] eqn:F; simpl in H; [|discriminate H].
    destruct (map_result _ (combine (seq (S k) (List.length l)) l))
      as [bs'|] eqn:R; simpl in H; [|discriminate H].
    inversion H; subst; clear H.
    destruct i as [|i]; simpl in *.
    + inversion N; subst. exists b. rewrite Nat.add_0_r. auto.
    + destruct (IH (S k) bs' R i x N) as [b' [Nb Fb]].
      exists b'. split; [exact Nb|].
      replace (k + S i) with (S k + i) by lia. exact Fb.
Qed.

(** X15.  When the editor-team card lists steps, there is one per entry of
    the decoded [steps] array, in its order; a step without a title is
    titled with the step label and its position counted from 1, and a step
    without a description gets the placeholder. *)
Theorem editor_steps_numbered (m : Message) (v : value) (title : template)
  (thought : option value) (svs : list EditorStepView) :
  decode (JString (content m)) VNull = Return v ->
  EditorTeamMessage m = Return (EditorCard title thought (Some svs)) ->
  exists l,
    get_prop_opt v (js "steps") = VArr l
    /\ List.length svs = List.length l
    /\ forall i x, nth_error l i = Some x ->
         exists sv,
           nth_error svs i = Some sv
           /\ es_title sv
              = nullish (get_prop_opt x (js "title"))
                  (VStr (step_label ++ js " " ++ dec (i + 1)))
           /\ es_description sv
              = nullish (get_prop_opt x (js "description"))
                  (VStr no_description_label).
Proof.
  intros D E. destruct (structured v) eqn:S.
  - destruct v as [| | | | | |props]; try discriminate S. simpl in S.
    unfold EditorTeamMessage in E.
    rewrite (editorData_structured m props D S) in E. simpl bind in E.
    simpl truthy in E. cbv iota in E.
    unfold get_prop_opt. simpl get_prop. simpl get_prop in E.
    simpl bind in E.
    match type of E with
    | context [heading ?a] => destruct (heading a) as [hd|]
    end; simpl bind in E; [|discriminate E].
    destruct (match lookup (js "steps") props with
              | Some x => x | None => VUndefined end)
      as [| |b|x|s|l|props'] eqn:St;
      unfold optional_map in E; simpl in E; try discriminate E;
      try (destruct b; discriminate E);
      try (destruct x; discriminate E);
      try (destruct s; discriminate E).
    destruct (map_result _ (combine (seq 0 (List.length l)) l))
      as [bs|] eqn:R; simpl in E; [|discriminate E].
    inversion E; subst; clear E.
    exists l. split; [reflexivity|]. split.
    + rewrite (map_result_length _ _ _ R), length_combine, length_seq.
      apply Nat.min_id.
    + intros i x N.
      destruct (map_result_indexed_nth editor_step_of l 0 svs R i x N)
        as [sv [Ns F]].
      exists sv. split; [exact Ns|]. simpl in F.
      unfold editor_step_of in F. unfold get_prop_opt.
      destruct (get_prop x (js "type")); simpl in F; [|discriminate F].
      destruct (get_prop x (js "title")); simpl in F; [|discriminate F].
      destruct (get_prop x (js "description")); simpl in F; [|discriminate F].
      inversion F; subst; simpl. split; reflexivity.
  - unfold EditorTeamMessage in E.
    rewrite (editorData_plain m v D (structured_false v S)) in E.
    discriminate E.
Qed.

Lemma editor_steps_numbered_witness :
  let m := mkMessage (js "m1") assistant (Some (js "editor_team"))
             (jq "{'steps':[{'title':'Collect'},{'type':'writing'}]}")
             None false None in
  exists title thought svs sv,
    EditorTeamMessage m = Return (EditorCard title thought (Some svs))
    /\ nth_error svs 1 = Some sv
    /\ es_title sv = VStr (step_label ++ js " 2").
Proof.
  intros m.
  destruct (EditorTeamMessage m) as [[title thought [svs|]|]|] eqn:E;
    try (vm_compute in E; discriminate E).
  destruct (editor_steps_numbered m
              (VObj [(js "steps",
                      VArr [VObj [(js "title", VStr (js "Collect"))];
                            VObj [(js "type", VStr (js "writing"))]])])
              title thought svs ltac:(vm_compute; reflexivity) E)
    as [l [L [_ K]]].
  vm_compute in L. inversion L; subst l; clear L.
  destruct (K 1 (VObj [(js "type", VStr (js "writing"))]) eq_refl)
    as [sv [Ns [T _]]].
  exists title, thought, svs, sv.
  split; [reflexivity|]. split; [exact Ns|]. rewrite T. reflexivity.
Defined.

(** ** The effect of the outline card over a run of renders *)

Lemma OutlineMessage_inv (m : Message) (h : OutlineHooks) (st : Store)
  (h1 : OutlineHooks) (st1 : Store) (v : OutlineView) :
  OutlineMessage m (h, st) = Return (h1, st1, v) ->
  exists r outline hu sec,
    use_outline m h = Return (r, outline, hu)
    /\ get_prop outline (js "sections") = Return sec
    /\ OutlineMessage_view outline = Return v
    /\ ((same_deps (effect_deps hu) (isStreaming m, dep_of r sec) = true
         /\ h1 = hu /\ st1 = st)
        \/ (same_deps (effect_deps hu) (isStreaming m, dep_of r sec) = false
            /\ h1 = mkOH (memo hu) (Some (isStreaming m, dep_of r sec))
                         (next_ref hu)
            /\ st1 = if negb (isStreaming m) && truthy sec
                     then setEditTeamCount (length_of sec) st else st)).
Proof.
  unfold OutlineMessage.
  destruct (use_outline m h) as [[[r o] hu]|]; simpl; [|discriminate].
  destruct (get_prop o (js "sections")) as [s|] eqn:G; simpl; [|discriminate].
  destruct (OutlineMessage_view o) as [v'|] eqn:V; simpl; [|discriminate].
  destruct (same_deps (effect_deps hu) (isStreaming m, dep_of r s)) eqn:D.
  - intros H; inversion H; subst.
    exists r, o, h1, s. repeat split; auto.
  - intros H. exists r, o, hu, s.
    split; [reflexivity|]. split; [exact G|].
    destruct (negb (isStreaming m) && truthy s); inversion H; subst;
      split; auto.
Qed.

Lemma use_outline_decodes (m : Message) (h : OutlineHooks) (r : nat)
  (outline : value) (hu : OutlineHooks) :
  memo_ok h -> use_outline m h = Return (r, outline, hu) ->
  decode (JString (content m)) (VObj []) = Return outline.
Proof.
  intros M U. unfold decode.
  destruct (parseJSON_returns parse (JString (content m)) (VObj []))
    as [o P].
  destruct (use_outline_spec m h o M P) as [r' [h' [U' _]]].
  rewrite U in U'. inversion U'; subst. exact P.
Qed.

Lemma sections_counted (outline sec : value) (v : OutlineView) :
  get_prop outline (js "sections") = Return sec ->
  OutlineMessage_view outline = Return v ->
  truthy sec = true ->
  exists l, sec = VArr l /\ Forall (fun x => is_nullish x = false) l.
Proof.
  intros G V T.
  destruct (proj1 (OutlineMessage_view_returns outline)
              (ex_intro _ v V)) as [N [_ E]].
  rewrite (get_prop_opt_eq outline _ N) in G. inversion G; subst sec.
  unfold entries_ok in E. rewrite T in E. simpl in E.
  destruct (get_prop_opt outline (js "sections")) as [| | | | |l|];
    try discriminate E.
  exists l. split; [reflexivity|].
  rewrite forallb_forall in E. apply Forall_forall. intros x Hx.
  apply negb_true_iff, E, Hx.
Qed.

Lemma outline_quiet_run (ms : list Message) (h0 : OutlineHooks)
  (st0 : Store) (h : OutlineHooks) (st : Store) :
  memo_ok h0 ->
  Forall nothing_to_count ms ->
  OutlineMessage_run ms (h0, st0) = Return (h, st) ->
  st = st0.
Proof.
  intros M F; revert h0 M; induction F as [|m ms Q _ IH]; intros h0 M; simpl.
  - intros H; inversion H; reflexivity.
  - destruct (OutlineMessage m (h0, st0)) as [[[h1 st1] v]|] eqn:E; simpl;
      [|discriminate].
    intros R.
    assert (M1 : memo_ok h1) by (eapply OutlineMessage_memo_ok; eauto).
    assert (K : st1 = st0).
    { destruct (OutlineMessage_inv _ _ _ _ _ _ E)
        as [r [o [hu [sec [U [G [V [[_ [_ S]]|[_ [_ S]]]]]]]]]];
        [exact S|].
      destruct Q as [Q|[o' [D T]]].
      - rewrite Q in S; exact S.
      - rewrite (use_outline_decodes m h0 r o hu M U) in D.
        inversion D; subst o'.
        unfold get_prop_opt in T. rewrite G in T. rewrite T in S.
        rewrite andb_false_r in S. exact S. }
    subst st1. exact (IH h1 M1 R).
Qed.

(** X16.  Over any run of renders of a mounted outline card, the store is
    left as it was as long as every message rendered still streams or
    decodes to an outline whose [sections] are falsy: the effect writes no
    count for them. *)
Theorem outline_nothing_to_count (ms : list Message) (st0 : Store)
  (h : OutlineHooks) (st : Store) :
  Forall nothing_to_count ms ->
  OutlineMessage_run ms (OutlineMessage_mount, st0) = Return (h, st) ->
  st = st0.
Proof. intros F R. exact (outline_quiet_run ms OutlineMessage_mount st0 h st I F R). Qed.

Lemma outline_nothing_to_count_witness :
  let msg s c := mkMessage (js "m1") assistant (Some (js "outline")) c None s
                   None in
  let st0 := mkStore [js "m1"] [] [] [] None VUndefined [] in
  exists h,
    OutlineMessage_run
      [msg true (jq "{'sections':[{'title':'A'}");
       msg true (jq "{'sections':[{'title':'A'}]}");
       msg false (jq "{'title':'T'}")]
      (OutlineMessage_mount, st0) = Return (h, st0).
Proof.
  intros msg st0.
  destruct (OutlineMessage_run
              [msg true (jq "{'sections':[{'title':'A'}");
               msg true (jq "{'sections':[{'title':'A'}]}");
               msg false (jq "{'title':'T'}")]
              (OutlineMessage_mount, st0)) as [[h st]|] eqn:R;
    [|vm_compute in R; discriminate R].
  exists h.
  assert (K : st = st0).
  { apply (fun F => outline_nothing_to_count _ st0 h st F R).
    apply Forall_cons; [left; reflexivity|].
    apply Forall_cons; [left; reflexivity|].
    apply Forall_cons; [|apply Forall_nil].
    right. exists (VObj [(js "title", VStr (js "T"))]).
    split; vm_compute; reflexivity. }
  rewrite K; reflexivity.
Defined.

Lemma section_count_of_cons (m : Message) (ms : list Message) (n : value) :
  section_count_of ms n -> section_count_of (m :: ms) n.
Proof.
  intros [m' [o [l [Hin K]]]]. exists m', o, l. split; [right; exact Hin|].
  exact K.
Qed.

Lemma last_cons_default {A} (w : list A) (x d : A) :
  last (x :: w) d = last w x.
Proof.
  revert x d; induction w as [|y w IH]; intros x d; [reflexivity|].
  change (last (x :: y :: w) d) with (last (y :: w) d).
  rewrite (IH y d), (IH y x). reflexivity.
Qed.

Lemma outline_log_run (ms : list Message) (h0 : OutlineHooks) (st0 : Store)
  (h : OutlineHooks) (st : Store) :
  memo_ok h0 ->
  OutlineMessage_run ms (h0, st0) = Return (h, st) ->
  exists written,
    editTeamCount_log st = editTeamCount_log st0 ++ written
    /\ Forall (section_count_of ms) written
    /\ editTeamCount st = last written (editTeamCount st0)
    /\ List.length written
       <= List.length (filter (fun m => negb (isStreaming m)) ms).
Proof.
  revert h0 st0; induction ms as [|m ms IH]; intros h0 st0 M; simpl.
  - intros H; inversion H; subst. exists []. rewrite app_nil_r.
    repeat split; auto.
  - destruct (OutlineMessage m (h0, st0)) as [[[h1 st1] v]|] eqn:E; simpl;
      [|discriminate].
    intros R.
    assert (M1 : memo_ok h1) by (eapply OutlineMessage_memo_ok; eauto).
    destruct (IH h1 st1 M1 R) as [w [L [F [C N]]]].
    destruct (OutlineMessage_inv _ _ _ _ _ _ E)
      as [r [o [hu [sec [U [G [V K]]]]]]].
    assert (Q : st1 = st0
                \/ (isStreaming m = false /\ truthy sec = true
                    /\ st1 = setEditTeamCount (length_of sec) st0)).
    { destruct K as [[_ [_ S]]|[_ [_ S]]]; [left; exact S|].
      destruct (isStreaming m); simpl in S; [left; exact S|].
      destruct (truthy sec); simpl in S; [right; auto | left; exact S]. }
    destruct Q as [->|[S [T ->]]].
    + exists w. split; [exact L|]. split.
      * eapply Forall_impl; [|exact F]. intros n.
        apply section_count_of_cons.
      * split; [exact C|]. destruct (negb (isStreaming m)); simpl; lia.
    + destruct (sections_counted o sec v G V T) as [l [-> Fl]].
      exists (length_of (VArr l) :: w). simpl in L. rewrite <- app_assoc in L.
      split; [exact L|]. split.
      * constructor.
        -- exists m, o, l. split; [left; reflexivity|]. split; [exact S|].
           split; [exact (use_outline_decodes m h0 r o hu M U)|]. auto.
        -- eapply Forall_impl; [|exact F]. intros n.
           apply section_count_of_cons.
      * rewrite S. simpl filter. simpl List.length. split; [|lia].
        rewrite C, last_cons_default. reflexivity.
Qed.

(** X17.  Over any run of renders of a mounted outline card, every count the
    effect writes to the store is the length of the [sections] array of a
    completed message of the run, an array without [null] entry; the store
    holds the last count written, and there is at most one write per render
    of a completed message. *)
Theorem outline_writes_section_counts (ms : list Message) (st0 : Store)
  (h : OutlineHooks) (st : Store) :
  OutlineMessage_run ms (OutlineMessage_mount, st0) = Return (h, st) ->
  exists written,
    editTeamCount_log st = editTeamCount_log st0 ++ written
    /\ Forall (section_count_of ms) written
    /\ editTeamCount st = last written (editTeamCount st0)
    /\ List.length written
       <= List.length (filter (fun m => negb (isStreaming m)) ms).
Proof. intros R. exact (outline_log_run ms OutlineMessage_mount st0 h st I R). Qed.

Lemma outline_writes_section_counts_witness :
  let msg s c := mkMessage (js "m1") assistant (Some (js "outline")) c None s
                   None in
  let st0 := mkStore [js "m1"] [] [] [] None VUndefined [] in
  let ms := [msg true (jq "{'sections':[{'title':'A'}");
             msg false (jq "{'sections':[{'title':'A'},{'title':'B'}]}")] in
  exists h st written,
    OutlineMessage_run ms (OutlineMessage_mount, st0) = Return (h, st)
    /\ editTeamCount_log st = written
    /\ Forall (section_count_of ms) written
    /\ List.length written <= 1.
Proof.
  intros msg st0 ms.
  destruct (OutlineMessage_run ms (OutlineMessage_mount, st0))
    as [[h st]|] eqn:R; [|vm_compute in R; discriminate R].
  destruct (outline_writes_section_counts ms st0 h st R)
    as [written [L [F [_ N]]]].
  exists h, st, written. split; [reflexivity|].
  split; [exact L|]. split; [exact F | exact N].
Defined.

Lemma use_outline_refs (m : Message) (h : OutlineHooks) (r : nat)
  (outline : value) (hu : OutlineHooks) :
  refs_ok h -> use_outline m h = Return (r, outline, hu) ->
  refs_ok hu /\ r < next_ref hu
  /\ exists o, memo hu = Some (content m, (r, o)).
Proof.
  unfold use_outline, refs_ok. intros [Rm Re].
  destruct (memo h) as [[c [r0 v0]]|] eqn:Mh.
  - destruct (str_eqb c (content m)) eqn:C.
    + intros H; inversion H; subst. apply str_eqb_eq in C; subst c.
      rewrite Mh. repeat split; auto. eexists; reflexivity.
    + destruct (parseJSON parse _ _) as [v|]; simpl; [|discriminate].
      intros H; inversion H; subst; simpl. repeat split; auto.
      * destruct (effect_deps h) as [[b [r1|p]]|]; auto.
      * eexists; reflexivity.
  - destruct (parseJSON parse _ _) as [v|]; simpl; [|discriminate].
    intros H; inversion H; subst; simpl. repeat split; auto.
    + destruct (effect_deps h) as [[b [r1|p]]|]; auto.
    + eexists; reflexivity.
Qed.

Lemma OutlineMessage_refs_ok (m : Message) (h : OutlineHooks) (st : Store)
  (h1 : OutlineHooks) (st1 : Store) (v : OutlineView) :
  refs_ok h -> OutlineMessage m (h, st) = Return (h1, st1, v) ->
  refs_ok h1 /\ exists r o, memo h1 = Some (content m, (r, o)).
Proof.
  intros R E.
  destruct (OutlineMessage_inv _ _ _ _ _ _ E)
    as [r [o [hu [sec [U [G [V K]]]]]]].
  destruct (use_outline_refs m h r o hu R U) as [[Rm Re] [Lt [o' Mu]]].
  destruct K as [[_ [-> _]]|[_ [-> _]]].
  - split; [split; assumption|]. eauto.
  - split; [|simpl; eauto]. split; simpl; [exact Rm|].
    destruct sec; simpl; auto.
Qed.

Lemma OutlineMessage_run_refs_ok (ms : list Message) (h0 : OutlineHooks)
  (st0 : Store) (h : OutlineHooks) (st : Store) :
  refs_ok h0 -> OutlineMessage_run ms (h0, st0) = Return (h, st) -> refs_ok h.
Proof.
  revert h0 st0; induction ms as [|m ms IH]; intros h0 st0 R; simpl.
  - intros H; inversion H; subst; exact R.
  - destruct (OutlineMessage m (h0, st0)) as [[[h1 st1] v]|] eqn:E; simpl;
      [|discriminate].
    apply IH. exact (proj1 (OutlineMessage_refs_ok _ _ _ _ _ _ R E)).
Qed.

Lemma OutlineMessage_fresh_content (m : Message) (h : OutlineHooks)
  (st : Store) (outline : value) (l : list value) :
  refs_ok h ->
  (forall c r o, memo h = Some (c, (r, o)) -> c <> content m) ->
  isStreaming m = false ->
  decode (JString (content m)) (VObj []) = Return outline ->
  string_convertible (get_prop_opt outline (js "title")) = true ->
  get_prop outline (js "sections") = Return (VArr l) ->
  Forall (fun x => is_nullish x = false) l ->
  exists h1 v,
    OutlineMessage m (h, st)
    = Return (h1, setEditTeamCount (VNum (number_of_nat (List.length l))) st, v).
Proof.
  intros [_ Re] Fr Sm D T G F.
  destruct (OutlineMessage_view_total outline l T G F) as [v [V _]].
  assert (U : use_outline m h
              = Return (next_ref h, outline,
                        mkOH (Some (content m, (next_ref h, outline)))
                             (effect_deps h) (S (next_ref h)))).
  { unfold use_outline. unfold decode in D.
    destruct (memo h) as [[c [r o]]|] eqn:Mh.
    - destruct (str_eqb c (content m)) eqn:C.
      + apply str_eqb_eq in C. destruct (Fr c r o eq_refl C).
      + rewrite D; reflexivity.
    - rewrite D; reflexivity. }
  unfold OutlineMessage. rewrite U. simpl bind. rewrite G. simpl bind.
  rewrite V. simpl bind. simpl effect_deps. simpl dep_of.
  assert (Sd : same_deps (effect_deps h) (isStreaming m, DRef (next_ref h))
               = false).
  { destruct (effect_deps h) as [[b [r|p]]|]; simpl; auto.
    - replace (r =? next_ref h) with false
        by (symmetry; apply Nat.eqb_neq; lia).
      apply andb_false_r.
    - apply andb_false_r. }
  rewrite Sd, Sm. simpl. eexists; eexists; reflexivity.
Qed.

(** X18.  The first render of a mounted outline card, and every render whose
    content differs from that of the render before, writes the count when
    the message is completed and decodes to an outline whose [title] has a
    string for the heading and whose [sections] are an array without [null]
    entry: the freshly decoded array is a new dependency of the effect,
    whether or not the count has changed. *)
Theorem outline_new_content_recorded (ms : list Message) (m : Message)
  (st0 : Store) (h : OutlineHooks) (st : Store) (outline : value)
  (l : list value) :
  OutlineMessage_run ms (OutlineMessage_mount, st0) = Return (h, st) ->
  (ms = [] \/ exists ms' prev,
                ms = ms' ++ [prev] /\ content prev <> content m) ->
  isStreaming m = false ->
  decode (JString (content m)) (VObj []) = Return outline ->
  string_convertible (get_prop_opt outline (js "title")) = true ->
  get_prop outline (js "sections") = Return (VArr l) ->
  Forall (fun x => is_nullish x = false) l ->
  exists h1 v,
    OutlineMessage m (h, st)
    = Return (h1, setEditTeamCount (VNum (number_of_nat (List.length l))) st, v).
Proof.
  intros R P S D T G F.
  assert (R0 : refs_ok OutlineMessage_mount) by (split; exact I).
  apply (OutlineMessage_fresh_content m h st outline l); auto.
  - exact (OutlineMessage_run_refs_ok ms _ st0 h st R0 R).
  - destruct P as [->|[ms' [prev [-> Ne]]]].
    + simpl in R. inversion R; subst. intros c r o K; discriminate K.
    + rewrite OutlineMessage_run_app in R.
      destruct (OutlineMessage_run ms' (OutlineMessage_mount, st0))
        as [[h' st']|] eqn:R1; simpl in R; [|discriminate R].
      destruct (OutlineMessage prev (h', st')) as [[[h2 st2] v2]|] eqn:E;
        simpl in R; [|discriminate R].
      inversion R; subst h2 st2.
      destruct (OutlineMessage_refs_ok prev h' st' h st v2
                  (OutlineMessage_run_refs_ok ms' _ st0 h' st' R0 R1) E)
        as [_ [r' [o' Mh]]].
      intros c r o K. rewrite Mh in K. inversion K; subst. exact Ne.
Qed.

Lemma outline_new_content_recorded_witness :
  let msg s c := mkMessage (js "m1") assistant (Some (js "outline")) c None s
                   None in
  let st0 := mkStore [js "m1"] [] [] [] None VUndefined [] in
  let first := msg false (jq "{'sections':[{'title':'A'}]}") in
  let second := msg false (jq "{'sections':[{'title':'B'}]}") in
  exists h st h1 v,
    OutlineMessage_run [first] (OutlineMessage_mount, st0) = Return (h, st)
    /\ editTeamCount_log st = [VNum (number_of_nat 1)]
    /\ OutlineMessage second (h, st)
       = Return (h1, setEditTeamCount (VNum (number_of_nat 1)) st, v).
Proof.
  intros msg st0 first second.
  destruct (OutlineMessage_run [first] (OutlineMessage_mount, st0))
    as [[h st]|] eqn:R; [|vm_compute in R; discriminate R].
  assert (L : editTeamCount_log st = [VNum (number_of_nat 1)])
    by (vm_compute in R; inversion R; reflexivity).
  destruct (outline_new_content_recorded [first] second st0 h st
              (VObj [(js "sections",
                      VArr [VObj [(js "title", VStr (js "B"))]])])
              [VObj [(js "title", VStr (js "B"))]] R)
    as [h1 [v E]].
  - right. exists [], first. split; [reflexivity|].
    vm_compute. discriminate.
  - reflexivity.
  - vm_compute; reflexivity.
  - vm_compute; reflexivity.
  - vm_compute; reflexivity.
  - repeat constructor.
  - exists h, st, h1, v. split; [reflexivity|]. split; [exact L | exact E].
Defined.

(** ** The reasoning panel, event by event *)

Lemma ThoughtBlock_step_observed (s : ThoughtBlockState)
  (e : ThoughtBlockEvent) :
  ThoughtBlock_inv s ->
  hasAutoCollapsed (ThoughtBlock_step s e) = hasAutoCollapsed s || saw_content e
  /\ isOpen (ThoughtBlock_step s e)
     = match e with
       | Toggle o => o
       | Props h => if h && negb (hasAutoCollapsed s) then false else isOpen s
       end
  /\ collapses (ThoughtBlock_step s e)
     = if saw_content e && negb (hasAutoCollapsed s) then S (collapses s)
       else collapses s.
Proof.
  destruct e as [h|o]; tb_cases s; intros [C D]; subst n;
    try destruct h; destruct l; try destruct dh; try destruct dl;
    simpl in *; intuition congruence.
Qed.

Lemma ThoughtBlock_run_latch (es : list ThoughtBlockEvent)
  (s : ThoughtBlockState) :
  ThoughtBlock_inv s ->
  hasAutoCollapsed (ThoughtBlock_run es s)
  = hasAutoCollapsed s || existsb saw_content es.
Proof.
  revert s; induction es as [|e es IH]; intros s H; simpl.
  - rewrite orb_false_r; reflexivity.
  - rewrite (IH _ (ThoughtBlock_step_inv s e H)).
    rewrite (proj1 (ThoughtBlock_step_observed s e H)).
    rewrite orb_assoc; reflexivity.
Qed.

(** X19.  After any events on a mounted reasoning panel: the latch is set
    exactly when some render so far has seen main content; a click of the
    user sets the panel to what the user chose, whatever the latch, and
    leaves the latch alone; a render closes the panel when it sees main
    content with the latch unset and otherwise leaves it as it is; and the
    effect counts a forced close exactly in that one case. *)
Theorem ThoughtBlock_event (es : list ThoughtBlockEvent)
  (e : ThoughtBlockEvent) :
  let s := ThoughtBlock_run es ThoughtBlock_mount in
  hasAutoCollapsed s = existsb saw_content es
  /\ hasAutoCollapsed (ThoughtBlock_step s e)
     = existsb saw_content es || saw_content e
  /\ isOpen (ThoughtBlock_step s e)
     = match e with
       | Toggle o => o
       | Props h =>
           if h && negb (existsb saw_content es) then false else isOpen s
       end
  /\ collapses (ThoughtBlock_step s e)
     = if saw_content e && negb (existsb saw_content es)
       then S (collapses s) else collapses s.
Proof.
  intros s.
  assert (H : ThoughtBlock_inv s)
    by (apply ThoughtBlock_run_inv, ThoughtBlock_inv_mount).
  assert (L : hasAutoCollapsed s = existsb saw_content es)
    by (apply (ThoughtBlock_run_latch es _ ThoughtBlock_inv_mount)).
  rewrite <- L. split; [reflexivity|].
  exact (ThoughtBlock_step_observed s e H).
Qed.

(** X20.  The reasoning panel shows nothing exactly when its text is empty
    or made of white space only; otherwise it shows the text as it is, with
    the open state of its hooks and the streaming flag it was given. *)
Theorem ThoughtBlock_view_blank (p : ThoughtBlockProps)
  (s : ThoughtBlockState) :
  (all_space (tb_content p) /\ ThoughtBlock_view p s = RNull)
  \/ (~ all_space (tb_content p)
      /\ ThoughtBlock_view p s
         = RNode (isOpen s, tb_isStreaming p, tb_content p)).
Proof.
  unfold ThoughtBlock_view.
  destruct (tb_content p) as [|c r] eqn:E; simpl.
  - left; split; [constructor | reflexivity].
  - destruct (trim (c :: r)) as [|c' r'] eqn:T; simpl.
    + left; split; [apply trim_nil_iff; exact T | reflexivity].
    + right; split; [|reflexivity].
      intros A. apply trim_nil_iff in A. congruence.
Qed.
